(** * ZoneMTA outbound delivery worker ([lib/sender.js])

    A shallow embedding of the [Sender] class: the per-delivery pipeline
    [sendNext] -> [getConnection] -> [connection.send] ->
    [handleResponseError] / [releaseDelivery], together with the queue
    commands it issues, followed by the properties of the specification
    checked against it.

    Conventions.
    - A JavaScript string is a sequence of code units below 256
      ([String.string]); strings that hold other code units are outside
      the model.  A Buffer is the sequence of its bytes, again a
      [String.string], and [.length] its byte length: where the source
      holds a Buffer ([recivedHeader], the result of [headers.build()]),
      the model's value stands for that Buffer.
    - Integers that the code only adds, compares and multiplies are [Z] or
      [nat]; every value that occurs stays far below 2^53, where the
      arithmetic of JavaScript numbers is exact.
    - The callbacks of one delivery are laid out as one trace of events:
      the events of one turn of the event loop are in program order, and
      the events of a callback come after the call that registered it and
      after the rest of the turn of that call.  The webhook notifier, whose
      retries run on timers of a second and more, is laid out in one
      piece, from its first POST to its last.  Answers of the outside
      world (queue authority, DNS, SMTP peer, webhook endpoint) come from
      an oracle record [World].
    - The [updateTimer] calls of the pipeline and logging only feed
      observability and leave no event in the traces; the timer registry
      is modelled on its own, further down. *)

From Stdlib Require Import ZArith List String Ascii Bool Lia.
Import ListNotations.

Local Open Scope string_scope.
Local Open Scope list_scope.
Local Open Scope Z_scope.

(** String concatenation (the [+] of JavaScript on strings). *)
Infix "+++" := String.append (right associativity, at level 60).

(** ** JavaScript string primitives used by the sender *)

Module JS.

(** Truthiness of a string value: only the empty string is falsy. *)
Definition truthy (s : string) : bool := negb (s =? "")%string.

(** The lower case of a code unit below 256.  The letters [A-Z] and the
    capital letters of Latin-1 (U+00C0 to U+00DE, without the
    multiplication sign U+00D7) have their lower case 32 places above;
    every other code unit below 256 has no other lower case than
    itself. *)
Definition lowerCodeUnit (c : ascii) : ascii :=
  let n := nat_of_ascii c in
  if (((65 <=? n) && (n <=? 90))
      || ((192 <=? n) && (n <=? 222) && negb (n =? 215)))%nat
  then ascii_of_nat (n + 32) else c.

(** [String.prototype.toLowerCase].  Below 256 no code unit changes the
    lower case of its neighbours, so the string is mapped unit by
    unit. *)
Fixpoint toLowerCase (s : string) : string :=
  match s with
  | EmptyString => EmptyString
  | String c r => String (lowerCodeUnit c) (toLowerCase r)
  end.

Fixpoint lastIndexOf_from (c : ascii) (s : string) (i acc : Z) : Z :=
  match s with
  | EmptyString => acc
  | String a r => lastIndexOf_from c r (i + 1) (if Ascii.eqb a c then i else acc)
  end.

(** [s.lastIndexOf(c)]: the index of the last [c], or [-1]. *)
Definition lastIndexOf (c : ascii) (s : string) : Z :=
  lastIndexOf_from c s 0 (-1).

(** [s.substr(start)] for [start >= 0]. *)
Definition substr_from (s : string) (start : Z) : string :=
  substring (Z.to_nat start) (String.length s - Z.to_nat start)%nat s.

(** [s.substr(start, len)] for [start >= 0]; a length that is not
    positive gives the empty string. *)
Definition substr (s : string) (start len : Z) : string :=
  if len <=? 0 then "" else substring (Z.to_nat start) (Z.to_nat len) s.

(** [parts.join(sep)]. *)
Fixpoint join (sep : string) (parts : list string) : string :=
  match parts with
  | [] => ""
  | [p] => p
  | p :: rest => p +++ sep +++ join sep rest
  end.

End JS.

(** ** The header block *)

Module Headers.

Record HeaderLine := { key : string; line : string }.

(** Modelled from the spec: the [Headers] container of the mailsplit
    package, which [sender.js] only calls.  It is "an ordered multiset
    with index-addressed insertion (0 = top, infinity = bottom)" with
    duplicate names allowed; an insertion without an index goes to the
    top (the source's own comment: signing "would prepend a
    DKIM-Signature header"). Header names are matched in lower case. *)
Definition t := list HeaderLine.

Inductive Index := At (n : nat) | Infinity.

Definition normalizeHeader (k : string) : string := JS.toLowerCase k.

(** Modelled from the spec: [headers.get(key)] of mailsplit, the lines
    stored under [key], in block order. *)
Definition get (k : string) (h : t) : list string :=
  map line (filter (fun l => (key l =? normalizeHeader k)%string) h).

(** Modelled from the spec: [headers.getList()] of mailsplit, the block
    itself. *)
Definition getList (h : t) : t := h.

Definition splice (n : nat) (x : HeaderLine) (h : t) : t :=
  firstn n h ++ x :: skipn n h.

(** Modelled from the spec: [headers.addFormatted(key, line, index)] of
    mailsplit, index-addressed insertion where 0 is the top and infinity
    the bottom; [index] defaults to 0. *)
Definition addFormatted (k l : string) (index : option Index) (h : t) : t :=
  let header := {| key := normalizeHeader k; line := l |} in
  match index with
  | None | Some (At O) => header :: h
  | Some Infinity => h ++ [header]
  | Some (At n) =>
      if (List.length h <=? n)%nat then h ++ [header] else splice n header h
  end.

End Headers.

(** ** Data model *)

Module Delivery.

Record Deferred := { count : nat }.

Record SpamDefault :=
  { score : option string; required_score : option string; is_spam : bool }.

Record Spam := { default : option SpamDefault; tests : list string }.

(** Key material is opaque to the sender: it is handed to [dkimSign.sign]. *)
Definition DkimKey := string.

Record Dkim := { hashAlgo : string; bodyHash : string; keys : list DkimKey }.

Record t := {
  id : string;
  seq : string;
  _lock : string;
  from : string;
  to : list string;
  domain : string;
  headers : Headers.t;
  bodySize : Z;
  _deferred : option Deferred;
  spam : option Spam;
  dkim : option Dkim;
  fbl : string;
  messageId : string
}.

Definition with_headers (h : Headers.t) (d : t) : t :=
  {| id := id d; seq := seq d; _lock := _lock d; from := from d; to := to d;
     domain := domain d; headers := h; bodySize := bodySize d;
     _deferred := _deferred d; spam := spam d; dkim := dkim d; fbl := fbl d;
     messageId := messageId d |}.

End Delivery.

(** An error object as the sender reads it: [err.message], the SMTP reply
    [err.response] when the peer sent one, and [err.code]. *)
Module Error.
Record t := { message : string; response : option string; code : string }.
End Error.

(** The result of [bounces.check]. *)
Module Bounce.
Record t := { action : string; category : string; message : string }.
End Bounce.

(** The fields of the shared zone object that the sender reads or writes;
    optional strings are empty when unset. *)
Module Zone.
Record t := {
  name : string;
  host : string;
  port : Z;
  secure : bool;
  disableStarttls : bool;
  authMethod : string;
  auth : option string
}.

Definition set_disableStarttls (b : bool) (z : t) : t :=
  {| name := name z; host := host z; port := port z; secure := secure z;
     disableStarttls := b; authMethod := authMethod z; auth := auth z |}.
End Zone.

(** The configuration keys consumed by the sender. *)
Module Config.
Record t := {
  api_hostname : string;
  api_port : string;
  dkim_enabled : bool;
  srs_enabled : bool;
  srs_excludeDomains : list string;
  srs_rewriteDomain : string;
  bounces_url : string;
  bounces_enabled : bool
}.
End Config.

(** An entry of the list answered by [resolveMx]. *)
Module Exchange.
Record t := { exchange : string; priority : Z }.
End Exchange.

Record ZoneAddress := { za_name : string; za_address : string }.

(** The options object given to [new SMTPConnection(options)]. *)
Module Options.
Record t := {
  servername : string;
  host : string;
  port : Z;
  localAddress : string;
  name : string;
  requireTLS : bool;
  ignoreTLS : bool;
  opportunisticTLS : bool;
  secure : bool;
  authMethod : string;
  tls_servername : string;
  tls_rejectUnauthorized : bool
}.
End Options.

Record Connection := { options : Options.t }.

(** The envelope given to [connection.send]. *)
Module Envelope.
Record t := { from : string; to : list string; size : Z }.
End Envelope.

(** The JSON body posted to [config.bounces.url]. *)
Module Notification.
Record t := {
  id : string;
  to : list string;
  seq : string;
  returnPath : string;
  category : string;
  time : Z;
  response : string;
  fbl : option string
}.
End Notification.

(** ** Queue commands and observable events *)

Inductive Command :=
| GET
| RELEASE (id seq _lock : string)
| DEFER (id seq _lock : string) (ttl : Z)
| BOUNCE (id from : string) (to : list string) (seq : string)
         (headers : Headers.t) (returnPath category : string) (time : Z)
         (response : string).

Inductive Event :=
| Issue (cmd : Command)                       (* this.sendCommand(cmd, ...) *)
| Dial (o : Options.t)                        (* new SMTPConnection(o).connect *)
| Login (credentials : string)                (* connection.login *)
| Send (e : Envelope.t) (messageHeaders : string) (bodyUrl : string)
| Close                                       (* connection.close() *)
| Post (url : string) (body : Notification.t) (* fetch(config.bounces.url) *)
| SetTimeout (ms : Z)
| SetImmediateSendNext
| EmitError (err : Error.t).

(** ** Collaborators *)

(** Functions of the modules that the sender requires ([bounces],
    [dkim-sign], [os], [net], mailsplit, libmime), of the zone object and
    of the SRS rewriter, which are not part of [sender.js].  The sender's
    own [formatSMTPResponse] is kept with them: its result is only passed
    along to the log, the webhook and the bounce, and every statement
    below holds for any normaliser of replies. *)
Record Externals := {
  bounces_check : option string -> Bounce.t;
  generateReceivedHeader : Delivery.t -> string -> string;
  getAddress : string -> bool -> ZoneAddress;
  os_hostname : string;
  net_isIPv6 : string -> bool;
  dkimSign_sign : Headers.t -> string -> string -> Delivery.DkimKey -> option string;
  srsRewriter_rewrite : string -> string -> string;
  foldLines : string -> string;
  build : Headers.t -> string;
  formatSMTPResponse : string -> string;
  Date_now : Z
}.

Inductive GetReply :=
| GetError (err : Error.t)
| GetData (delivery : option Delivery.t).

Inductive MxResult :=
| MxError (err : Error.t)
| MxNone
| MxList (exchanges : list Exchange.t).

Inductive IpResult :=
| IpError (err : Error.t)
| IpList (ipList : list string).

(** Answers of the outside world.  A connection attempt is identified by
    its rank among the attempts of the delivery, and ends in exactly one
    outcome: an ['error'] event, or the connect callback followed by the
    result of the login, if any.  [connect] answers
    [Some err] when the connection emits ['error'] before its connect
    callback has run, [login] answers [Some err] when AUTH fails, [send]
    answers [Some err] when the message is not accepted, and
    [webhook_fails n] tells whether the POST made with [retries = n] ends
    in an ['error'] event. *)
Record World := {
  get_reply : GetReply;
  ack : Command -> option Error.t;
  resolveMx : string -> MxResult;
  resolveIp : string -> IpResult;
  connect : nat -> Options.t -> option Error.t;
  login : nat -> Options.t -> option Error.t;
  send : Envelope.t -> option Error.t;
  webhook_fails : nat -> bool
}.

(** ** Worker state and the monad of the embedding *)

Record State := {
  zone : Zone.t;
  closing : bool;
  emptyChecks : nat;
  dials : nat
}.

(** A computation reads and updates the worker state and appends to the
    trace; [None] means that the fuel of a loop ran out. *)
Definition M (A : Type) : Type := State -> option (A * State * list Event).

Definition ret {A} (a : A) : M A := fun s => Some (a, s, []).

Definition bind {A B} (m : M A) (f : A -> M B) : M B :=
  fun s =>
    match m s with
    | None => None
    | Some (a, s1, t1) =>
        match f a s1 with
        | None => None
        | Some (b, s2, t2) => Some (b, s2, t1 ++ t2)
        end
    end.

Notation "x <- m ;; k" := (bind m (fun x => k))
  (at level 61, m at next level, right associativity).
Notation "m ;; k" := (bind m (fun _ => k))
  (at level 61, right associativity).

Definition outOfFuel {A} : M A := fun _ => None.
Definition emit (e : Event) : M unit := fun s => Some (tt, s, [e]).
Definition getState : M State := fun s => Some (s, s, []).
Definition putState (s : State) : M unit := fun _ => Some (tt, s, []).

Definition set_closing (b : bool) : M unit :=
  s <- getState ;;
  putState {| zone := zone s; closing := b; emptyChecks := emptyChecks s;
              dials := dials s |}.

Definition set_emptyChecks (n : nat) : M unit :=
  s <- getState ;;
  putState {| zone := zone s; closing := closing s; emptyChecks := n;
              dials := dials s |}.

Definition set_zone_disableStarttls (b : bool) : M unit :=
  s <- getState ;;
  putState {| zone := Zone.set_disableStarttls b (zone s);
              closing := closing s; emptyChecks := emptyChecks s;
              dials := dials s |}.

(** The rank of the next connection attempt. *)
Definition nextDial : M nat :=
  s <- getState ;;
  putState {| zone := zone s; closing := closing s;
              emptyChecks := emptyChecks s; dials := S (dials s) |} ;;
  ret (dials s).

(** ** The sender *)

Section Sender.

Variable X : Externals.
Variable W : World.
Variable config : Config.t.

(** [this.sendCommand(cmd, callback)]: the command goes to the queue
    authority, and the reply that its callback will receive is returned.

    Modelled from the spec: the queue client, which the constructor
    receives as [sendCommand] and which is not part of [sender.js], is a
    "request/response command channel" and one of the "suspension
    points" of the worker: it calls back in a later turn of the event
    loop.  So what the caller still does after the call, before it
    returns to the event loop, happens before the reply is handled. *)
Definition sendCommand (cmd : Command) : M (option Error.t) :=
  emit (Issue cmd) ;; ret (ack W cmd).

(** [this.closing = true; this.emit('error', err)]. *)
Definition fatal (err : Error.t) : M unit :=
  set_closing true ;; emit (EmitError err).

Definition releaseDelivery (delivery : Delivery.t) : M (option Error.t) :=
  sendCommand (RELEASE (Delivery.id delivery) (Delivery.seq delivery)
                       (Delivery._lock delivery)).

Definition deferDelivery (delivery : Delivery.t) (ttl : Z) : M (option Error.t) :=
  sendCommand (DEFER (Delivery.id delivery) (Delivery.seq delivery)
                     (Delivery._lock delivery) ttl).

(** One iteration of the [forEach] of [signMessage]. *)
Definition signWith (dkim : Delivery.Dkim) (delivery : Delivery.t)
           (key : Delivery.DkimKey) : Delivery.t :=
  match dkimSign_sign X (Delivery.headers delivery) (Delivery.hashAlgo dkim)
                      (Delivery.bodyHash dkim) key with
  | Some dkimHeader =>
      if JS.truthy dkimHeader
      then Delivery.with_headers
             (Headers.addFormatted "dkim-signature" dkimHeader None
                                   (Delivery.headers delivery)) delivery
      else delivery
  | None => delivery
  end.

Definition signMessage (delivery : Delivery.t) : Delivery.t :=
  match Delivery.dkim delivery with
  | None => delivery
  | Some dkim => fold_left (signWith dkim) (rev (Delivery.keys dkim)) delivery
  end.

(** [headers.add(key, value, index)]: the folded line [key: value]. *)
Definition Headers_add (k value : string) (index : option Headers.Index)
           (h : Headers.t) : Headers.t :=
  Headers.addFormatted k (foldLines X (k +++ ": " +++ value)) index h.

Definition spamStatus (spam : Delivery.Spam) (def : Delivery.SpamDefault) : string :=
  let statusParts :=
    (match Delivery.score def with Some v => ["score=" +++ v] | None => [] end)
    ++ (match Delivery.required_score def with
        | Some v => ["required=" +++ v] | None => [] end)
    ++ (match Delivery.tests spam with
        | [] => []
        | ts => ["tests=[" +++ JS.join ", " ts +++ "]"]
        end) in
  (if Delivery.is_spam def then "Yes" else "No")
  +++ (match statusParts with
       | [] => ""
       | _ => ", " +++ JS.join ", " statusParts
       end).

(** The [X-Zone-Spam-Status] block at the top of the [GET] callback. *)
Definition addSpamStatus (delivery : Delivery.t) : Delivery.t :=
  match Delivery.spam delivery with
  | Some spam =>
      match Delivery.default spam with
      | Some def =>
          Delivery.with_headers
            (Headers_add "X-Zone-Spam-Status" (spamStatus spam def)
                         (Some Headers.Infinity) (Delivery.headers delivery))
            delivery
      | None => delivery
      end
  | None => delivery
  end.

(** *** [getConnection] *)

Definition dialOptions (z : Zone.t) (exchange : Exchange.t) (ip : string)
           (zoneAddress : ZoneAddress) : Options.t :=
  {| Options.servername := (Exchange.exchange exchange);
     Options.host := ip;
     Options.port := Zone.port z;
     Options.localAddress := za_address zoneAddress;
     Options.name := za_name zoneAddress;
     Options.requireTLS := negb (Zone.disableStarttls z);
     Options.ignoreTLS := Zone.disableStarttls z;
     Options.opportunisticTLS := true;
     Options.secure := Zone.secure z;
     Options.authMethod := Zone.authMethod z;
     Options.tls_servername := (Exchange.exchange exchange);
     Options.tls_rejectUnauthorized := false |}.

Definition noExchange : Exchange.t :=
  {| Exchange.exchange := ""; Exchange.priority := 0 |}.

(** The closures [tryConnectMX] and [tryConnectIP]; their captured
    counters [mxTry] and [ipTry] are passed along.  The result is the
    pair of arguments of [callback]. *)
Fixpoint tryConnectMX (fuel : nat) (delivery : Delivery.t)
         (exchanges : list Exchange.t) (mxTry : nat) {struct fuel}
  : M (Error.t + Connection) :=
  match fuel with
  | O => outOfFuel
  | S fuel =>
      if (List.length exchanges <=? mxTry)%nat then
        ret (inl {| Error.message := "Can't connect to MX";
                    Error.response :=
                      Some ("450 Can't connect to any MX server for "
                              +++ Delivery.domain delivery);
                    Error.code := "" |})
      else
        let exchange := nth mxTry exchanges noExchange in
        let mxTry := S mxTry in
        match resolveIp W (Exchange.exchange exchange) with
        | IpError _ => tryConnectMX fuel delivery exchanges mxTry
        | IpList [] => tryConnectMX fuel delivery exchanges mxTry
        | IpList ipList =>
            tryConnectIP fuel delivery exchanges mxTry exchange ipList (-1) false
        end
  end
with tryConnectIP (fuel : nat) (delivery : Delivery.t)
         (exchanges : list Exchange.t) (mxTry : nat) (exchange : Exchange.t)
         (ipList : list string) (ipTry : Z) (retryConnection : bool)
         {struct fuel} : M (Error.t + Connection) :=
  match fuel with
  | O => outOfFuel
  | S fuel =>
      if negb retryConnection && (Z.of_nat (List.length ipList) - 1 <=? ipTry) then
        tryConnectMX fuel delivery exchanges mxTry
      else
        let ipTry := if retryConnection then ipTry else ipTry + 1 in
        let ip := nth (Z.to_nat ipTry) ipList "" in
        let zoneAddress :=
          getAddress X (Delivery.id delivery +++ "." +++ Delivery.seq delivery)
                     (net_isIPv6 X ip) in
        s <- getState ;;
        let options := dialOptions (zone s) exchange ip zoneAddress in
        n <- nextDial ;;
        emit (Dial options) ;;
        match connect W n options with
        | Some err =>
            if (Error.code err =? "ETLS")%string then
              set_zone_disableStarttls true ;;
              tryConnectIP fuel delivery exchanges mxTry exchange ipList ipTry true
            else
              tryConnectIP fuel delivery exchanges mxTry exchange ipList ipTry false
        | None =>
            match Zone.auth (zone s) with
            | Some credentials =>
                emit (Login credentials) ;;
                match login W n options with
                | Some err => emit Close ;; ret (inl err)
                | None => ret (inr {| options := options |})
                end
            | None => ret (inr {| options := options |})
            end
        end
  end.

Definition getConnection (fuel : nat) (delivery : Delivery.t)
  : M (Error.t + Connection) :=
  let domain := Delivery.domain delivery in
  s <- getState ;;
  let resolved :=
    if JS.truthy (Zone.host (zone s))
    then MxList [{| Exchange.exchange := Zone.host (zone s);
                     Exchange.priority := 0 |}]
    else resolveMx W domain in
  match resolved with
  | MxError err => ret (inl err)
  | MxNone =>
      ret (inl {| Error.message := "Can't find an MX server for " +++ domain;
                  Error.response :=
                    Some ("450 Can't find an MX server for " +++ domain);
                  Error.code := "" |})
  | MxList exchanges => tryConnectMX fuel delivery exchanges 0
  end.

(** *** [handleResponseError] and the bounce notifications *)

(** [delivery._deferred && delivery._deferred.count || 0]. *)
Definition deferredCount (delivery : Delivery.t) : nat :=
  match Delivery._deferred delivery with
  | Some d => Delivery.count d
  | None => O
  end.

(** [Math.min(Math.pow(5, deferredCount + 1), 1024) * 60 * 1000]. *)
Definition deferTtl (deferredCount : nat) : Z :=
  Z.min (5 ^ (Z.of_nat deferredCount + 1)) 1024 * 60 * 1000.

(** [err.response || err.message]. *)
Definition responseOrMessage (err : Error.t) : string :=
  match Error.response err with
  | Some r => if JS.truthy r then r else Error.message err
  | None => Error.message err
  end.

Definition notification (delivery : Delivery.t) (bounce : Bounce.t)
           (smtpResponse : string) : Notification.t :=
  {| Notification.id := Delivery.id delivery;
     Notification.to := Delivery.to delivery;
     Notification.seq := Delivery.seq delivery;
     Notification.returnPath := Delivery.from delivery;
     Notification.category := Bounce.category bounce;
     Notification.time := Date_now X;
     Notification.response := smtpResponse;
     Notification.fbl :=
       if JS.truthy (Delivery.fbl delivery)
       then Some (Delivery.fbl delivery) else None |}.

(** The closure [notifyBounce]; [retries] is its captured counter.  The
    test [retries++ <= 5] compares the value before the increment, and
    the delay [Math.pow(retries, 2) * 1000] uses the value after it. *)
Fixpoint notifyBounce (fuel : nat) (body : Notification.t) (retries : nat)
  : M unit :=
  match fuel with
  | O => outOfFuel
  | S fuel =>
      emit (Post (Config.bounces_url config) body) ;;
      if webhook_fails W retries then
        if (retries <=? 5)%nat then
          emit (SetTimeout (Z.of_nat (S retries) ^ 2 * 1000)) ;;
          notifyBounce fuel body (S retries)
        else ret tt
      else ret tt
  end.

Definition sendBounceMessage (delivery : Delivery.t) (bounce : Bounce.t)
           (smtpResponse : string) : M unit :=
  if negb (JS.truthy (Delivery.from delivery)) then
    ret tt
  else if (25 <? List.length (Headers.get "Received" (Delivery.headers delivery)))%nat then
    ret tt
  else
    r <- sendCommand
           (BOUNCE (Delivery.id delivery) (Delivery.from delivery)
                   (Delivery.to delivery) (Delivery.seq delivery)
                   (Headers.getList (Delivery.headers delivery))
                   (Delivery.from delivery) (Bounce.category bounce)
                   (Date_now X) smtpResponse) ;;
    match r with
    | Some err => fatal err
    | None => ret tt
    end.

(** [handleResponseError(delivery, connection, err, callback)], where
    [rest] is what the caller does between the return of the call and
    its own return to the event loop: the command is issued during the
    call, [rest] follows, and the reply of the queue is handled in a
    later turn. *)
Definition handleResponseErrorThen (rest : M unit) (fuel : nat)
           (delivery : Delivery.t) (err : Error.t) : M unit :=
  let deferredCount := deferredCount delivery in
  let smtpResponse := formatSMTPResponse X (responseOrMessage err) in
  let bounce := bounces_check X (Error.response err) in
  if negb (Bounce.action bounce =? "reject")%string || (6 <? deferredCount)%nat then
    let ttl := deferTtl deferredCount in
    r <- deferDelivery delivery ttl ;;
    rest ;;
    match r with
    | Some err => fatal err
    | None => ret tt
    end
  else
    r <- releaseDelivery delivery ;;
    rest ;;
    match r with
    | Some err => fatal err
    | None =>
        let body := notification delivery bounce smtpResponse in
        (if JS.truthy (Config.bounces_url config)
         then notifyBounce fuel body 0 else ret tt) ;;
        (if Config.bounces_enabled config
         then sendBounceMessage delivery bounce smtpResponse else ret tt)
    end.

(** A call of [handleResponseError] and the handling of the reply, with
    nothing in between. *)
Definition handleResponseError (fuel : nat) (delivery : Delivery.t)
           (err : Error.t) : M unit :=
  handleResponseErrorThen (ret tt) fuel delivery err.

(** *** [sendNext] *)

(** [delivery.headers.addFormatted('Received', recivedHeader, 0)]. *)
Definition addReceived (recivedHeader : string) (delivery : Delivery.t)
  : Delivery.t :=
  Delivery.with_headers
    (Headers.addFormatted "Received" recivedHeader (Some (Headers.At 0))
                          (Delivery.headers delivery)) delivery.

Definition senderDomain (envelopeFrom : string) : string :=
  JS.toLowerCase
    (JS.substr_from envelopeFrom (JS.lastIndexOf "@" envelopeFrom + 1)).

Definition localPart (envelopeFrom : string) : string :=
  JS.substr envelopeFrom 0 (JS.lastIndexOf "@" envelopeFrom).

(** The envelope sender after the SRS block of [sendNext]. *)
Definition srsEnvelopeFrom (from : string) : string :=
  if Config.srs_enabled config && JS.truthy from then
    if existsb (String.eqb (senderDomain from)) (Config.srs_excludeDomains config)
    then from
    else srsRewriter_rewrite X (localPart from) (senderDomain from)
         +++ "@" +++ Config.srs_rewriteDomain config
  else from.

Definition bodyUrl (delivery : Delivery.t) : string :=
  "http://" +++ Config.api_hostname config +++ ":" +++ Config.api_port config
  +++ "/fetch/" +++ Delivery.id delivery +++ "?body=yes".

(** The header block as it stands when [headers.build()] is called on
    an established connection. *)
Definition wireHeaders (delivery : Delivery.t) (connection : Connection)
  : Delivery.t :=
  let recivedHeader :=
    generateReceivedHeader X delivery (Options.name (options connection)) in
  let delivery := addReceived recivedHeader delivery in
  if Config.dkim_enabled config then signMessage delivery else delivery.

(** The callback of [this.getConnection] inside [sendNext].  On each of
    its three paths the queue command is issued, then
    [setImmediate(() => this.sendNext())] is called in the same turn, and
    the reply of the queue is handled after that. *)
Definition onConnection (fuel : nat) (delivery : Delivery.t)
           (r : Error.t + Connection) : M unit :=
  match r with
  | inl err =>
      let recivedHeader := generateReceivedHeader X delivery (os_hostname X) in
      let delivery := addReceived recivedHeader delivery in
      handleResponseErrorThen (emit SetImmediateSendNext) fuel delivery err
  | inr connection =>
      let recivedHeader :=
        generateReceivedHeader X delivery (Options.name (options connection)) in
      let delivery := wireHeaders delivery connection in
      let messageHeaders := build X (Delivery.headers delivery) in
      let messageSize :=
        Z.of_nat (String.length recivedHeader)
        + Z.of_nat (String.length messageHeaders)
        + Delivery.bodySize delivery in
      let envelopeFrom := srsEnvelopeFrom (Delivery.from delivery) in
      let envelope :=
        {| Envelope.from := envelopeFrom;
           Envelope.to := Delivery.to delivery;
           Envelope.size := messageSize |} in
      emit (Send envelope messageHeaders (bodyUrl delivery)) ;;
      emit Close ;;
      match send W envelope with
      | Some err =>
          handleResponseErrorThen (emit SetImmediateSendNext) fuel delivery err
      | None =>
          r <- releaseDelivery delivery ;;
          emit SetImmediateSendNext ;;
          match r with
          | Some err => fatal err
          | None => ret tt
          end
      end
  end.

(** The part of the [GET] callback that handles a job. *)
Definition deliver (fuel : nat) (delivery : Delivery.t) : M unit :=
  let delivery := addSpamStatus delivery in
  r <- getConnection fuel delivery ;;
  onConnection fuel delivery r.

Definition sendNext (fuel : nat) : M unit :=
  s <- getState ;;
  if closing s then ret tt
  else
    emit (Issue GET) ;;
    match get_reply W with
    | GetError err => fatal err
    | GetData None =>
        set_emptyChecks (S (emptyChecks s)) ;;
        emit (SetTimeout (Z.min (Z.of_nat (S (emptyChecks s)) ^ 2) 1000 * 10))
    | GetData (Some delivery) =>
        if negb (JS.truthy (Delivery.id delivery)) then
          set_emptyChecks (S (emptyChecks s)) ;;
          emit (SetTimeout (Z.min (Z.of_nat (S (emptyChecks s)) ^ 2) 1000 * 10))
        else
          set_emptyChecks 0 ;;
          deliver fuel delivery
    end.

End Sender.

Arguments ret {A} a s /.
Arguments bind {A B} m f s /.
Arguments emit e s /.
Arguments getState s /.
Arguments putState s _ /.
Arguments outOfFuel {A} _ /.

(** ** Observations on traces *)

Definition isRelease (e : Event) : bool :=
  match e with Issue (RELEASE _ _ _) => true | _ => false end.

Definition isDefer (e : Event) : bool :=
  match e with Issue (DEFER _ _ _ _) => true | _ => false end.

Definition isBounce (e : Event) : bool :=
  match e with Issue (BOUNCE _ _ _ _ _ _ _ _ _) => true | _ => false end.

(** The commands that settle the lock of a delivery. *)
Definition isAck (e : Event) : bool := isRelease e || isDefer e.

(** The terminal commands of the specification. *)
Definition isTerminal (e : Event) : bool := isAck e || isBounce e.

Definition isIssue (e : Event) : bool :=
  match e with Issue _ => true | _ => false end.

Definition isPost (e : Event) : bool :=
  match e with Post _ _ => true | _ => false end.

Definition isSend (e : Event) : bool :=
  match e with Send _ _ _ => true | _ => false end.

Definition count (p : Event -> bool) (tr : list Event) : nat :=
  List.length (filter p tr).

(** [t] followed by the run [m]. *)
Definition after {A} (t : list Event) (m : option (A * State * list Event))
  : option (A * State * list Event) :=
  match m with
  | None => None
  | Some (a, s, tr) => Some (a, s, t ++ tr)
  end.

(** ** A concrete setting, used to run the model *)

Module Sample.

Definition crlf : string := String (ascii_of_nat 13) (String (ascii_of_nat 10) "").

Definition classify (response : option string) : Bounce.t :=
  match response with
  | Some (String "5" _) =>
      {| Bounce.action := "reject"; Bounce.category := "recipient";
         Bounce.message := "Rejected by the server" |}
  | _ =>
      {| Bounce.action := "defer"; Bounce.category := "other";
         Bounce.message := "Try again later" |}
  end.

Definition X : Externals :=
  {| bounces_check := classify;
     generateReceivedHeader := fun _ hostname =>
       "Received: from queue by " +++ hostname;
     getAddress := fun _ _ =>
       {| za_name := "mta1.example.test"; za_address := "192.0.2.1" |};
     os_hostname := "worker.local";
     net_isIPv6 := fun _ => false;
     dkimSign_sign := fun _ _ _ key => Some ("DKIM-Signature: s=" +++ key);
     srsRewriter_rewrite := fun localpart domain =>
       "SRS0=HHH=TT=" +++ domain +++ "=" +++ localpart;
     foldLines := fun l => l;
     build := fun h => JS.join crlf (map Headers.line h) +++ crlf +++ crlf;
     formatSMTPResponse := fun r => r;
     Date_now := 1478131200000 |}.

Definition config : Config.t :=
  {| Config.api_hostname := "localhost";
     Config.api_port := "8080";
     Config.dkim_enabled := true;
     Config.srs_enabled := true;
     Config.srs_excludeDomains := ["x.test"];
     Config.srs_rewriteDomain := "srs.example.test";
     Config.bounces_url := "http://localhost:5000/bounce";
     Config.bounces_enabled := true |}.

Definition zone0 : Zone.t :=
  {| Zone.name := "default"; Zone.host := ""; Zone.port := 25;
     Zone.secure := false; Zone.disableStarttls := false;
     Zone.authMethod := ""; Zone.auth := None |}.

Definition state : State :=
  {| zone := zone0; closing := false; emptyChecks := 0; dials := 0 |}.

Definition delivery : Delivery.t :=
  {| Delivery.id := "m1"; Delivery.seq := "1"; Delivery._lock := "lock-1";
     Delivery.from := "a@x"; Delivery.to := ["b@y.test"];
     Delivery.domain := "y.test";
     Delivery.headers :=
       [ {| Headers.key := "from"; Headers.line := "From: a@x" |};
         {| Headers.key := "subject"; Headers.line := "Subject: hello" |} ];
     Delivery.bodySize := 10;
     Delivery._deferred := None;
     Delivery.spam := None;
     Delivery.dkim :=
       Some {| Delivery.hashAlgo := "sha256"; Delivery.bodyHash := "abc=";
               Delivery.keys := ["k1"; "k2"] |};
     Delivery.fbl := "";
     Delivery.messageId := "<m1@x>" |}.

Definition error (code response : string) : Error.t :=
  {| Error.message := "failed"; Error.response := Some response;
     Error.code := code |}.

(** A world with one exchange and one address; the peer answers [reply]
    to the message, the queue acknowledges, and the webhook fails for
    the POSTs listed by [webhook]. *)
Definition world (reply : option Error.t) (webhook : nat -> bool) : World :=
  {| get_reply := GetData (Some delivery);
     ack := fun _ => None;
     resolveMx := fun _ =>
       MxList [{| Exchange.exchange := "mx.y.test"; Exchange.priority := 10 |}];
     resolveIp := fun _ => IpList ["10.0.0.1"];
     connect := fun _ _ => None;
     login := fun _ _ => None;
     send := fun _ => reply;
     webhook_fails := webhook |}.

End Sample.

(** ** Basic facts about traces *)

(** Runs the monadic plumbing of a goal, and nothing else. *)
Ltac run :=
  cbn [bind ret emit getState putState outOfFuel set_closing set_emptyChecks
       set_zone_disableStarttls nextDial fatal sendCommand app after].

Lemma count_app (p : Event -> bool) (a b : list Event) :
  count p (a ++ b) = (count p a + count p b)%nat.
Proof.
  unfold count. rewrite filter_app, length_app. reflexivity.
Qed.

Lemma count_zero_Forall (p : Event -> bool) (tr : list Event) :
  Forall (fun e => p e = false) tr -> count p tr = O.
Proof.
  unfold count. induction 1 as [|e tr He _ IH]; simpl.
  - reflexivity.
  - rewrite He. exact IH.
Qed.

Lemma filter_none (p : Event -> bool) (tr : list Event) :
  Forall (fun e => p e = false) tr -> filter p tr = [].
Proof.
  induction 1 as [|e tr He _ IH]; simpl.
  - reflexivity.
  - rewrite He. exact IH.
Qed.

Lemma Forall_not_In (p : Event -> bool) (tr : list Event) (e : Event) :
  Forall (fun e => p e = false) tr -> p e = true -> ~ In e tr.
Proof.
  intros HF He Hin. rewrite Forall_forall in HF.
  specialize (HF e Hin). congruence.
Qed.

Tactic Notation "run_in" hyp(H) :=
  cbn [bind ret emit getState putState outOfFuel set_closing set_emptyChecks
       set_zone_disableStarttls nextDial fatal sendCommand app after] in H.

(** Events of the webhook notifier. *)
Definition isNotifier (e : Event) : bool :=
  match e with Post _ _ | SetTimeout _ => true | _ => false end.

(** Events that reach neither the queue nor the webhook: the error
    signal and the scheduling of the next [sendNext]. *)
Definition isQuiet (e : Event) : bool :=
  match e with EmitError _ | SetImmediateSendNext => true | _ => false end.

Lemma quiet_not_issue (tr : list Event) :
  Forall (fun e => isQuiet e = true) tr ->
  Forall (fun e => isIssue e = false) tr.
Proof.
  apply Forall_impl. intros e He. destruct e; simpl in *; congruence.
Qed.

Lemma notifier_not_issue (tr : list Event) :
  Forall (fun e => isNotifier e = true) tr ->
  Forall (fun e => isIssue e = false) tr.
Proof.
  apply Forall_impl. intros e He. destruct e; simpl in *; congruence.
Qed.

Lemma issue_free (p : Event -> bool) (tr : list Event) :
  (forall e, p e = true -> isIssue e = true) ->
  Forall (fun e => isIssue e = false) tr ->
  Forall (fun e => p e = false) tr.
Proof.
  intros Hp. apply Forall_impl. intros e He.
  destruct (p e) eqn:E; [apply Hp in E; congruence | reflexivity].
Qed.

Lemma isAck_issue e : isAck e = true -> isIssue e = true.
Proof. destruct e as [[]| | | | | | | | ]; cbv; intros H; congruence. Qed.

Lemma isBounce_issue e : isBounce e = true -> isIssue e = true.
Proof. destruct e as [[]| | | | | | | | ]; cbv; intros H; congruence. Qed.

Section Properties.

Variable X : Externals.
Variable W : World.
Variable config : Config.t.

(** *** The webhook notifier *)

(** Seven units of fuel are enough for the notifier, which leaves the
    worker state alone and only posts and sets timers. *)
Lemma notifyBounce_total (fuel : nat) :
  forall (body : Notification.t) (retries : nat) (s : State),
    (1 <= fuel)%nat -> (7 <= fuel + retries)%nat ->
    exists tr,
      notifyBounce W config fuel body retries s
      = Some (tt, s, Post (Config.bounces_url config) body :: tr)
      /\ Forall (fun e => isNotifier e = true) tr.
Proof.
  induction fuel as [|fuel IH]; intros body retries s H1 H7; [lia|].
  cbn [notifyBounce]. run. destruct (webhook_fails W retries).
  - destruct (retries <=? 5)%nat eqn:E; run.
    + apply Nat.leb_le in E.
      destruct (IH body (S retries) s) as (tr & Htr & HF); [lia | lia |].
      rewrite Htr. eexists. split; [reflexivity|].
      constructor; [reflexivity|]. constructor; [reflexivity | exact HF].
    + eexists. split; [reflexivity | constructor].
  - eexists. split; [reflexivity | constructor].
Qed.

(** *** [sendBounceMessage] *)

Definition bounceCommand (delivery : Delivery.t) (bounce : Bounce.t)
           (smtpResponse : string) : Command :=
  BOUNCE (Delivery.id delivery) (Delivery.from delivery)
         (Delivery.to delivery) (Delivery.seq delivery)
         (Delivery.headers delivery) (Delivery.from delivery)
         (Bounce.category bounce) (Date_now X) smtpResponse.

(** Whether [sendBounceMessage] gets past its two guards. *)
Definition bounceable (delivery : Delivery.t) : bool :=
  JS.truthy (Delivery.from delivery)
  && negb (25 <? List.length (Headers.get "Received" (Delivery.headers delivery)))%nat.

Lemma sendBounceMessage_cases delivery bounce smtpResponse s :
  exists s' rest,
    sendBounceMessage X W delivery bounce smtpResponse s
    = Some (tt, s',
            (if bounceable delivery
             then [Issue (bounceCommand delivery bounce smtpResponse)]
             else []) ++ rest)
    /\ Forall (fun e => isQuiet e = true) rest.
Proof.
  unfold sendBounceMessage, bounceable, bounceCommand, Headers.getList.
  destruct (JS.truthy (Delivery.from delivery)); simpl.
  2:{ exists s, []. split; [reflexivity | constructor]. }
  destruct (25 <? _)%nat; simpl.
  { exists s, []. split; [reflexivity | constructor]. }
  destruct (ack W _); simpl.
  - eexists _, [_]. split; [reflexivity|]. repeat constructor.
  - exists s, []. split; [reflexivity | constructor].
Qed.

(** *** [handleResponseError] *)

(** The test that sends [handleResponseError] into its first branch. *)
Definition defers (delivery : Delivery.t) (err : Error.t) : bool :=
  negb (Bounce.action (bounces_check X (Error.response err)) =? "reject")%string
  || (6 <? deferredCount delivery)%nat.

Definition releaseCommand (delivery : Delivery.t) : Command :=
  RELEASE (Delivery.id delivery) (Delivery.seq delivery) (Delivery._lock delivery).

Definition deferCommand (delivery : Delivery.t) : Command :=
  DEFER (Delivery.id delivery) (Delivery.seq delivery) (Delivery._lock delivery)
        (deferTtl (deferredCount delivery)).

Lemma handleResponseError_defer fuel delivery err s :
  defers delivery err = true ->
  exists s' rest,
    handleResponseError X W config fuel delivery err s
    = Some (tt, s', Issue (deferCommand delivery) :: rest)
    /\ Forall (fun e => isQuiet e = true) rest.
Proof.
  unfold handleResponseError, handleResponseErrorThen, defers, deferCommand. intros ->.
  unfold deferDelivery, sendCommand. simpl.
  destruct (ack W _); simpl.
  - eexists _, [_]. split; [reflexivity|]. repeat constructor.
  - exists s, []. split; [reflexivity | constructor].
Qed.

Lemma handleResponseError_reject fuel delivery err s :
  defers delivery err = false ->
  (7 <= fuel)%nat ->
  let bounce := bounces_check X (Error.response err) in
  let smtpResponse := formatSMTPResponse X (responseOrMessage err) in
  exists s' posts bounced rest,
    handleResponseError X W config fuel delivery err s
    = Some (tt, s', Issue (releaseCommand delivery) :: posts ++ bounced ++ rest)
    /\ Forall (fun e => isNotifier e = true) posts
    /\ Forall (fun e => isQuiet e = true) rest
    /\ bounced
       = (if Config.bounces_enabled config && bounceable delivery then
            match ack W (releaseCommand delivery) with
            | None => [Issue (bounceCommand delivery bounce smtpResponse)]
            | Some _ => []
            end
          else [])
    /\ (ack W (releaseCommand delivery) = None ->
        JS.truthy (Config.bounces_url config) = true ->
        exists tr,
          posts = Post (Config.bounces_url config)
                       (notification X delivery bounce smtpResponse) :: tr).
Proof.
  unfold handleResponseError, handleResponseErrorThen, defers, releaseCommand. intros -> Hfuel. simpl.
  unfold releaseDelivery, sendCommand. simpl.
  destruct (ack W _) eqn:Hack; simpl.
  - exists {| zone := zone s; closing := true; emptyChecks := emptyChecks s;
              dials := dials s |}, [], [], [EmitError t].
    repeat split; try constructor; try reflexivity; try constructor.
    + destruct (Config.bounces_enabled config && bounceable delivery); reflexivity.
    + discriminate.
  - destruct (JS.truthy (Config.bounces_url config)) eqn:Hurl.
    + destruct (notifyBounce_total fuel
                  (notification X delivery
                     (bounces_check X (Error.response err))
                     (formatSMTPResponse X (responseOrMessage err))) O s)
        as (tr & -> & HF); [lia | lia |].
      destruct (Config.bounces_enabled config); simpl.
      * destruct (sendBounceMessage_cases delivery
                    (bounces_check X (Error.response err))
                    (formatSMTPResponse X (responseOrMessage err)) s)
          as (s' & rest & -> & HR).
        exists s', (Post (Config.bounces_url config)
                     (notification X delivery
                        (bounces_check X (Error.response err))
                        (formatSMTPResponse X (responseOrMessage err))) :: tr).
        eexists _, rest. split; [reflexivity|].
        split; [constructor; [reflexivity | exact HF]|].
        split; [exact HR|]. split; [reflexivity|].
        intros _ _. eexists; reflexivity.
      * eexists s, _, [], []. split; [rewrite !app_nil_r; reflexivity|].
        split; [constructor; [reflexivity | exact HF]|].
        split; [constructor|]. split; [reflexivity|].
        intros _ _. eexists; reflexivity.
    + simpl. destruct (Config.bounces_enabled config); simpl.
      * destruct (sendBounceMessage_cases delivery
                    (bounces_check X (Error.response err))
                    (formatSMTPResponse X (responseOrMessage err)) s)
          as (s' & rest & -> & HR).
        exists s', []. eexists _, rest. split; [reflexivity|].
        split; [constructor|]. split; [exact HR|]. split; [reflexivity|].
        intros _ H; discriminate H.
      * exists s, [], [], []. split; [reflexivity|].
        split; [constructor|]. split; [constructor|]. split; [reflexivity|].
        intros _ H; discriminate H.
Qed.

(** What the caller does in the turn of the call comes right after the
    command and changes nothing else of the run. *)
Lemma handleResponseErrorThen_emit (e : Event) fuel delivery err s :
  handleResponseErrorThen X W config (emit e) fuel delivery err s
  = match handleResponseError X W config fuel delivery err s with
    | Some (u, s', c :: tr) => Some (u, s', c :: e :: tr)
    | other => other
    end.
Proof.
  unfold handleResponseError, handleResponseErrorThen, deferDelivery,
    releaseDelivery.
  destruct (negb _ || _); run.
  - destruct (ack W _); reflexivity.
  - destruct (ack W _); [reflexivity|].
    match goal with
    | |- context [bind ?m ?f s] => destruct (bind m f s) as [[[u s'] t]|]
    end; reflexivity.
Qed.

End Properties.

(** ** Strings: splitting an address at its last [@] *)

Fixpoint occurs (c : ascii) (s : string) : bool :=
  match s with
  | EmptyString => false
  | String a r => Ascii.eqb a c || occurs c r
  end.

Lemma lastIndexOf_from_absent (c : ascii) (s : string) :
  occurs c s = false -> forall i acc, JS.lastIndexOf_from c s i acc = acc.
Proof.
  induction s as [|a r IH]; simpl; intros H i acc.
  - reflexivity.
  - apply orb_false_iff in H. destruct H as [Ha Hr].
    rewrite Ha. apply IH. exact Hr.
Qed.

Lemma lastIndexOf_from_last (c : ascii) (l r : string) :
  occurs c r = false ->
  forall i acc,
    JS.lastIndexOf_from c (l +++ String c r) i acc
    = i + Z.of_nat (String.length l).
Proof.
  intros Hr. induction l as [|a l IH]; intros i acc.
  - cbn [String.append JS.lastIndexOf_from String.length].
    rewrite Ascii.eqb_refl, (lastIndexOf_from_absent c r Hr). simpl. lia.
  - cbn [String.append JS.lastIndexOf_from String.length].
    rewrite IH. lia.
Qed.

Lemma substring_prefix (a b : string) :
  substring 0 (String.length a) (a +++ b) = a.
Proof.
  induction a as [|c a IH]; simpl.
  - destruct b; reflexivity.
  - rewrite IH. reflexivity.
Qed.

Lemma substring_all (b : string) : substring 0 (String.length b) b = b.
Proof.
  induction b as [|c b IH]; simpl; [reflexivity | rewrite IH; reflexivity].
Qed.

Lemma substr_from_after (l : string) (c : ascii) (r : string) :
  JS.substr_from (l +++ String c r) (Z.of_nat (String.length l) + 1) = r.
Proof.
  unfold JS.substr_from.
  replace (Z.to_nat (Z.of_nat (String.length l) + 1)) with (S (String.length l)) by lia.
  induction l as [|a l IH]; simpl.
  - rewrite Nat.sub_0_r. apply substring_all.
  - exact IH.
Qed.

(** On [local@domain], where [domain] has no [@], the two [substr] calls of
    the SRS block cut out the domain, lowercased, and the local part. *)
Lemma address_split (l dom : string) :
  occurs "@" dom = false ->
  senderDomain (l +++ "@" +++ dom) = JS.toLowerCase dom
  /\ localPart (l +++ "@" +++ dom) = l.
Proof.
  intros Hdom.
  assert (Hidx : JS.lastIndexOf "@" (l +++ "@" +++ dom)
                 = Z.of_nat (String.length l)).
  { unfold JS.lastIndexOf. cbn [String.append].
    rewrite (lastIndexOf_from_last "@" l dom Hdom). lia. }
  unfold senderDomain, localPart. rewrite Hidx. split.
  - f_equal. apply substr_from_after.
  - unfold JS.substr. destruct (Z.of_nat (String.length l) <=? 0) eqn:E.
    + apply Z.leb_le in E. destruct l; simpl in E; [reflexivity | lia].
    + rewrite Nat2Z.id. apply substring_prefix.
Qed.

(** ** The header block along the pipeline *)

Lemma with_headers_id (d : Delivery.t) :
  Delivery.with_headers (Delivery.headers d) d = d.
Proof. destruct d; reflexivity. Qed.

Lemma get_app (k : string) (a b : Headers.t) :
  Headers.get k (a ++ b) = Headers.get k a ++ Headers.get k b.
Proof. unfold Headers.get. rewrite filter_app, map_app. reflexivity. Qed.

Lemma get_other (k : string) (sigs : Headers.t) (k' : string) :
  Forall (fun l => Headers.key l = k') sigs ->
  (k' =? Headers.normalizeHeader k)%string = false ->
  Headers.get k sigs = [].
Proof.
  intros HF Hk. unfold Headers.get.
  induction HF as [|l sigs Hl _ IH]; simpl; [reflexivity|].
  rewrite Hl, Hk. exact IH.
Qed.

Section HeaderBlock.

Variable X : Externals.
Variable config : Config.t.

Lemma signWith_fold (dkim : Delivery.Dkim) (keys : list Delivery.DkimKey) :
  forall d : Delivery.t,
  exists sigs,
    fold_left (signWith X dkim) keys d
    = Delivery.with_headers (sigs ++ Delivery.headers d) d
    /\ Forall (fun l => Headers.key l = "dkim-signature") sigs.
Proof.
  induction keys as [|k keys IH]; intros d; cbn [fold_left].
  - exists []. split; [symmetry; apply with_headers_id | constructor].
  - destruct (IH (signWith X dkim d k)) as (sigs & -> & HF).
    unfold signWith.
    destruct (dkimSign_sign X _ _ _ k) as [h|].
    2:{ exists sigs. split; [reflexivity | exact HF]. }
    destruct (JS.truthy h).
    2:{ exists sigs. split; [reflexivity | exact HF]. }
    exists (sigs ++ [{| Headers.key := "dkim-signature"; Headers.line := h |}]).
    split.
    + cbn [Headers.addFormatted Delivery.with_headers Delivery.headers].
      rewrite <- app_assoc. reflexivity.
    + apply Forall_app. split; [exact HF | repeat constructor].
Qed.

Lemma signMessage_shape (d : Delivery.t) :
  exists sigs,
    signMessage X d = Delivery.with_headers (sigs ++ Delivery.headers d) d
    /\ Forall (fun l => Headers.key l = "dkim-signature") sigs
    /\ (Delivery.dkim d = None -> sigs = []).
Proof.
  unfold signMessage. destruct (Delivery.dkim d) as [dkim|].
  - destruct (signWith_fold dkim (rev (Delivery.keys dkim)) d) as (sigs & E & HF).
    exists sigs. split; [exact E|]. split; [exact HF | discriminate].
  - exists []. split; [symmetry; apply with_headers_id|].
    split; [constructor | reflexivity].
Qed.

Definition receivedLine (d : Delivery.t) (hostname : string) : Headers.HeaderLine :=
  {| Headers.key := "received";
     Headers.line := generateReceivedHeader X d hostname |}.

Lemma addReceived_shape (d : Delivery.t) (hostname : string) :
  addReceived (generateReceivedHeader X d hostname) d
  = Delivery.with_headers (receivedLine d hostname :: Delivery.headers d) d.
Proof. reflexivity. Qed.

Lemma wireHeaders_shape (d : Delivery.t) (c : Connection) :
  exists sigs,
    wireHeaders X config d c
    = Delivery.with_headers
        (sigs ++ receivedLine d (Options.name (options c)) :: Delivery.headers d) d
    /\ Forall (fun l => Headers.key l = "dkim-signature") sigs
    /\ (Config.dkim_enabled config = false \/ Delivery.dkim d = None -> sigs = []).
Proof.
  unfold wireHeaders. rewrite addReceived_shape.
  destruct (Config.dkim_enabled config).
  - destruct (signMessage_shape
                (Delivery.with_headers
                   (receivedLine d (Options.name (options c)) :: Delivery.headers d) d))
      as (sigs & -> & HF & Hnone).
    exists sigs. split; [reflexivity|]. split; [exact HF|].
    intros [H|H]; [discriminate | apply Hnone; exact H].
  - exists []. split; [reflexivity|]. split; [constructor | reflexivity].
Qed.

(** The spam annotation goes to the bottom of the block and is no
    [Received] line. *)
Lemma addSpamStatus_received (d : Delivery.t) :
  Headers.get "Received" (Delivery.headers (addSpamStatus X d))
  = Headers.get "Received" (Delivery.headers d).
Proof.
  unfold addSpamStatus. destruct (Delivery.spam d) as [sp|]; [|reflexivity].
  destruct (Delivery.default sp); [|reflexivity].
  cbn [Delivery.with_headers Delivery.headers Headers_add Headers.addFormatted].
  rewrite get_app. cbn. apply app_nil_r.
Qed.

End HeaderBlock.

(** ** The dial loop *)

Definition isDial (e : Event) : bool :=
  match e with Dial _ => true | _ => false end.

Definition isDialing (e : Event) : bool :=
  match e with Dial _ | Login _ | Close => true | _ => false end.

Lemma dialing_not_issue (tr : list Event) :
  Forall (fun e => isDialing e = true) tr ->
  Forall (fun e => isIssue e = false) tr.
Proof.
  apply Forall_impl. intros e He. destruct e; simpl in *; congruence.
Qed.

Lemma skipn_nth {A} (d : A) (l : list A) :
  forall k, (k < List.length l)%nat -> skipn k l = nth k l d :: skipn (S k) l.
Proof.
  induction l as [|a l IH]; intros k Hk; simpl in Hk; [lia|].
  destruct k as [|k]; [reflexivity|].
  cbn [skipn nth]. apply IH. lia.
Qed.

(** The state after one more connection attempt. *)
Definition bump (s : State) : State :=
  {| zone := zone s; closing := closing s; emptyChecks := emptyChecks s;
     dials := S (dials s) |}.

(** The state after [this.zone.disableStarttls = true]. *)
Definition downgrade (s : State) : State :=
  {| zone := Zone.set_disableStarttls true (zone s); closing := closing s;
     emptyChecks := emptyChecks s; dials := dials s |}.

(** Modelled from the spec: the smtp-connection package, which
    [sender.js] only calls.  An ['ETLS'] error comes from a failed STARTTLS
    upgrade, which a connection opened with [ignoreTLS] never starts
    (specification, 4.2: STARTTLS is attempted only "if disableStarttls is
    false"; 8: "no STARTTLS command is sent" otherwise). *)
Definition starttlsOnly (W : World) : Prop :=
  forall n o err,
    connect W n o = Some err -> Options.ignoreTLS o = true ->
    Error.code err <> "ETLS".

Section Dialing.

Variable X : Externals.
Variable W : World.

(** The index and the options of the attempt that [tryConnectIP] makes. *)
Definition attemptIndex (ipTry : Z) (retryConnection : bool) : Z :=
  if retryConnection then ipTry else ipTry + 1.

Definition attemptIp (ipList : list string) (ipTry : Z) (retryConnection : bool)
  : string :=
  nth (Z.to_nat (attemptIndex ipTry retryConnection)) ipList "".

Definition attemptOptions (d : Delivery.t) (ex : Exchange.t)
           (ipList : list string) (ipTry : Z) (retryConnection : bool)
           (s : State) : Options.t :=
  let ip := attemptIp ipList ipTry retryConnection in
  dialOptions (zone s) ex ip
              (getAddress X (Delivery.id d +++ "." +++ Delivery.seq d)
                          (net_isIPv6 X ip)).

Lemma tryConnectIP_step fuel d exs k ex ips i retry s :
  tryConnectIP X W (S fuel) d exs k ex ips i retry s
  = if negb retry && (Z.of_nat (List.length ips) - 1 <=? i) then
      tryConnectMX X W fuel d exs k s
    else
      let o := attemptOptions d ex ips i retry s in
      match connect W (dials s) o with
      | Some err =>
          if (Error.code err =? "ETLS")%string then
            after [Dial o]
                  (tryConnectIP X W fuel d exs k ex ips (attemptIndex i retry)
                                true (downgrade (bump s)))
          else
            after [Dial o]
                  (tryConnectIP X W fuel d exs k ex ips (attemptIndex i retry)
                                false (bump s))
      | None =>
          match Zone.auth (zone s) with
          | Some credentials =>
              match login W (dials s) o with
              | Some err => Some (inl err, bump s, [Dial o; Login credentials; Close])
              | None =>
                  Some (inr {| options := o |}, bump s, [Dial o; Login credentials])
              end
          | None => Some (inr {| options := o |}, bump s, [Dial o])
          end
      end.
Proof.
  cbn [tryConnectIP].
  destruct (negb retry && (Z.of_nat (List.length ips) - 1 <=? i)); [reflexivity|].
  unfold attemptOptions, attemptIp, attemptIndex. run. cbn [dials zone].
  destruct (connect W (dials s) _) as [err|].
  - destruct (Error.code err =? "ETLS")%string; run.
    + unfold downgrade, bump. cbn [zone closing emptyChecks dials].
      destruct (tryConnectIP X W fuel d exs k ex ips _ true _) as [[[r s'] tr]|];
        reflexivity.
    + unfold bump.
      destruct (tryConnectIP X W fuel d exs k ex ips _ false _) as [[[r s'] tr]|];
        reflexivity.
  - destruct (Zone.auth (zone s)); run; [|reflexivity].
    destruct (login W (dials s) _); reflexivity.
Qed.

Definition ipCount (e : Exchange.t) : nat :=
  match resolveIp W (Exchange.exchange e) with
  | IpList l => List.length l
  | IpError _ => O
  end.

(** Calls of the two closures that the exchanges can still cost. *)
Fixpoint mxBudget (exs : list Exchange.t) : nat :=
  match exs with
  | [] => 1
  | e :: r => ipCount e + 2 + mxBudget r
  end.

Lemma mxBudget_cons (e : Exchange.t) (r : list Exchange.t) :
  mxBudget (e :: r) = (ipCount e + 2 + mxBudget r)%nat.
Proof. reflexivity. Qed.

(** One more call when a STARTTLS downgrade is still possible. *)
Definition tlsSlack (s : State) : nat :=
  if Zone.disableStarttls (zone s) then 0 else 1.

Definition ipBudget (exs : list Exchange.t) (k : nat) (ips : list string)
           (i : Z) (retry : bool) (s : State) : nat :=
  (if retry then 1 else 0) + Z.to_nat (Z.of_nat (List.length ips) - 1 - i) + 1
  + mxBudget (skipn k exs) + tlsSlack s.

(** Addresses that the exchanges resolve to. *)
Fixpoint ipTotal (exs : list Exchange.t) : nat :=
  match exs with
  | [] => 0
  | e :: r => ipCount e + ipTotal r
  end.

Lemma ipTotal_cons (e : Exchange.t) (r : list Exchange.t) :
  ipTotal (e :: r) = (ipCount e + ipTotal r)%nat.
Proof. reflexivity. Qed.

Definition dialsLeft (exs : list Exchange.t) (k : nat) (ips : list string)
           (i : Z) (retry : bool) (s : State) : nat :=
  (if retry then 1 else 0) + Z.to_nat (Z.of_nat (List.length ips) - 1 - i)
  + ipTotal (skipn k exs) + tlsSlack s.

(** The run [m] returns, having only dialled, and at most [n] times. *)
Definition connectsWithin (n : nat)
           (m : option ((Error.t + Connection) * State * list Event)) : Prop :=
  exists r s' tr,
    m = Some (r, s', tr)
    /\ Forall (fun e => isDialing e = true) tr
    /\ (count isDial tr <= n)%nat.

Definition connects (m : option ((Error.t + Connection) * State * list Event))
  : Prop :=
  exists r s' tr,
    m = Some (r, s', tr) /\ Forall (fun e => isDialing e = true) tr.

Lemma connectsWithin_connects n m : connectsWithin n m -> connects m.
Proof. intros (r & s' & tr & E & HF & _). exists r, s', tr. auto. Qed.

Lemma connectsWithin_after (o : Options.t) n n' m :
  connectsWithin n m -> (S n <= n')%nat -> connectsWithin n' (after [Dial o] m).
Proof.
  intros (r & s' & tr & -> & HF & Hn) Hle. exists r, s', (Dial o :: tr).
  split; [reflexivity|]. split; [constructor; [reflexivity | exact HF]|].
  change (Dial o :: tr) with ([Dial o] ++ tr). rewrite count_app.
  change (count isDial [Dial o]) with 1%nat. lia.
Qed.

Lemma connectsWithin_le n n' m :
  connectsWithin n m -> (n <= n')%nat -> connectsWithin n' m.
Proof.
  intros (r & s' & tr & E & HF & Hn) Hle. exists r, s', tr.
  split; [exact E|]. split; [exact HF | lia].
Qed.

(** Under [starttlsOnly] the two closures return when given fuel for
    the calls that are left, and they dial each address once, plus once
    more for the one STARTTLS downgrade that can happen. *)
Lemma tryConnect_total (d : Delivery.t) (exs : list Exchange.t) :
  starttlsOnly W ->
  forall fuel,
    (forall k s,
        (mxBudget (skipn k exs) + tlsSlack s <= fuel)%nat ->
        connectsWithin (ipTotal (skipn k exs) + tlsSlack s)
                       (tryConnectMX X W fuel d exs k s))
    /\ (forall k ex ips i retry s,
           -1 <= i ->
           (retry = true -> Zone.disableStarttls (zone s) = true) ->
           (ipBudget exs k ips i retry s <= fuel)%nat ->
           connectsWithin (dialsLeft exs k ips i retry s)
                          (tryConnectIP X W fuel d exs k ex ips i retry s)).
Proof.
  intros Htls.
  assert (Hpos : forall l, (1 <= mxBudget l)%nat)
    by (intros [|e l]; simpl; lia).
  induction fuel as [|fuel [IHmx IHip]].
  { split.
    - intros k s Hb. specialize (Hpos (skipn k exs)). lia.
    - intros k ex ips i retry s _ _ Hb. unfold ipBudget in Hb. lia. }
  split.
  - intros k s Hb. cbn [tryConnectMX].
    destruct (List.length exs <=? k)%nat eqn:E.
    { eexists _, s, []. split; [reflexivity|]. split; [constructor|].
      cbv [count filter List.length]. lia. }
    apply Nat.leb_gt in E.
    rewrite (skipn_nth noExchange exs k E), mxBudget_cons in Hb.
    rewrite (skipn_nth noExchange exs k E), ipTotal_cons.
    unfold ipCount in *.
    destruct (resolveIp W (Exchange.exchange (nth k exs noExchange)))
      as [err|[|ip ips]].
    + eapply connectsWithin_le; [apply IHmx|]; lia.
    + cbn [List.length] in *.
      eapply connectsWithin_le; [apply IHmx|]; lia.
    + eapply connectsWithin_le.
      * apply IHip; [lia | discriminate |].
        unfold ipBudget. cbn [List.length] in *. lia.
      * unfold dialsLeft. cbn [List.length] in *. lia.
  - intros k ex ips i retry s Hi Hretry Hb. rewrite tryConnectIP_step.
    destruct (negb retry && (Z.of_nat (List.length ips) - 1 <=? i)) eqn:E.
    { eapply connectsWithin_le.
      - apply IHmx. unfold ipBudget in Hb. lia.
      - unfold dialsLeft. lia. }
    assert (Hleft : retry = true \/ i < Z.of_nat (List.length ips) - 1).
    { destruct retry; [left; reflexivity | right].
      cbn [negb andb] in E. apply Z.leb_gt in E. exact E. }
    cbv zeta.
    destruct (connect W (dials s) (attemptOptions d ex ips i retry s))
      as [err|] eqn:Hc.
    + destruct (Error.code err =? "ETLS")%string eqn:Hcode.
      * apply String.eqb_eq in Hcode.
        destruct (Zone.disableStarttls (zone s)) eqn:F.
        { exfalso. apply (Htls _ _ _ Hc); [exact F | exact Hcode]. }
        destruct retry; [specialize (Hretry eq_refl); discriminate|].
        destruct Hleft as [Hleft|Hleft]; [discriminate Hleft|].
        eapply connectsWithin_after.
        -- apply IHip.
           ++ unfold attemptIndex. lia.
           ++ reflexivity.
           ++ unfold ipBudget, tlsSlack, attemptIndex in *.
              cbn [downgrade bump zone Zone.set_disableStarttls
                   Zone.disableStarttls].
              rewrite F in Hb. lia.
        -- unfold dialsLeft, tlsSlack, attemptIndex.
           cbn [downgrade bump zone Zone.set_disableStarttls
                Zone.disableStarttls].
           rewrite F. lia.
      * eapply connectsWithin_after.
        -- apply IHip.
           ++ unfold attemptIndex. destruct retry; lia.
           ++ discriminate.
           ++ unfold ipBudget, tlsSlack, attemptIndex in *. cbn [bump zone].
              destruct Hleft as [->|Hleft]; [lia|].
              destruct retry; lia.
        -- unfold dialsLeft, tlsSlack, attemptIndex. cbn [bump zone].
           destruct Hleft as [->|Hleft]; [lia|].
           destruct retry; lia.
    + assert (Hone : (1 <= dialsLeft exs k ips i retry s)%nat).
      { unfold dialsLeft. destruct Hleft as [->|Hleft]; lia. }
      destruct (Zone.auth (zone s)) as [cr|].
      * destruct (login W (dials s) _).
        -- eexists _, _, _. split; [reflexivity|].
           split; [repeat constructor | exact Hone].
        -- eexists _, _, _. split; [reflexivity|].
           split; [repeat constructor | exact Hone].
      * eexists _, _, _. split; [reflexivity|].
        split; [repeat constructor | exact Hone].
Qed.

(** The answer of the local [resolveMx] of [getConnection]. *)
Definition resolved (s : State) (d : Delivery.t) : MxResult :=
  if JS.truthy (Zone.host (zone s))
  then MxList [{| Exchange.exchange := Zone.host (zone s);
                  Exchange.priority := 0 |}]
  else resolveMx W (Delivery.domain d).

Lemma getConnection_unfold fuel d s :
  getConnection X W fuel d s
  = match resolved s d with
    | MxError err => Some (inl err, s, [])
    | MxNone =>
        Some (inl {| Error.message :=
                       "Can't find an MX server for " +++ Delivery.domain d;
                     Error.response :=
                       Some ("450 Can't find an MX server for "
                               +++ Delivery.domain d);
                     Error.code := "" |}, s, [])
    | MxList exs => tryConnectMX X W fuel d exs 0 s
    end.
Proof.
  unfold getConnection, resolved. run.
  destruct (if JS.truthy (Zone.host (zone s)) then _ else _); try reflexivity.
  destruct (tryConnectMX X W fuel d exchanges 0 s) as [[[r s'] tr]|]; reflexivity.
Qed.

(** Fuel that lets [getConnection] return, whatever the peers answer. *)
Definition dialFuel (s : State) (d : Delivery.t) : nat :=
  match resolved s d with
  | MxList exs => mxBudget exs + 1
  | _ => O
  end.

Lemma getConnection_total fuel d s :
  starttlsOnly W ->
  (dialFuel s d <= fuel)%nat ->
  connects (getConnection X W fuel d s).
Proof.
  intros Htls Hfuel. rewrite getConnection_unfold. unfold dialFuel in Hfuel.
  destruct (resolved s d) as [err| |exs].
  - eexists _, s, []. split; [reflexivity | constructor].
  - eexists _, s, []. split; [reflexivity | constructor].
  - destruct (tryConnect_total d exs Htls fuel) as [Hmx _].
    eapply connectsWithin_connects. apply Hmx. cbn [skipn]. unfold tlsSlack.
    destruct (Zone.disableStarttls (zone s)); lia.
Qed.

End Dialing.

(** ** One delivery, from the connection result to the queue command *)

Section Pipeline.

Variable X : Externals.
Variable W : World.
Variable config : Config.t.

(** The envelope that [sendNext] hands to [connection.send]. *)
Definition sentEnvelope (d : Delivery.t) (c : Connection) : Envelope.t :=
  let wired := wireHeaders X config d c in
  {| Envelope.from := srsEnvelopeFrom X config (Delivery.from wired);
     Envelope.to := Delivery.to wired;
     Envelope.size :=
       Z.of_nat (String.length
                   (generateReceivedHeader X d (Options.name (options c))))
       + Z.of_nat (String.length (build X (Delivery.headers wired)))
       + Delivery.bodySize wired |}.

(** The delivery as it is when its queue command is issued. *)
Definition settled (d : Delivery.t) (r : Error.t + Connection) : Delivery.t :=
  match r with
  | inl _ => addReceived (generateReceivedHeader X d (os_hostname X)) d
  | inr c => wireHeaders X config d c
  end.

(** The error that reaches [handleResponseError], if any. *)
Definition failure (d : Delivery.t) (r : Error.t + Connection) : option Error.t :=
  match r with
  | inl err => Some err
  | inr c => send W (sentEnvelope d c)
  end.

(** What [sendNext] does on the connection before the queue command. *)
Definition prelude (d : Delivery.t) (r : Error.t + Connection) : list Event :=
  match r with
  | inl _ => []
  | inr c =>
      [Send (sentEnvelope d c)
            (build X (Delivery.headers (wireHeaders X config d c)))
            (bodyUrl config (wireHeaders X config d c));
       Close]
  end.

(** The command that settles the lock. *)
Definition verdict (d : Delivery.t) (r : Error.t + Connection) : Command :=
  match failure d r with
  | None => releaseCommand (settled d r)
  | Some err =>
      if defers X (settled d r) err
      then deferCommand (settled d r)
      else releaseCommand (settled d r)
  end.

(** The internal bounce, when one is requested. *)
Definition bounceOf (d : Delivery.t) (r : Error.t + Connection) : list Event :=
  match failure d r with
  | None => []
  | Some err =>
      if defers X (settled d r) err then []
      else if Config.bounces_enabled config && bounceable (settled d r) then
        match ack W (releaseCommand (settled d r)) with
        | None =>
            [Issue (bounceCommand X (settled d r)
                      (bounces_check X (Error.response err))
                      (formatSMTPResponse X (responseOrMessage err)))]
        | Some _ => []
        end
      else []
  end.

(** Whether the webhook is notified. *)
Definition notifies (d : Delivery.t) (r : Error.t + Connection) : Prop :=
  exists err,
    failure d r = Some err /\ defers X (settled d r) err = false
    /\ ack W (releaseCommand (settled d r)) = None
    /\ JS.truthy (Config.bounces_url config) = true.

Lemma failed_shape fuel d' err s :
  (7 <= fuel)%nat ->
  exists s' posts tail,
    handleResponseErrorThen X W config (emit SetImmediateSendNext) fuel d' err s
    = Some (tt, s',
            Issue (if defers X d' err then deferCommand d' else releaseCommand d')
            :: SetImmediateSendNext
            :: posts
            ++ (if defers X d' err then []
                else if Config.bounces_enabled config && bounceable d' then
                  match ack W (releaseCommand d') with
                  | None =>
                      [Issue (bounceCommand X d'
                                (bounces_check X (Error.response err))
                                (formatSMTPResponse X (responseOrMessage err)))]
                  | Some _ => []
                  end
                else [])
            ++ tail)
    /\ Forall (fun e => isNotifier e = true) posts
    /\ Forall (fun e => isQuiet e = true) tail
    /\ (defers X d' err = false -> ack W (releaseCommand d') = None ->
        JS.truthy (Config.bounces_url config) = true ->
        exists tr,
          posts = Post (Config.bounces_url config)
                       (notification X d' (bounces_check X (Error.response err))
                          (formatSMTPResponse X (responseOrMessage err))) :: tr).
Proof.
  intros Hfuel. rewrite handleResponseErrorThen_emit.
  destruct (defers X d' err) eqn:Hd.
  - destruct (handleResponseError_defer X W config fuel d' err s Hd)
      as (s' & rest & E & HR).
    rewrite E. exists s', [], rest.
    split; [reflexivity|]. split; [constructor|]. split; [exact HR|].
    discriminate.
  - destruct (handleResponseError_reject X W config fuel d' err s Hd Hfuel)
      as (s' & posts & bounced & rest & E & HP & HR & HB & HN).
    rewrite E. exists s', posts, rest.
    split; [rewrite HB; reflexivity|].
    split; [exact HP|]. split; [exact HR|].
    intros _. exact HN.
Qed.

Lemma onConnection_shape fuel d r s :
  (7 <= fuel)%nat ->
  exists s' posts tail,
    onConnection X W config fuel d r s
    = Some (tt, s',
            prelude d r ++ Issue (verdict d r) :: SetImmediateSendNext
              :: posts ++ bounceOf d r ++ tail)
    /\ Forall (fun e => isNotifier e = true) posts
    /\ Forall (fun e => isQuiet e = true) tail
    /\ (notifies d r ->
        exists body tr, posts = Post (Config.bounces_url config) body :: tr).
Proof.
  intros Hfuel. destruct r as [err|c].
  - unfold onConnection, prelude, verdict, bounceOf, failure.
    cbn [settled app].
    destruct (failed_shape fuel
                (addReceived (generateReceivedHeader X d (os_hostname X)) d)
                err s Hfuel) as (s' & posts & tail & E & HP & HT & HN).
    exists s', posts, tail. split; [exact E|]. split; [exact HP|].
    split; [exact HT|].
    intros (err' & Hf & Hd & Ha & Hu). injection Hf as <-.
    destruct (HN Hd Ha Hu) as (tr & ->). eexists _, tr. reflexivity.
  - unfold onConnection, prelude, verdict, bounceOf, notifies, failure.
    cbn [settled]. fold (sentEnvelope d c). run.
    destruct (send W (sentEnvelope d c)) as [err|] eqn:Hsend.
    + destruct (failed_shape fuel (wireHeaders X config d c) err s Hfuel)
        as (s' & posts & tail & E & HP & HT & HN).
      rewrite E.
      exists s', posts, tail. split; [reflexivity|]. split; [exact HP|].
      split; [exact HT|].
      intros (err' & Hf & Hd & Ha & Hu). injection Hf as <-.
      destruct (HN Hd Ha Hu) as (tr & ->). eexists _, tr. reflexivity.
    + unfold releaseDelivery. run. fold (releaseCommand (wireHeaders X config d c)).
      destruct (ack W (releaseCommand (wireHeaders X config d c))) as [e|]; run.
      * eexists _, [], [_]. split; [reflexivity|]. split; [constructor|].
        split; [repeat constructor|].
        intros (err' & Hf & _). discriminate Hf.
      * eexists _, [], []. split; [reflexivity|]. split; [constructor|].
        split; [repeat constructor|].
        intros (err' & Hf & _). discriminate Hf.
Qed.

End Pipeline.

(** ** Deferral *)

Lemma notifier_not_defer (tr : list Event) :
  Forall (fun e => isNotifier e = true) tr ->
  Forall (fun e => isDefer e = false) tr.
Proof.
  apply Forall_impl. intros e He. destruct e; simpl in *; congruence.
Qed.

Section Deferral.

Variable X : Externals.
Variable W : World.
Variable config : Config.t.

(** Whatever the fuel, a run of the notifier only posts and sets timers. *)
Lemma notifyBounce_events (fuel : nat) :
  forall body retries s u s' tr,
    notifyBounce W config fuel body retries s = Some (u, s', tr) ->
    Forall (fun e => isNotifier e = true) tr.
Proof.
  induction fuel as [|fuel IH]; intros body retries s u s' tr H.
  - discriminate H.
  - cbn [notifyBounce] in H. run_in H.
    destruct (webhook_fails W retries).
    + destruct (retries <=? 5)%nat; run_in H.
      * destruct (notifyBounce W config fuel body (S retries) s)
          as [[[u1 s1] t1]|] eqn:E; [|discriminate H].
        injection H as _ _ <-. apply IH in E.
        constructor; [reflexivity|]. constructor; [reflexivity | exact E].
      * injection H as _ _ <-. repeat constructor.
    + injection H as _ _ <-. repeat constructor.
Qed.

(** In its second branch [handleResponseError] starts with the release
    and issues no deferral. *)
Lemma handleResponseError_release_first fuel d err s u s' tr :
  defers X d err = false ->
  handleResponseError X W config fuel d err s = Some (u, s', tr) ->
  exists rest,
    tr = Issue (releaseCommand d) :: rest
    /\ Forall (fun e => isDefer e = false) rest.
Proof.
  unfold handleResponseError, handleResponseErrorThen, defers, releaseCommand. intros -> H.
  unfold releaseDelivery in H. run_in H.
  destruct (ack W _); run_in H.
  { injection H as _ _ <-. eexists. split; [reflexivity | repeat constructor]. }
  destruct (if JS.truthy (Config.bounces_url config) then _ else _)
    as [[[u1 s1] t1]|] eqn:E1; [|discriminate H].
  assert (H1 : Forall (fun e => isDefer e = false) t1).
  { destruct (JS.truthy (Config.bounces_url config)).
    - apply notifier_not_defer. eapply notifyBounce_events. exact E1.
    - injection E1 as _ _ <-. constructor. }
  destruct (Config.bounces_enabled config).
  - destruct (sendBounceMessage_cases X W d
                (bounces_check X (Error.response err))
                (formatSMTPResponse X (responseOrMessage err)) s1)
      as (s2 & rest & E2 & HR).
    rewrite E2 in H. injection H as _ _ <-.
    eexists. split; [reflexivity|].
    apply Forall_app. split; [exact H1|].
    apply Forall_app. split.
    + destruct (bounceable d); repeat constructor.
    + revert HR. apply Forall_impl. intros e He.
      destruct e; simpl in *; congruence.
  - run_in H. injection H as _ _ <-.
    eexists. split; [reflexivity|]. rewrite app_nil_r. exact H1.
Qed.

Lemma deferTtl_capped (n : nat) :
  (4 <= n)%nat -> deferTtl n = 1024 * 60 * 1000.
Proof.
  intros Hn. unfold deferTtl. rewrite Z.min_r; [reflexivity|].
  transitivity (5 ^ 5); [vm_compute; discriminate|].
  apply Z.pow_le_mono_r; lia.
Qed.

Lemma deferTtl_monotone (m n : nat) :
  (m <= n)%nat -> deferTtl m <= deferTtl n.
Proof.
  intros Hmn. unfold deferTtl.
  assert (5 ^ (Z.of_nat m + 1) <= 5 ^ (Z.of_nat n + 1))
    by (apply Z.pow_le_mono_r; lia).
  lia.
Qed.

(** C3. Every [DEFER] that [handleResponseError] issues carries the TTL
    [min(5^(n+1), 1024) * 60 * 1000] milliseconds, where [n] is the
    number of prior deferrals of the delivery: the [count] of its
    [_deferred] field, and 0 when the field is absent.  This TTL does not
    decrease when the number of prior deferrals grows, and it is
    [1024 * 60] seconds from five prior deferrals on. *)
Theorem defer_ttl_law fuel d err s u s' tr i q l ttl (m n : nat) :
  handleResponseError X W config fuel d err s = Some (u, s', tr) ->
  In (Issue (DEFER i q l ttl)) tr ->
  (m <= n)%nat ->
  let prior :=
    match Delivery._deferred d with
    | Some c => Delivery.count c
    | None => O
    end in
  ttl = Z.min (5 ^ (Z.of_nat prior + 1)) 1024 * 60 * 1000
  /\ ttl = deferTtl prior
  /\ deferTtl m <= deferTtl n
  /\ ((5 <= n)%nat -> deferTtl n = 1024 * 60 * 1000)
  /\ ((5 <= prior)%nat -> ttl = 1024 * 60 * 1000).
Proof.
  intros Hrun Hin Hmn prior.
  assert (Httl : ttl = deferTtl prior).
  { destruct (defers X d err) eqn:Hd.
    + destruct (handleResponseError_defer X W config fuel d err s Hd)
        as (s1 & rest & E & HR).
      rewrite E in Hrun. injection Hrun as _ _ <-.
      destruct Hin as [Hin|Hin].
      * unfold deferCommand in Hin. injection Hin as _ _ _ <-. reflexivity.
      * exfalso. revert Hin. apply Forall_not_In with (p := isIssue).
        -- apply quiet_not_issue. exact HR.
        -- reflexivity.
    + destruct (handleResponseError_release_first fuel d err s u s' tr Hd Hrun)
        as (rest & -> & HR).
      destruct Hin as [Hin|Hin]; [discriminate Hin|].
      exfalso. revert Hin. apply Forall_not_In with (p := isDefer).
      * exact HR.
      * reflexivity. }
  split; [exact Httl|]. split; [exact Httl|]. split; [|split].
  - apply deferTtl_monotone. exact Hmn.
  - intros H5. apply deferTtl_capped. lia.
  - intros H5. rewrite Httl. apply deferTtl_capped. lia.
Qed.

(** C2, evaluated on the code. A delivery whose [_deferred.count] is
    greater than 6 is deferred again, whatever the classifier says of the
    reply, a reject included: [handleResponseError] issues [DEFER] with
    the delivery's lock and the capped TTL of [1024 * 60] seconds, and
    neither [RELEASE] nor [BOUNCE].  The guard
    [action !== 'reject' || deferredCount > 6] takes the deferral branch
    from the seventh deferral on, where the claim expects the release. *)
Theorem chronic_deferral_defers fuel d err s c :
  Delivery._deferred d = Some c ->
  (6 < Delivery.count c)%nat ->
  exists s' rest,
    handleResponseError X W config fuel d err s
    = Some (tt, s',
            Issue (DEFER (Delivery.id d) (Delivery.seq d) (Delivery._lock d)
                         (1024 * 60 * 1000)) :: rest)
    /\ Forall (fun e => isIssue e = false) rest.
Proof.
  intros Hc H6.
  assert (Hn : deferredCount d = Delivery.count c)
    by (unfold deferredCount; rewrite Hc; reflexivity).
  assert (Hd : defers X d err = true).
  { unfold defers. rewrite Hn. apply Nat.ltb_lt in H6. rewrite H6.
    apply orb_true_r. }
  destruct (handleResponseError_defer X W config fuel d err s Hd)
    as (s' & rest & E & HR).
  exists s', rest. split; [|apply quiet_not_issue; exact HR].
  rewrite E. unfold deferCommand. rewrite deferTtl_capped by lia. reflexivity.
Qed.

(** C10. For a delivery whose envelope sender is empty,
    [sendBounceMessage] returns without issuing any command, whatever the
    hop count; and no run of [handleResponseError] on it issues a
    [BOUNCE], also with internal bounces enabled and a reply classified
    as a reject. *)
Theorem no_bounce_without_sender fuel d err bounce smtpResponse s :
  Delivery.from d = "" ->
  (7 <= fuel)%nat ->
  sendBounceMessage X W d bounce smtpResponse s = Some (tt, s, [])
  /\ exists s' tr,
      handleResponseError X W config fuel d err s = Some (tt, s', tr)
      /\ count isBounce tr = O.
Proof.
  intros Hfrom Hfuel. split.
  - unfold sendBounceMessage. rewrite Hfrom. reflexivity.
  - destruct (defers X d err) eqn:Hd.
    + destruct (handleResponseError_defer X W config fuel d err s Hd)
        as (s' & rest & E & HR).
      exists s', (Issue (deferCommand d) :: rest). split; [exact E|].
      change (Issue (deferCommand d) :: rest)
        with ([Issue (deferCommand d)] ++ rest).
      rewrite count_app, (count_zero_Forall isBounce rest); [reflexivity|].
      apply (issue_free isBounce); [exact isBounce_issue|].
      apply quiet_not_issue. exact HR.
    + destruct (handleResponseError_reject X W config fuel d err s Hd Hfuel)
        as (s' & posts & bounced & rest & E & HP & HR & HB & _).
      exists s', (Issue (releaseCommand d) :: posts ++ bounced ++ rest).
      split; [exact E|].
      assert (Hb : bounced = []).
      { rewrite HB. unfold bounceable. rewrite Hfrom.
        rewrite andb_false_r. reflexivity. }
      rewrite Hb.
      change (Issue (releaseCommand d) :: posts ++ [] ++ rest)
        with ([Issue (releaseCommand d)] ++ posts ++ [] ++ rest).
      rewrite !count_app.
      rewrite (count_zero_Forall isBounce posts), (count_zero_Forall isBounce rest).
      * reflexivity.
      * apply (issue_free isBounce); [exact isBounce_issue|].
        apply quiet_not_issue. exact HR.
      * apply (issue_free isBounce); [exact isBounce_issue|].
        apply notifier_not_issue. exact HP.
Qed.

End Deferral.

(** ** The bounce webhook *)

(** The world [W], except that every POST to the webhook fails. *)
Definition failingWebhook (W : World) : World :=
  {| get_reply := get_reply W; ack := ack W; resolveMx := resolveMx W;
     resolveIp := resolveIp W; connect := connect W; login := login W;
     send := send W; webhook_fails := fun _ => true |}.

(** C9, evaluated on the code. When every POST fails, the notifier posts
    seven times: the first attempt and six retries, set [1, 4, 9, 16, 25]
    and [36] seconds after the failures; the queue sees nothing of it and
    the worker state is unchanged.  The test [retries++ <= 5] lets the
    sixth retry through. *)
Theorem notifyBounce_six_retries (W : World) (config : Config.t)
        (body : Notification.t) (s : State) (k : nat) :
  let post := Post (Config.bounces_url config) body in
  let run := notifyBounce (failingWebhook W) config (7 + k) body 0 s in
  run
  = Some (tt, s,
          [post; SetTimeout 1000; post; SetTimeout 4000; post; SetTimeout 9000;
           post; SetTimeout 16000; post; SetTimeout 25000; post;
           SetTimeout 36000; post])
  /\ match run with
     | Some (_, _, tr) => count isPost tr = 7%nat /\ count isIssue tr = 0%nat
     | None => False
     end.
Proof. split; [reflexivity | split; reflexivity]. Qed.

(** ** The message on the wire *)

Lemma existsb_eqb_In (x : string) (l : list string) :
  existsb (String.eqb x) l = true <-> In x l.
Proof.
  rewrite existsb_exists. split.
  - intros (y & Hy & E). apply String.eqb_eq in E. subst y. exact Hy.
  - intros H. exists x. split; [exact H | apply String.eqb_refl].
Qed.

Lemma truthy_nonempty (s : string) : JS.truthy s = true <-> s <> "".
Proof.
  unfold JS.truthy. rewrite negb_true_iff. apply String.eqb_neq.
Qed.

Lemma in_shape (e v : Event) (pre posts b tail : list Event) :
  In e (pre ++ v :: SetImmediateSendNext :: posts ++ b ++ tail) ->
  In e pre \/ e = v \/ In e posts \/ In e b
  \/ In e (SetImmediateSendNext :: tail).
Proof.
  intros H. apply in_app_or in H. destruct H as [H|[H|[H|H]]]; auto.
  - right. right. right. right. left. exact H.
  - apply in_app_or in H. destruct H as [H|H]; auto.
    apply in_app_or in H. destruct H as [H|H]; auto.
    right. right. right. right. right. exact H.
Qed.

Lemma quiet_scheduled (tail : list Event) :
  Forall (fun e => isQuiet e = true) tail ->
  Forall (fun e => isQuiet e = true) (SetImmediateSendNext :: tail).
Proof. intros H. constructor; [reflexivity | exact H]. Qed.

Lemma notifier_not_send (tr : list Event) :
  Forall (fun e => isNotifier e = true) tr ->
  Forall (fun e => isSend e = false) tr.
Proof.
  apply Forall_impl. intros e He. destruct e; simpl in *; congruence.
Qed.

Lemma quiet_not_send (tr : list Event) :
  Forall (fun e => isQuiet e = true) tr ->
  Forall (fun e => isSend e = false) tr.
Proof.
  apply Forall_impl. intros e He. destruct e; simpl in *; congruence.
Qed.

Section Wire.

Variable X : Externals.
Variable W : World.
Variable config : Config.t.

Lemma bounceOf_bounces d r :
  Forall (fun e => isBounce e = true) (bounceOf X W config d r).
Proof.
  unfold bounceOf. destruct (failure X W config d r) as [err|]; [|constructor].
  destruct (defers X _ err); [constructor|].
  destruct (Config.bounces_enabled config && bounceable _); [|constructor].
  destruct (ack W _); repeat constructor.
Qed.

Lemma bounce_not_send (tr : list Event) :
  Forall (fun e => isBounce e = true) tr ->
  Forall (fun e => isSend e = false) tr.
Proof.
  apply Forall_impl. intros e He. destruct e; simpl in *; congruence.
Qed.

(** On an established connection the trace starts with the one call of
    [connection.send]. *)
Lemma onConnection_sends fuel d c s :
  (7 <= fuel)%nat ->
  exists s' rest,
    onConnection X W config fuel d (inr c) s
    = Some (tt, s',
            Send (sentEnvelope X config d c)
                 (build X (Delivery.headers (wireHeaders X config d c)))
                 (bodyUrl config (wireHeaders X config d c)) :: rest)
    /\ Forall (fun e => isSend e = false) rest.
Proof.
  intros Hfuel.
  destruct (onConnection_shape X W config fuel d (inr c) s Hfuel)
    as (s' & posts & tail & E & HP & HT & _).
  cbn [prelude app] in E. eexists s', _. split; [exact E|].
  constructor; [reflexivity|]. constructor; [reflexivity|].
  constructor; [reflexivity|].
  apply Forall_app. split; [apply notifier_not_send; exact HP|].
  apply Forall_app. split.
  - apply bounce_not_send. apply bounceOf_bounces.
  - apply quiet_not_send. exact HT.
Qed.

(** C5. On every established connection, the [size] given to
    [connection.send] is the byte length of the prepended [Received]
    header, plus the byte length of the built header block (which holds
    that header), plus the [bodySize] of the delivery; and
    [connection.send] is called once. *)
Theorem size_advertised fuel d c s :
  (7 <= fuel)%nat ->
  let received := generateReceivedHeader X d (Options.name (options c)) in
  let block := Delivery.headers (wireHeaders X config d c) in
  exists s' envelope url rest,
    onConnection X W config fuel d (inr c) s
    = Some (tt, s', Send envelope (build X block) url :: rest)
    /\ Envelope.size envelope
       = Z.of_nat (String.length received)
         + Z.of_nat (String.length (build X block))
         + Delivery.bodySize d
    /\ In {| Headers.key := "received"; Headers.line := received |} block
    /\ Forall (fun e => isSend e = false) rest.
Proof.
  intros Hfuel received block.
  destruct (onConnection_sends fuel d c s Hfuel) as (s' & rest & E & HR).
  exists s', (sentEnvelope X config d c),
    (bodyUrl config (wireHeaders X config d c)), rest.
  split; [exact E|]. split; [|split; [|exact HR]].
  - unfold sentEnvelope. cbn [Envelope.size]. fold received. fold block.
    f_equal.
    destruct (wireHeaders_shape X config d c) as (sigs & -> & _). reflexivity.
  - unfold block.
    destruct (wireHeaders_shape X config d c) as (sigs & -> & _).
    cbn [Delivery.with_headers Delivery.headers].
    apply in_or_app. right. left. reflexivity.
Qed.

(** C8. With SRS enabled and a non-empty envelope sender, the sender
    given to [connection.send] is the envelope sender itself when its
    domain is listed in [srs.excludeDomains], and otherwise
    [srsRewriter.rewrite(localpart, domain) + '@' + srs.rewriteDomain];
    the domain is the text after the last [@], lowercased, and the local
    part the text before it.  The header block that is sent is built
    without regard to SRS, and its [From:] lines are those of the
    delivery. *)
Theorem srs_envelope_from fuel d c s :
  (7 <= fuel)%nat ->
  Config.srs_enabled config = true ->
  Delivery.from d <> "" ->
  let from := Delivery.from d in
  let block := Delivery.headers (wireHeaders X config d c) in
  exists s' envelope url rest,
    onConnection X W config fuel d (inr c) s
    = Some (tt, s', Send envelope (build X block) url :: rest)
    /\ (In (senderDomain from) (Config.srs_excludeDomains config) ->
        Envelope.from envelope = from)
    /\ (~ In (senderDomain from) (Config.srs_excludeDomains config) ->
        Envelope.from envelope
        = srsRewriter_rewrite X (localPart from) (senderDomain from)
          +++ "@" +++ Config.srs_rewriteDomain config)
    /\ (forall l dom,
           from = l +++ "@" +++ dom -> occurs "@" dom = false ->
           senderDomain from = JS.toLowerCase dom /\ localPart from = l)
    /\ Headers.get "From" block = Headers.get "From" (Delivery.headers d).
Proof.
  intros Hfuel Hsrs Hfrom from block.
  destruct (onConnection_sends fuel d c s Hfuel) as (s' & rest & E & HR).
  exists s', (sentEnvelope X config d c),
    (bodyUrl config (wireHeaders X config d c)), rest.
  split; [exact E|].
  assert (Hwire : Delivery.from (wireHeaders X config d c) = from)
    by (destruct (wireHeaders_shape X config d c) as (sigs & -> & _);
        reflexivity).
  assert (Htruthy : JS.truthy from = true) by (apply truthy_nonempty; exact Hfrom).
  unfold sentEnvelope. cbn [Envelope.from]. rewrite Hwire.
  unfold srsEnvelopeFrom. rewrite Hsrs, Htruthy. cbn [andb].
  split; [|split; [|split]].
  - intros Hin. apply existsb_eqb_In in Hin. rewrite Hin. reflexivity.
  - intros Hout.
    destruct (existsb _ _) eqn:Ex; [|reflexivity].
    apply existsb_eqb_In in Ex. contradiction.
  - intros l dom -> Hdom. apply address_split. exact Hdom.
  - unfold block.
    destruct (wireHeaders_shape X config d c) as (sigs & -> & HS & _).
    cbn [Delivery.with_headers Delivery.headers].
    rewrite get_app, (get_other "From" sigs "dkim-signature" HS eq_refl).
    reflexivity.
Qed.

End Wire.

(** ** Received headers, hop count and the queue commands *)

Lemma notifier_not_bounce (tr : list Event) :
  Forall (fun e => isNotifier e = true) tr ->
  Forall (fun e => isBounce e = false) tr.
Proof.
  apply Forall_impl. intros e He. destruct e; simpl in *; congruence.
Qed.

Lemma quiet_not_bounce (tr : list Event) :
  Forall (fun e => isQuiet e = true) tr ->
  Forall (fun e => isBounce e = false) tr.
Proof.
  apply Forall_impl. intros e He. destruct e; simpl in *; congruence.
Qed.

Section Settling.

Variable X : Externals.
Variable W : World.
Variable config : Config.t.

(** The name that the worker's [Received] header records. *)
Definition heloName (r : Error.t + Connection) : string :=
  match r with
  | inl _ => os_hostname X
  | inr c => Options.name (options c)
  end.

Lemma settled_shape d r :
  exists sigs,
    settled X config d r
    = Delivery.with_headers
        (sigs ++ receivedLine X d (heloName r) :: Delivery.headers d) d
    /\ Forall (fun l => Headers.key l = "dkim-signature") sigs
    /\ (Config.dkim_enabled config = false \/ Delivery.dkim d = None
        \/ (exists err, r = inl err) -> sigs = []).
Proof.
  destruct r as [err|c]; cbn [settled heloName].
  - exists []. split; [apply addReceived_shape|]. split; [constructor | reflexivity].
  - destruct (wireHeaders_shape X config d c) as (sigs & E & HS & Hnone).
    exists sigs. split; [exact E|]. split; [exact HS|].
    intros [H|[H|(err & H)]]; [apply Hnone; left; exact H
                              | apply Hnone; right; exact H | discriminate H].
Qed.

Lemma settled_received_count d r :
  List.length (Headers.get "Received" (Delivery.headers (settled X config d r)))
  = S (List.length (Headers.get "Received" (Delivery.headers d))).
Proof.
  destruct (settled_shape d r) as (sigs & -> & HS & _).
  cbn [Delivery.with_headers Delivery.headers].
  rewrite get_app, (get_other "Received" sigs "dkim-signature" HS eq_refl).
  reflexivity.
Qed.

Lemma defers_settled d r err :
  defers X (settled X config d r) err = defers X d err.
Proof.
  destruct (settled_shape d r) as (sigs & -> & _). reflexivity.
Qed.

Lemma releaseCommand_settled d r :
  releaseCommand (settled X config d r) = releaseCommand d.
Proof.
  destruct (settled_shape d r) as (sigs & -> & _). reflexivity.
Qed.

Lemma deferCommand_settled d r :
  deferCommand (settled X config d r) = deferCommand d.
Proof.
  destruct (settled_shape d r) as (sigs & -> & _). reflexivity.
Qed.

Lemma addSpamStatus_shape d :
  exists h, addSpamStatus X d = Delivery.with_headers h d.
Proof.
  unfold addSpamStatus. destruct (Delivery.spam d) as [sp|].
  - destruct (Delivery.default sp).
    + eexists. reflexivity.
    + exists (Delivery.headers d). symmetry. apply with_headers_id.
  - exists (Delivery.headers d). symmetry. apply with_headers_id.
Qed.

(** C4, as the code has it. Before the queue command of a delivery is
    issued, the worker has put exactly one [Received] header into the
    header block, made from the local HELO name of the established
    connection, or from the system hostname when no connection was
    established.  On a failed connection it is at index 0 of the block,
    which is the block passed to [BOUNCE].  On an established connection
    it is preceded by the [DKIM-Signature] headers that signing prepends
    after it, and follows them directly: it is at index 0 when signing
    is disabled or the delivery has no DKIM data, and at the index that
    equals the number of signatures otherwise.  This block is the one
    serialised to the wire. *)
Theorem received_header_place fuel d r s :
  (7 <= fuel)%nat ->
  let received := receivedLine X d (heloName r) in
  let block := Delivery.headers (settled X config d r) in
  exists sigs s' tr,
    block = sigs ++ received :: Delivery.headers d
    /\ Forall (fun l => Headers.key l = "dkim-signature") sigs
    /\ (Config.dkim_enabled config = false \/ Delivery.dkim d = None
        \/ (exists err, r = inl err) ->
        nth_error block 0 = Some received)
    /\ nth_error block (List.length sigs) = Some received
    /\ List.length (Headers.get "Received" block)
       = S (List.length (Headers.get "Received" (Delivery.headers d)))
    /\ onConnection X W config fuel d r s = Some (tt, s', tr)
    /\ (forall e wire url, In (Send e wire url) tr -> wire = build X block)
    /\ (forall i f t q h rp cat tm resp,
           In (Issue (BOUNCE i f t q h rp cat tm resp)) tr -> h = block).
Proof.
  intros Hfuel received block.
  destruct (settled_shape d r) as (sigs & Eshape & HS & Hnone).
  destruct (onConnection_shape X W config fuel d r s Hfuel)
    as (s' & posts & tail & E & HP & HT & _).
  exists sigs, s'. eexists.
  assert (Hblock : block = sigs ++ received :: Delivery.headers d)
    by (unfold block; rewrite Eshape; reflexivity).
  split; [exact Hblock|]. split; [exact HS|]. split; [|split; [|split; [|split]]].
  - intros H. rewrite Hblock, (Hnone H). reflexivity.
  - rewrite Hblock, nth_error_app2, Nat.sub_diag by lia. reflexivity.
  - apply settled_received_count.
  - exact E.
  - split.
    + intros e wire url Hin. apply in_shape in Hin.
      destruct Hin as [Hin|[Hin|[Hin|[Hin|Hin]]]].
      * destruct r as [err|c]; [destruct Hin|].
        cbn [prelude] in Hin. destruct Hin as [Hin|[Hin|[]]]; [|discriminate Hin].
        injection Hin as _ <- _. reflexivity.
      * discriminate Hin.
      * exfalso. revert Hin. apply Forall_not_In with (p := isSend);
          [apply notifier_not_send; exact HP | reflexivity].
      * exfalso. revert Hin. apply Forall_not_In with (p := isSend);
          [apply bounce_not_send; apply bounceOf_bounces | reflexivity].
      * exfalso. revert Hin. apply Forall_not_In with (p := isSend);
          [apply quiet_not_send, quiet_scheduled; exact HT | reflexivity].
    + intros i f t q h rp cat tm resp Hin. apply in_shape in Hin.
      destruct Hin as [Hin|[Hin|[Hin|[Hin|Hin]]]].
      * destruct r as [err|c]; [destruct Hin|].
        cbn [prelude] in Hin.
        destruct Hin as [Hin|[Hin|[]]]; discriminate Hin.
      * exfalso. injection Hin as Hin. unfold verdict in Hin.
        destruct (failure X W config d r) as [err|];
          [destruct (defers X _ err)|]; discriminate Hin.
      * exfalso. revert Hin. apply Forall_not_In with (p := isBounce);
          [apply notifier_not_bounce; exact HP | reflexivity].
      * unfold bounceOf in Hin.
        destruct (failure X W config d r) as [err|]; [|destruct Hin].
        destruct (defers X _ err); [destruct Hin|].
        destruct (Config.bounces_enabled config && bounceable _); [|destruct Hin].
        destruct (ack W _); [destruct Hin|].
        destruct Hin as [Hin|[]]. unfold bounceCommand in Hin.
        injection Hin as _ _ _ _ <- _ _ _ _. reflexivity.
      * exfalso. revert Hin. apply Forall_not_In with (p := isBounce);
          [apply quiet_not_bounce, quiet_scheduled; exact HT | reflexivity].
Qed.

(** C6. [sendBounceMessage] issues no [BOUNCE] when the header block
    holds more than 25 [Received] headers at its check.  For a delivery
    that arrived with 26 [Received] lines and whose reply is a permanent
    reject, [RELEASE] is issued with the lock, no [BOUNCE] command is
    sent, and, once the release is acknowledged, the webhook is posted
    to if [bounces.url] is configured. *)
Theorem hop_count_guard fuel d r err s :
  (7 <= fuel)%nat ->
  List.length (Headers.get "Received" (Delivery.headers d)) = 26%nat ->
  let d' := addSpamStatus X d in
  let release :=
    RELEASE (Delivery.id d) (Delivery.seq d) (Delivery._lock d) in
  failure X W config d' r = Some err ->
  defers X d' err = false ->
  (forall dd bounce smtpResponse s0,
      (25 < List.length (Headers.get "Received" (Delivery.headers dd)))%nat ->
      sendBounceMessage X W dd bounce smtpResponse s0 = Some (tt, s0, []))
  /\ exists s' tr,
      onConnection X W config fuel d' r s = Some (tt, s', tr)
      /\ In (Issue release) tr
      /\ count isBounce tr = O
      /\ (ack W release = None ->
          Config.bounces_url config <> "" ->
          exists body, In (Post (Config.bounces_url config) body) tr).
Proof.
  intros Hfuel H26 d' release Hfail Hrej. split.
  - intros dd bounce smtpResponse s0 Hdd. unfold sendBounceMessage.
    apply Nat.ltb_lt in Hdd. rewrite Hdd.
    destruct (negb (JS.truthy (Delivery.from dd))); reflexivity.
  - destruct (onConnection_shape X W config fuel d' r s Hfuel)
      as (s' & posts & tail & E & HP & HT & HN).
    assert (Hrel : releaseCommand (settled X config d' r) = release).
    { rewrite releaseCommand_settled. unfold d', release.
      destruct (addSpamStatus_shape d) as (h & ->). reflexivity. }
    assert (Hv : verdict X W config d' r = release).
    { unfold verdict. rewrite Hfail, defers_settled, Hrej. exact Hrel. }
    assert (Hb : bounceOf X W config d' r = []).
    { unfold bounceOf. rewrite Hfail, defers_settled, Hrej.
      unfold bounceable. rewrite settled_received_count.
      unfold d'. rewrite addSpamStatus_received, H26.
      rewrite andb_false_r, andb_false_r. reflexivity. }
    rewrite Hv, Hb in E. exists s'. eexists. split; [exact E|].
    split; [|split].
    + apply in_or_app. right. left. reflexivity.
    + rewrite count_app.
      change (Issue release :: SetImmediateSendNext :: posts ++ [] ++ tail)
        with ([Issue release; SetImmediateSendNext] ++ posts ++ [] ++ tail).
      rewrite !count_app.
      rewrite (count_zero_Forall isBounce posts),
        (count_zero_Forall isBounce tail).
      * destruct r; reflexivity.
      * apply quiet_not_bounce. exact HT.
      * apply notifier_not_bounce. exact HP.
    + intros Hack Hurl.
      destruct HN as (body & tr & ->).
      { exists err. split; [exact Hfail|]. split; [rewrite defers_settled; exact Hrej|].
        split; [rewrite Hrel; exact Hack | apply truthy_nonempty; exact Hurl]. }
      exists body. apply in_or_app. right. right. right. left. reflexivity.
Qed.

End Settling.

Lemma dialing_not_bounce (tr : list Event) :
  Forall (fun e => isDialing e = true) tr ->
  Forall (fun e => isBounce e = false) tr.
Proof.
  apply Forall_impl. intros e He. destruct e; simpl in *; congruence.
Qed.

Lemma not_issue_not_ack (tr : list Event) :
  Forall (fun e => isIssue e = false) tr ->
  Forall (fun e => isAck e = false) tr.
Proof. apply issue_free. exact isAck_issue. Qed.

Lemma bounce_not_ack (tr : list Event) :
  Forall (fun e => isBounce e = true) tr ->
  Forall (fun e => isAck e = false) tr.
Proof.
  apply Forall_impl. intros e He.
  destruct e as [[]| | | | | | | | ]; cbv in *; congruence.
Qed.

Section OneDelivery.

Variable X : Externals.
Variable W : World.
Variable config : Config.t.

(** The state in which the job of a [GET] reply is handled. *)
Definition fresh (s : State) : State :=
  {| zone := zone s; closing := closing s; emptyChecks := O; dials := dials s |}.

Lemma sendNext_job fuel s d :
  closing s = false ->
  get_reply W = GetData (Some d) ->
  JS.truthy (Delivery.id d) = true ->
  sendNext X W config fuel s
  = after [Issue GET]
      (match getConnection X W fuel (addSpamStatus X d) (fresh s) with
       | None => None
       | Some (r, s1, t1) =>
           after t1 (onConnection X W config fuel (addSpamStatus X d) r s1)
       end).
Proof.
  intros Hc Hg Ht. unfold sendNext, deliver. run.
  rewrite Hc, Hg, Ht. cbn [negb]. run. fold (fresh s).
  destruct (getConnection X W fuel (addSpamStatus X d) (fresh s))
    as [[[r s1] t1]|]; [|reflexivity].
  destruct (onConnection X W config fuel (addSpamStatus X d) r s1)
    as [[[u s2] t2]|]; reflexivity.
Qed.

Lemma verdict_cases d r :
  verdict X W config d r
  = match failure X W config d r with
    | None => releaseCommand d
    | Some err => if defers X d err then deferCommand d else releaseCommand d
    end.
Proof.
  unfold verdict. destruct (failure X W config d r) as [err|].
  - rewrite defers_settled, deferCommand_settled, releaseCommand_settled.
    reflexivity.
  - apply releaseCommand_settled.
Qed.

Lemma verdict_is_ack d r : isAck (Issue (verdict X W config d r)) = true.
Proof.
  rewrite verdict_cases. destruct (failure X W config d r) as [err|];
    [destruct (defers X d err)|]; reflexivity.
Qed.

Lemma prelude_no_ack d r :
  Forall (fun e => isAck e = false) (prelude X config d r).
Proof. destruct r; repeat constructor. Qed.

Lemma prelude_no_bounce d r :
  Forall (fun e => isBounce e = false) (prelude X config d r).
Proof. destruct r; repeat constructor. Qed.

Lemma bounceOf_at_most_one d r :
  (count isBounce (bounceOf X W config d r) <= 1)%nat
  /\ (bounceOf X W config d r <> [] ->
      verdict X W config d r = releaseCommand d).
Proof.
  rewrite verdict_cases. unfold bounceOf.
  destruct (failure X W config d r) as [err|].
  2:{ split; [cbv; lia | reflexivity]. }
  rewrite defers_settled. destruct (defers X d err).
  { split; [cbv; lia | intros H; contradiction]. }
  split; [|reflexivity].
  destruct (Config.bounces_enabled config && bounceable _); [|cbv; lia].
  destruct (ack W _); cbv; lia.
Qed.

Lemma count_pos_In (p : Event -> bool) (tr : list Event) :
  (exists e, In e tr /\ p e = true) <-> (0 < count p tr)%nat.
Proof.
  unfold count. split.
  - intros (e & Hin & He).
    assert (H : In e (filter p tr)) by (apply filter_In; split; assumption).
    destruct (filter p tr); [destruct H | cbn [List.length]; lia].
  - destruct (filter p tr) as [|e l] eqn:E; cbn [List.length]; [lia|].
    intros _. exists e. apply filter_In. rewrite E. left. reflexivity.
Qed.

(** When the internal bounce is requested for the job [d] of a [GET]:
    the failure is taken as a permanent reject, internal bounces are
    enabled, the sender is not empty, the [Received] lines of the job
    and the worker's own are at most 25, and the queue has acknowledged
    the release. *)
Lemma bounceOf_when d r :
  bounceOf X W config (addSpamStatus X d) r <> []
  <-> exists err,
        failure X W config (addSpamStatus X d) r = Some err
        /\ defers X d err = false
        /\ Config.bounces_enabled config = true
        /\ Delivery.from d <> ""
        /\ (S (List.length (Headers.get "Received" (Delivery.headers d))) <= 25)%nat
        /\ ack W (RELEASE (Delivery.id d) (Delivery.seq d) (Delivery._lock d))
           = None.
Proof.
  assert (Hfrom : Delivery.from (settled X config (addSpamStatus X d) r)
                  = Delivery.from d).
  { destruct (settled_shape X config (addSpamStatus X d) r) as (sigs & -> & _).
    destruct (addSpamStatus_shape X d) as (h & ->). reflexivity. }
  assert (Hrel : releaseCommand (settled X config (addSpamStatus X d) r)
                 = RELEASE (Delivery.id d) (Delivery.seq d) (Delivery._lock d)).
  { rewrite releaseCommand_settled.
    destruct (addSpamStatus_shape X d) as (h & ->). reflexivity. }
  assert (Hdef : forall err,
             defers X (settled X config (addSpamStatus X d) r) err
             = defers X d err).
  { intros err. rewrite defers_settled.
    destruct (addSpamStatus_shape X d) as (h & ->). reflexivity. }
  unfold bounceOf, bounceable.
  rewrite settled_received_count, addSpamStatus_received, Hfrom, Hrel.
  destruct (failure X W config (addSpamStatus X d) r) as [err|].
  2:{ split; [intros H; contradiction | intros (err & H & _); discriminate H]. }
  rewrite Hdef. split.
  - intros H. exists err. split; [reflexivity|].
    destruct (defers X d err); [contradiction|]. split; [reflexivity|].
    destruct (Config.bounces_enabled config); [|contradiction].
    split; [reflexivity|].
    destruct (JS.truthy (Delivery.from d)) eqn:Ht; [|contradiction].
    split; [apply truthy_nonempty; exact Ht|].
    destruct (25 <? _)%nat eqn:E25; [contradiction|].
    apply Nat.ltb_ge in E25. split; [exact E25|].
    destruct (ack W _); [contradiction | reflexivity].
  - intros (err' & Herr & Hd & Hen & Hf & H25 & Hack). injection Herr as <-.
    rewrite Hd, Hen, Hack, (proj2 (truthy_nonempty _) Hf).
    apply Nat.ltb_ge in H25. rewrite H25. discriminate.
Qed.

(** C1, as the code has it. For every [GET] that returns a job, the
    worker issues exactly one command among [RELEASE] and [DEFER], and it
    carries the id, the sequence number and the lock of the delivery: a
    [RELEASE] after a successful send and after a failure that
    [handleResponseError] takes as a permanent reject, a [DEFER] after any
    other failure.  A [BOUNCE] command, which carries no lock, is issued
    at most once, and it is issued exactly when the delivery failed with
    a permanent reject, internal bounces are enabled, the sender is not
    empty, the header block holds at most 25 [Received] headers (those of
    the job and the worker's own) and the queue has acknowledged the
    [RELEASE]; so it only comes in addition to that [RELEASE].  This
    holds when failed STARTTLS upgrades are the only source of ['ETLS']
    errors, so that the dial loop ends. *)
Theorem one_settling_command fuel s d :
  closing s = false ->
  get_reply W = GetData (Some d) ->
  Delivery.id d <> "" ->
  starttlsOnly W ->
  (dialFuel W s d + 7 <= fuel)%nat ->
  let d' := addSpamStatus X d in
  let release :=
    Issue (RELEASE (Delivery.id d) (Delivery.seq d) (Delivery._lock d)) in
  let defer :=
    Issue (DEFER (Delivery.id d) (Delivery.seq d) (Delivery._lock d)
                 (deferTtl (deferredCount d))) in
  exists r s1 t1 s' tr,
    getConnection X W fuel d' (fresh s) = Some (r, s1, t1)
    /\ sendNext X W config fuel s = Some (tt, s', tr)
    /\ filter isAck tr
       = [match failure X W config d' r with
          | None => release
          | Some err => if defers X d err then defer else release
          end]
    /\ (count isBounce tr <= 1)%nat
    /\ ((exists e, In e tr /\ isBounce e = true)
        <-> exists err,
              failure X W config d' r = Some err
              /\ defers X d err = false
              /\ Config.bounces_enabled config = true
              /\ Delivery.from d <> ""
              /\ (S (List.length (Headers.get "Received" (Delivery.headers d)))
                  <= 25)%nat
              /\ ack W (RELEASE (Delivery.id d) (Delivery.seq d)
                                (Delivery._lock d)) = None)
    /\ (forall e, In e tr -> isBounce e = true -> In release tr).
Proof.
  intros Hc Hg Hid Htls Hfuel d' release defer.
  assert (Hd' : exists h, d' = Delivery.with_headers h d)
    by apply addSpamStatus_shape.
  destruct Hd' as (h & Hd').
  assert (Hdial : (dialFuel W (fresh s) d' <= fuel)%nat).
  { unfold dialFuel, resolved in *. rewrite Hd'.
    cbn [fresh zone Delivery.with_headers Delivery.domain]. lia. }
  destruct (getConnection_total X W fuel d' (fresh s) Htls Hdial)
    as (r & s1 & t1 & Econn & Ht1).
  destruct (onConnection_shape X W config fuel d' r s1) as
    (s' & posts & tail & E & HP & HT & _); [lia|].
  exists r, s1, t1, s'. eexists. split; [exact Econn|].
  assert (Hrun : sendNext X W config fuel s
                 = Some (tt, s',
                         Issue GET :: t1 ++ prelude X config d' r
                           ++ Issue (verdict X W config d' r)
                           :: SetImmediateSendNext
                           :: posts ++ bounceOf X W config d' r ++ tail)).
  { rewrite (sendNext_job fuel s d Hc Hg (proj2 (truthy_nonempty _) Hid)).
    fold d'. rewrite Econn, E. reflexivity. }
  split; [exact Hrun|].
  assert (Hv : Issue (verdict X W config d' r)
               = match failure X W config d' r with
                 | None => release
                 | Some err => if defers X d err then defer else release
                 end).
  { rewrite verdict_cases. unfold release, defer, releaseCommand, deferCommand,
      defers, deferredCount.
    rewrite Hd'. cbn [Delivery.with_headers Delivery.id Delivery.seq
                      Delivery._lock Delivery._deferred].
    destruct (failure X W config (Delivery.with_headers h d) r) as [err|];
      [|reflexivity].
    destruct (negb _ || _); reflexivity. }
  assert (Hcount : count isBounce
                     (Issue GET :: t1 ++ prelude X config d' r
                        ++ Issue (verdict X W config d' r)
                        :: SetImmediateSendNext
                        :: posts ++ bounceOf X W config d' r ++ tail)
                   = count isBounce (bounceOf X W config d' r)).
  { change (Issue GET :: t1 ++ prelude X config d' r
              ++ Issue (verdict X W config d' r)
              :: SetImmediateSendNext
              :: posts ++ bounceOf X W config d' r ++ tail)
      with ([Issue GET] ++ t1 ++ prelude X config d' r
              ++ [Issue (verdict X W config d' r); SetImmediateSendNext]
              ++ posts ++ bounceOf X W config d' r ++ tail).
    rewrite !count_app.
    rewrite (count_zero_Forall isBounce t1),
      (count_zero_Forall isBounce (prelude X config d' r)),
      (count_zero_Forall isBounce posts), (count_zero_Forall isBounce tail).
    + assert (Hone : count isBounce
                       [Issue (verdict X W config d' r); SetImmediateSendNext]
                     = O).
      { rewrite verdict_cases. destruct (failure X W config d' r) as [err|];
          [destruct (defers X d' err)|]; reflexivity. }
      rewrite Hone. cbn [count filter isBounce List.length]. lia.
    + apply quiet_not_bounce, HT.
    + apply notifier_not_bounce, HP.
    + apply prelude_no_bounce.
    + apply dialing_not_bounce, Ht1. }
  assert (Hsome : (exists e,
                      In e (Issue GET :: t1 ++ prelude X config d' r
                              ++ Issue (verdict X W config d' r)
                              :: SetImmediateSendNext
                              :: posts ++ bounceOf X W config d' r ++ tail)
                      /\ isBounce e = true)
                  <-> bounceOf X W config d' r <> []).
  { rewrite count_pos_In, Hcount.
    pose proof (bounceOf_bounces X W config d' r) as HB.
    destruct (bounceOf X W config d' r) as [|b l].
    - split; [cbv; lia | intros H; contradiction].
    - split; [discriminate|]. intros _.
      apply Forall_inv in HB. unfold count. cbn [filter]. rewrite HB.
      cbn [List.length]. lia. }
  split; [|split; [|split]].
  - cbn [filter isAck isRelease isDefer orb].
    rewrite filter_app, filter_app.
    cbn [filter]. rewrite verdict_is_ack. cbn [filter isAck isRelease isDefer orb].
    rewrite filter_app, filter_app.
    rewrite (filter_none isAck t1), (filter_none isAck (prelude X config d' r)),
      (filter_none isAck posts), (filter_none isAck (bounceOf X W config d' r)),
      (filter_none isAck tail).
    + cbn [app]. rewrite Hv. reflexivity.
    + apply not_issue_not_ack, quiet_not_issue, HT.
    + apply bounce_not_ack, bounceOf_bounces.
    + apply not_issue_not_ack, notifier_not_issue, HP.
    + apply prelude_no_ack.
    + apply not_issue_not_ack, dialing_not_issue, Ht1.
  - rewrite Hcount. exact (proj1 (bounceOf_at_most_one d' r)).
  - rewrite Hsome. apply bounceOf_when.
  - intros e Hin He.
    assert (Hb : bounceOf X W config d' r <> []).
    { apply Hsome. exists e. split; assumption. }
    apply (proj2 (bounceOf_at_most_one d' r)) in Hb.
    right. apply in_or_app. right. apply in_or_app. right. left.
    rewrite Hb. unfold release, releaseCommand. rewrite Hd'. reflexivity.
Qed.

End OneDelivery.

(** ** The STARTTLS downgrade *)


Section Downgrade.

Variable X : Externals.
Variable W : World.


End Downgrade.

(** ** The properties at work on the sample setting *)

Module Runs.

Import Sample.

Definition reject550 : Error.t := error "" "550 5.1.1 no such user".

(** A delivery that has been deferred seven times. *)
Definition chronic : Delivery.t :=
  {| Delivery.id := "m1"; Delivery.seq := "1"; Delivery._lock := "lock-1";
     Delivery.from := "a@x"; Delivery.to := ["b@y.test"];
     Delivery.domain := "y.test"; Delivery.headers := [];
     Delivery.bodySize := 10;
     Delivery._deferred := Some {| Delivery.count := 7 |};
     Delivery.spam := None; Delivery.dkim := None; Delivery.fbl := "";
     Delivery.messageId := "<m1@x>" |}.

(** A null-return message. *)
Definition nullSender : Delivery.t :=
  {| Delivery.id := "m2"; Delivery.seq := "1"; Delivery._lock := "lock-2";
     Delivery.from := ""; Delivery.to := ["b@y.test"];
     Delivery.domain := "y.test"; Delivery.headers := [];
     Delivery.bodySize := 10; Delivery._deferred := None;
     Delivery.spam := None; Delivery.dkim := None; Delivery.fbl := "";
     Delivery.messageId := "<m2@x>" |}.

(** A delivery that has been deferred twice. *)
Definition deferredTwice : Delivery.t :=
  {| Delivery.id := "m4"; Delivery.seq := "1"; Delivery._lock := "lock-4";
     Delivery.from := "a@x"; Delivery.to := ["b@y.test"];
     Delivery.domain := "y.test"; Delivery.headers := [];
     Delivery.bodySize := 10;
     Delivery._deferred := Some {| Delivery.count := 2 |};
     Delivery.spam := None; Delivery.dkim := None; Delivery.fbl := "";
     Delivery.messageId := "<m4@x>" |}.

(** The capital and the small e with acute accent, U+00C9 and U+00E9. *)
Definition capitalE : ascii := ascii_of_nat 201.
Definition smallE : ascii := ascii_of_nat 233.

(** A sender whose domain is written with capital letters, one of them
    outside ASCII. *)
Definition accented : Delivery.t :=
  {| Delivery.id := "m5"; Delivery.seq := "1"; Delivery._lock := "lock-5";
     Delivery.from := "Bob@" +++ String capitalE "COLE.Test";
     Delivery.to := ["b@y.test"];
     Delivery.domain := "y.test"; Delivery.headers := [];
     Delivery.bodySize := 10; Delivery._deferred := None;
     Delivery.spam := None; Delivery.dkim := None; Delivery.fbl := "";
     Delivery.messageId := "<m5@x>" |}.

(** A sender of an excluded domain, written with capital letters. *)
Definition shouting : Delivery.t :=
  {| Delivery.id := "m6"; Delivery.seq := "1"; Delivery._lock := "lock-6";
     Delivery.from := "a@X.Test"; Delivery.to := ["b@y.test"];
     Delivery.domain := "y.test"; Delivery.headers := [];
     Delivery.bodySize := 10; Delivery._deferred := None;
     Delivery.spam := None; Delivery.dkim := None; Delivery.fbl := "";
     Delivery.messageId := "<m6@x>" |}.

Definition hop (n : nat) : Headers.HeaderLine :=
  {| Headers.key := "received"; Headers.line := "Received: by hop" |}.

(** A message that went through 26 hops. *)
Definition looping : Delivery.t :=
  {| Delivery.id := "m3"; Delivery.seq := "1"; Delivery._lock := "lock-3";
     Delivery.from := "a@x"; Delivery.to := ["b@y.test"];
     Delivery.domain := "y.test"; Delivery.headers := map hop (List.seq 0 26);
     Delivery.bodySize := 10; Delivery._deferred := None;
     Delivery.spam := None; Delivery.dkim := None; Delivery.fbl := "";
     Delivery.messageId := "<m3@x>" |}.

Definition mx : Exchange.t :=
  {| Exchange.exchange := "mx.y.test"; Exchange.priority := 10 |}.

Definition connection : Connection :=
  {| options :=
       dialOptions zone0 mx "10.0.0.1"
                   {| za_name := "mta1.example.test";
                      za_address := "192.0.2.1" |} |}.

Definition quiet : World := world None (fun _ => false).

Definition rejecting : World := world (Some reject550) (fun _ => false).

(** A world whose peer fails every STARTTLS upgrade. *)
Definition brokenTls : World :=
  {| get_reply := GetData (Some delivery);
     ack := fun _ => None;
     resolveMx := fun _ => MxList [mx];
     resolveIp := fun _ => IpList ["10.0.0.1"];
     connect := fun _ o =>
       if Options.ignoreTLS o then None else Some (error "ETLS" "");
     login := fun _ _ => None;
     send := fun _ => None;
     webhook_fails := fun _ => false |}.

(** A world in which the domain has no exchange. *)
Definition noMx : World :=
  {| get_reply := GetData (Some delivery);
     ack := fun _ => None;
     resolveMx := fun _ => MxNone;
     resolveIp := fun _ => IpList [];
     connect := fun _ _ => None;
     login := fun _ _ => None;
     send := fun _ => None;
     webhook_fails := fun _ => false |}.

Lemma quiet_starttlsOnly reply webhook : starttlsOnly (world reply webhook).
Proof. intros n o err H. discriminate H. Qed.

Lemma brokenTls_starttlsOnly : starttlsOnly brokenTls.
Proof.
  intros n o err H Hi. cbn [brokenTls connect] in H. rewrite Hi in H.
  discriminate H.
Qed.

End Runs.

(** *** The boundary scenarios of the specification *)

(** The queue commands of a run, in order. *)
Definition commands (m : option (unit * State * list Event)) : list Command :=
  match m with
  | Some (_, _, tr) =>
      flat_map (fun e => match e with Issue cmd => [cmd] | _ => [] end) tr
  | None => []
  end.

(** The addresses dialled by a run, each with its [ignoreTLS] option. *)
Definition dialled (m : option (unit * State * list Event))
  : list (string * bool) :=
  match m with
  | Some (_, _, tr) =>
      flat_map (fun e =>
                  match e with
                  | Dial o => [(Options.host o, Options.ignoreTLS o)]
                  | _ => []
                  end) tr
  | None => []
  end.

(** Scenario 1: the message is accepted and released. *)
Example happy_path :
  commands (sendNext Sample.X Runs.quiet Sample.config 20 Sample.state)
  = [GET; RELEASE "m1" "1" "lock-1"].
Proof. reflexivity. Qed.

(** Scenario 2: a transient reply defers for five minutes. *)
Example transient_reply :
  commands (sendNext Sample.X
              (Sample.world (Some (Sample.error "" "451 4.3.0 try later"))
                            (fun _ => false))
              Sample.config 20 Sample.state)
  = [GET; DEFER "m1" "1" "lock-1" (5 * 60 * 1000)].
Proof. reflexivity. Qed.

(** Scenario 4: a failed STARTTLS upgrade is followed by one connection
    to the same address without STARTTLS, on which the message is sent. *)
Example starttls_retry :
  dialled (sendNext Sample.X Runs.brokenTls Sample.config 20 Sample.state)
  = [("10.0.0.1", false); ("10.0.0.1", true)]
  /\ commands (sendNext Sample.X Runs.brokenTls Sample.config 20 Sample.state)
     = [GET; RELEASE "m1" "1" "lock-1"].
Proof. split; reflexivity. Qed.

(** Scenario 3: a permanent reply releases the delivery; the next
    [sendNext] is scheduled in the same turn, and the reply of the queue
    brings the post to the webhook and the internal bounce. *)
Example permanent_reply :
  exists s' send body bounce,
    sendNext Sample.X Runs.rejecting Sample.config 20 Sample.state
    = Some (tt, s',
            [Issue GET; Dial (options Runs.connection); send; Close;
             Issue (RELEASE "m1" "1" "lock-1"); SetImmediateSendNext;
             Post "http://localhost:5000/bounce" body; Issue bounce])
    /\ isSend send = true /\ isBounce (Issue bounce) = true.
Proof.
  eexists _, _, _, _. split; [vm_compute; reflexivity|].
  split; reflexivity.
Qed.

(** Scenario 5: without exchanges the synthesised 450 reply defers. *)
Example empty_mx :
  commands (sendNext Sample.X Runs.noMx Sample.config 20 Sample.state)
  = [GET; DEFER "m1" "1" "lock-1" (5 * 60 * 1000)].
Proof. reflexivity. Qed.

(** C1 fails as stated: on a permanent reject with internal bounces enabled
    the worker issues two of the three commands, [RELEASE] and then
    [BOUNCE]. *)
Lemma release_and_bounce_counterexample :
  exists s' tr,
    sendNext Sample.X Runs.rejecting Sample.config 20 Sample.state
    = Some (tt, s', tr)
    /\ count isTerminal tr = 2%nat
    /\ count isRelease tr = 1%nat
    /\ count isBounce tr = 1%nat.
Proof.
  eexists _, _. split; [vm_compute; reflexivity|].
  split; [|split]; reflexivity.
Qed.

Lemma one_settling_command_witness :
  exists s' tr,
    sendNext Sample.X Runs.rejecting Sample.config 20 Sample.state
    = Some (tt, s', tr)
    /\ filter isAck tr = [Issue (RELEASE "m1" "1" "lock-1")]
    /\ (count isBounce tr <= 1)%nat
    /\ exists e, In e tr /\ isBounce e = true.
Proof.
  destruct (one_settling_command Sample.X Runs.rejecting Sample.config 20
              Sample.state Sample.delivery)
    as (r & s1 & t1 & s' & tr & Hconn & Hrun & Hack & Hone & Hwhen & _).
  - reflexivity.
  - reflexivity.
  - discriminate.
  - apply Runs.quiet_starttlsOnly.
  - vm_compute. lia.
  - exists s', tr. split; [exact Hrun|].
    vm_compute in Hconn. injection Hconn as <- _ _.
    split; [rewrite Hack; reflexivity|]. split; [exact Hone|].
    apply Hwhen. exists Runs.reject550.
    split; [reflexivity|]. split; [reflexivity|]. split; [reflexivity|].
    split; [discriminate|]. split; [vm_compute; lia | reflexivity].
Defined.

Lemma chronic_deferral_defers_witness :
  Delivery._deferred Runs.chronic = Some {| Delivery.count := 7 |}
  /\ (6 < 7)%nat
  /\ Bounce.action (bounces_check Sample.X (Error.response Runs.reject550))
     = "reject"
  /\ exists s' rest,
      handleResponseError Sample.X Runs.quiet Sample.config 7 Runs.chronic
                          Runs.reject550 Sample.state
      = Some (tt, s', Issue (DEFER "m1" "1" "lock-1" 61440000) :: rest)
      /\ Forall (fun e => isIssue e = false) rest.
Proof.
  assert (Hc : Delivery._deferred Runs.chronic
               = Some {| Delivery.count := 7 |}) by reflexivity.
  assert (H6 : (6 < 7)%nat) by lia.
  split; [exact Hc|]. split; [exact H6|]. split; [reflexivity|].
  exact (chronic_deferral_defers Sample.X Runs.quiet Sample.config 7
           Runs.chronic Runs.reject550 Sample.state _ Hc H6).
Defined.

Lemma defer_ttl_law_witness :
  handleResponseError Sample.X Runs.quiet Sample.config 7 Runs.deferredTwice
                      (Sample.error "" "451 4.3.0 try later") Sample.state
  = Some (tt, Sample.state, [Issue (DEFER "m4" "1" "lock-4" 7500000)])
  /\ Delivery._deferred Runs.deferredTwice = Some {| Delivery.count := 2 |}
  /\ 7500000 = Z.min (5 ^ (2 + 1)) 1024 * 60 * 1000
  /\ deferTtl 2 <= deferTtl 6.
Proof.
  assert (Hrun : handleResponseError Sample.X Runs.quiet Sample.config 7
                   Runs.deferredTwice (Sample.error "" "451 4.3.0 try later")
                   Sample.state
                 = Some (tt, Sample.state,
                         [Issue (DEFER "m4" "1" "lock-4" 7500000)]))
    by reflexivity.
  split; [exact Hrun|]. split; [reflexivity|].
  destruct (defer_ttl_law Sample.X Runs.quiet Sample.config 7
              Runs.deferredTwice (Sample.error "" "451 4.3.0 try later")
              Sample.state tt Sample.state
              [Issue (DEFER "m4" "1" "lock-4" 7500000)]
              "m4" "1" "lock-4" 7500000 2 6 Hrun)
    as (Httl & _ & Hmono & _).
  - left. reflexivity.
  - lia.
  - split; [exact Httl | exact Hmono].
Defined.

Lemma no_bounce_without_sender_witness :
  Delivery.from Runs.nullSender = ""
  /\ sendBounceMessage Sample.X Runs.quiet Runs.nullSender
                       (bounces_check Sample.X (Error.response Runs.reject550))
                       "550 5.1.1 no such user" Sample.state
     = Some (tt, Sample.state, []).
Proof.
  split; [reflexivity|].
  apply (no_bounce_without_sender Sample.X Runs.quiet Sample.config 7
           Runs.nullSender Runs.reject550); [reflexivity | lia].
Defined.

(** C4 fails as stated: with DKIM signing enabled, the header at index 0
    of the block that is serialised to the wire is a [DKIM-Signature];
    the worker's [Received] header comes after the signatures. *)
Lemma dkim_above_received_counterexample :
  nth_error
    (Delivery.headers
       (wireHeaders Sample.X Sample.config Sample.delivery Runs.connection)) 0
  = Some {| Headers.key := "dkim-signature";
            Headers.line := "DKIM-Signature: s=k1" |}
  /\ nth_error
       (Delivery.headers
          (wireHeaders Sample.X Sample.config Sample.delivery Runs.connection)) 2
     = Some {| Headers.key := "received";
               Headers.line := "Received: from queue by mta1.example.test" |}
  /\ exists s' envelope url rest,
      onConnection Sample.X Runs.quiet Sample.config 7 Sample.delivery
                   (inr Runs.connection) Sample.state
      = Some (tt, s',
              Send envelope
                   (build Sample.X
                      (Delivery.headers
                         (wireHeaders Sample.X Sample.config Sample.delivery
                                      Runs.connection)))
                   url :: rest).
Proof.
  split; [reflexivity|]. split; [reflexivity|].
  eexists _, _, _, _. vm_compute. reflexivity.
Qed.

Lemma received_header_place_witness :
  (7 <= 7)%nat
  /\ List.length
       (Headers.get "Received"
          (Delivery.headers
             (settled Sample.X Sample.config Sample.delivery
                      (inr Runs.connection))))
     = 1%nat.
Proof.
  assert (H : (7 <= 7)%nat) by lia.
  split; [exact H|].
  destruct (received_header_place Sample.X Runs.quiet Sample.config 7
              Sample.delivery (inr Runs.connection) Sample.state H)
    as (sigs & s' & tr & _ & _ & _ & _ & Hcount & _).
  exact Hcount.
Defined.

Lemma size_advertised_witness :
  (7 <= 7)%nat
  /\ exists s' envelope wire url rest,
      onConnection Sample.X Runs.quiet Sample.config 7 Sample.delivery
                   (inr Runs.connection) Sample.state
      = Some (tt, s', Send envelope wire url :: rest)
      /\ Envelope.size envelope = 41 + 116 + 10.
Proof.
  assert (H : (7 <= 7)%nat) by lia.
  split; [exact H|].
  destruct (size_advertised Sample.X Runs.quiet Sample.config 7
              Sample.delivery Runs.connection Sample.state H)
    as (s' & envelope & url & rest & E & Hsize & _).
  exists s', envelope. eexists _, url, rest. split; [exact E|].
  rewrite Hsize. reflexivity.
Defined.

Lemma hop_count_guard_witness :
  List.length (Headers.get "Received" (Delivery.headers Runs.looping)) = 26%nat
  /\ exists s' tr,
      onConnection Sample.X Runs.rejecting Sample.config 7
                   (addSpamStatus Sample.X Runs.looping)
                   (inr Runs.connection) Sample.state
      = Some (tt, s', tr)
      /\ In (Issue (RELEASE "m3" "1" "lock-3")) tr
      /\ count isBounce tr = O.
Proof.
  assert (H26 : List.length (Headers.get "Received" (Delivery.headers Runs.looping))
                = 26%nat) by reflexivity.
  split; [exact H26|].
  destruct (hop_count_guard Sample.X Runs.rejecting Sample.config 7
              Runs.looping (inr Runs.connection) Runs.reject550 Sample.state)
    as (_ & s' & tr & E & Hrel & Hnone & _).
  - lia.
  - exact H26.
  - reflexivity.
  - reflexivity.
  - exists s', tr. split; [exact E|]. split; [exact Hrel | exact Hnone].
Defined.


Lemma srs_envelope_from_witness :
  Config.srs_enabled Sample.config = true
  /\ Delivery.from Runs.accented = "Bob@" +++ String Runs.capitalE "COLE.Test"
  /\ Delivery.from Runs.shouting = "a@X.Test"
  /\ Config.srs_excludeDomains Sample.config = ["x.test"]
  /\ (exists s' envelope wire url rest,
         onConnection Sample.X Runs.quiet Sample.config 7 Runs.accented
                      (inr Runs.connection) Sample.state
         = Some (tt, s', Send envelope wire url :: rest)
         /\ Envelope.from envelope
            = "SRS0=HHH=TT=" +++ String Runs.smallE "cole.test"
              +++ "=Bob@srs.example.test")
  /\ (exists s' envelope wire url rest,
         onConnection Sample.X Runs.quiet Sample.config 7 Runs.shouting
                      (inr Runs.connection) Sample.state
         = Some (tt, s', Send envelope wire url :: rest)
         /\ Envelope.from envelope = "a@X.Test").
Proof.
  split; [reflexivity|]. split; [reflexivity|]. split; [reflexivity|].
  split; [reflexivity|]. split.
  - destruct (srs_envelope_from Sample.X Runs.quiet Sample.config 7
                Runs.accented Runs.connection Sample.state)
      as (s' & envelope & url & rest & E & _ & Hrewrite & _).
    + lia.
    + reflexivity.
    + discriminate.
    + exists s', envelope. eexists _, url, rest. split; [exact E|].
      rewrite Hrewrite; [reflexivity|].
      intros [H|[]]. discriminate H.
  - destruct (srs_envelope_from Sample.X Runs.quiet Sample.config 7
                Runs.shouting Runs.connection Sample.state)
      as (s' & envelope & url & rest & E & Hkeep & _).
    + lia.
    + reflexivity.
    + discriminate.
    + exists s', envelope. eexists _, url, rest. split; [exact E|].
      apply Hkeep. left. reflexivity.
Defined.

(** * Further properties of the sender *)

(** ** What a run may do to the worker state *)

(** The zone is left alone, but for raising [disableStarttls]. *)
Definition zoneLe (z z' : Zone.t) : Prop :=
  z' = z \/ z' = Zone.set_disableStarttls true z.

Lemma zoneLe_refl (z : Zone.t) : zoneLe z z.
Proof. left. reflexivity. Qed.

Lemma zoneLe_trans (a b c : Zone.t) : zoneLe a b -> zoneLe b c -> zoneLe a c.
Proof.
  intros [->| ->] [->| ->]; try (left; reflexivity); right; reflexivity.
Qed.

Lemma zoneLe_flag (z z' : Zone.t) :
  zoneLe z z' ->
  Zone.disableStarttls z = true -> Zone.disableStarttls z' = true.
Proof. intros [->| ->] H; [exact H | reflexivity]. Qed.

Definition hasError (tr : list Event) : Prop := exists err, In (EmitError err) tr.

(** From [s] to [s'] with trace [tr]: the zone only loses STARTTLS, the
    drain flag is not cleared, and it is set when ['error'] was emitted. *)
Definition evolves (s s' : State) (tr : list Event) : Prop :=
  zoneLe (zone s) (zone s')
  /\ (closing s = true -> closing s' = true)
  /\ (hasError tr -> closing s' = true).

Definition steady {A} (m : M A) : Prop :=
  forall s a s' tr, m s = Some (a, s', tr) -> evolves s s' tr.

Lemma evolves_refl (s : State) (tr : list Event) :
  Forall (fun e => isQuiet e = false) tr -> evolves s s tr.
Proof.
  intros HF. split; [apply zoneLe_refl|]. split; [auto|].
  intros (err & Hin). rewrite Forall_forall in HF.
  specialize (HF _ Hin). discriminate HF.
Qed.

Lemma steady_ret {A} (a : A) : steady (ret a).
Proof.
  intros s a' s' tr H. injection H as _ <- <-. apply evolves_refl. constructor.
Qed.

Lemma steady_bind {A B} (m : M A) (f : A -> M B) :
  steady m -> (forall a, steady (f a)) -> steady (bind m f).
Proof.
  intros Hm Hf s b s2 tr H. unfold bind in H.
  destruct (m s) as [[[a s1] t1]|] eqn:E1; [|discriminate H].
  destruct (f a s1) as [[[b' s2'] t2]|] eqn:E2; [|discriminate H].
  injection H as _ <- <-.
  destruct (Hm _ _ _ _ E1) as (Hz1 & Hc1 & He1).
  destruct (Hf a _ _ _ _ E2) as (Hz2 & Hc2 & He2).
  split; [eapply zoneLe_trans; eassumption|]. split; [auto|].
  intros (err & Hin). apply in_app_or in Hin. destruct Hin as [Hin|Hin].
  - apply Hc2, He1. exists err. exact Hin.
  - apply He2. exists err. exact Hin.
Qed.

Lemma steady_emit (e : Event) : isQuiet e = false -> steady (emit e).
Proof.
  intros He s a s' tr H. injection H as _ <- <-. apply evolves_refl.
  constructor; [exact He | constructor].
Qed.

Lemma steady_schedule : steady (emit SetImmediateSendNext).
Proof.
  intros s a s' tr H. injection H as _ <- <-.
  split; [apply zoneLe_refl|]. split; [auto|].
  intros (err & [Hin|[]]). discriminate Hin.
Qed.

Lemma steady_getState : steady getState.
Proof.
  intros s a s' tr H. injection H as _ <- <-. apply evolves_refl. constructor.
Qed.

Lemma steady_fatal (err : Error.t) : steady (fatal err).
Proof.
  intros s a s' tr H. cbv in H. injection H as _ <- <-.
  split; [apply zoneLe_refl|]. split; reflexivity.
Qed.

Lemma evolves_silent (s s' : State) :
  zone s' = zone s -> closing s' = closing s -> evolves s s' [].
Proof.
  intros Hz Hc. split; [left; exact Hz|]. split; [rewrite Hc; auto|].
  intros (err & []).
Qed.

Lemma steady_set_emptyChecks (n : nat) : steady (set_emptyChecks n).
Proof.
  intros s a s' tr H. cbv in H. injection H as _ <- <-.
  apply evolves_silent; reflexivity.
Qed.

Lemma steady_nextDial : steady nextDial.
Proof.
  intros s a s' tr H. cbv in H. injection H as _ <- <-.
  apply evolves_silent; reflexivity.
Qed.

Lemma steady_downgrade : steady (set_zone_disableStarttls true).
Proof.
  intros s a s' tr H. cbv [set_zone_disableStarttls bind getState putState app] in H.
  injection H as _ <- <-.
  split; [right; reflexivity|]. split; [auto|].
  intros (err & []).
Qed.

Lemma steady_outOfFuel {A} : steady (@outOfFuel A).
Proof. intros s a s' tr H. discriminate H. Qed.

(** Takes a goal [steady m] apart along the structure of [m]. *)
Ltac steady_step :=
  lazymatch goal with
  | |- steady (bind _ _) => apply steady_bind; [|intros ?]
  | |- steady (ret _) => apply steady_ret
  | |- steady getState => apply steady_getState
  | |- steady nextDial => apply steady_nextDial
  | |- steady (fatal _) => apply steady_fatal
  | |- steady (set_emptyChecks _) => apply steady_set_emptyChecks
  | |- steady (set_zone_disableStarttls true) => apply steady_downgrade
  | |- steady outOfFuel => apply steady_outOfFuel
  | |- steady (emit SetImmediateSendNext) => apply steady_schedule
  | |- steady (emit _) => apply steady_emit; reflexivity
  | |- steady (if ?b then _ else _) => destruct b
  | |- steady (match ?x with _ => _ end) => destruct x
  | |- steady (let _ := _ in _) => cbv zeta
  end.

Section Steady.

Variable X : Externals.
Variable W : World.
Variable config : Config.t.

Lemma steady_sendCommand (cmd : Command) : steady (sendCommand W cmd).
Proof. unfold sendCommand. repeat steady_step. Qed.

Lemma steady_notifyBounce fuel :
  forall body retries, steady (notifyBounce W config fuel body retries).
Proof.
  induction fuel as [|fuel IH]; intros body retries; cbn [notifyBounce].
  - apply steady_outOfFuel.
  - repeat steady_step. apply IH.
Qed.

Lemma steady_sendBounceMessage d bounce smtpResponse :
  steady (sendBounceMessage X W d bounce smtpResponse).
Proof.
  unfold sendBounceMessage. repeat steady_step. apply steady_sendCommand.
Qed.

Lemma steady_handleResponseErrorThen rest fuel d err :
  steady rest ->
  steady (handleResponseErrorThen X W config rest fuel d err).
Proof.
  intros Hrest.
  unfold handleResponseErrorThen, deferDelivery, releaseDelivery.
  repeat first [ exact Hrest
               | steady_step
               | apply steady_sendCommand
               | apply steady_notifyBounce
               | apply steady_sendBounceMessage ].
Qed.

Lemma steady_handleResponseError fuel d err :
  steady (handleResponseError X W config fuel d err).
Proof. apply steady_handleResponseErrorThen, steady_ret. Qed.

Lemma steady_tryConnect d exs fuel :
  (forall k, steady (tryConnectMX X W fuel d exs k))
  /\ (forall k ex ips i retry, steady (tryConnectIP X W fuel d exs k ex ips i retry)).
Proof.
  induction fuel as [|fuel [IHmx IHip]].
  - split; intros; apply steady_outOfFuel.
  - split.
    + intros k. cbn [tryConnectMX].
      repeat first [ apply IHmx | apply IHip | steady_step ].
    + intros k ex ips i retry. cbn [tryConnectIP].
      repeat first [ apply IHmx | apply IHip | steady_step ].
Qed.

Lemma steady_getConnection fuel d : steady (getConnection X W fuel d).
Proof.
  unfold getConnection. repeat steady_step.
  apply (proj1 (steady_tryConnect d exchanges fuel)).
Qed.

Lemma steady_onConnection fuel d r : steady (onConnection X W config fuel d r).
Proof.
  unfold onConnection, releaseDelivery.
  repeat first [ steady_step
               | apply steady_sendCommand
               | apply steady_handleResponseErrorThen, steady_schedule ].
Qed.

Lemma steady_sendNext fuel : steady (sendNext X W config fuel).
Proof.
  unfold sendNext, deliver.
  repeat first [ steady_step
               | apply steady_getConnection
               | apply steady_onConnection ].
Qed.

End Steady.

(** ** What a run may emit *)

Definition emitsOnly {A} (P : Event -> bool) (m : M A) : Prop :=
  forall s a s' tr, m s = Some (a, s', tr) -> Forall (fun e => P e = true) tr.

Lemma emitsOnly_ret {A} P (a : A) : emitsOnly P (ret a).
Proof. intros s a' s' tr H. injection H as _ _ <-. constructor. Qed.

Lemma emitsOnly_bind {A B} P (m : M A) (f : A -> M B) :
  emitsOnly P m -> (forall a, emitsOnly P (f a)) -> emitsOnly P (bind m f).
Proof.
  intros Hm Hf s b s2 tr H. unfold bind in H.
  destruct (m s) as [[[a s1] t1]|] eqn:E1; [|discriminate H].
  destruct (f a s1) as [[[b' s2'] t2]|] eqn:E2; [|discriminate H].
  injection H as _ _ <-. apply Forall_app. split.
  - exact (Hm _ _ _ _ E1).
  - exact (Hf a _ _ _ _ E2).
Qed.

Lemma emitsOnly_emit P (e : Event) : P e = true -> emitsOnly P (emit e).
Proof.
  intros He s a s' tr H. injection H as _ _ <-. constructor; [exact He | constructor].
Qed.

Lemma emitsOnly_fatal P (err : Error.t) :
  P (EmitError err) = true -> emitsOnly P (fatal err).
Proof.
  intros He s a s' tr H. cbv in H. injection H as _ _ <-.
  constructor; [exact He | constructor].
Qed.

Lemma emitsOnly_getState P : emitsOnly P getState.
Proof. intros s a s' tr H. injection H as _ _ <-. constructor. Qed.

Lemma emitsOnly_nextDial P : emitsOnly P nextDial.
Proof. intros s a s' tr H. cbv in H. injection H as _ _ <-. constructor. Qed.

Lemma emitsOnly_set_emptyChecks P n : emitsOnly P (set_emptyChecks n).
Proof. intros s a s' tr H. cbv in H. injection H as _ _ <-. constructor. Qed.

Lemma emitsOnly_downgrade P b : emitsOnly P (set_zone_disableStarttls b).
Proof.
  intros s a s' tr H.
  cbv [set_zone_disableStarttls bind getState putState app] in H.
  injection H as _ _ <-. constructor.
Qed.

Lemma emitsOnly_outOfFuel {A} P : emitsOnly P (@outOfFuel A).
Proof. intros s a s' tr H. discriminate H. Qed.

Ltac emits_step :=
  lazymatch goal with
  | |- emitsOnly _ (bind _ _) => apply emitsOnly_bind; [|intros ?]
  | |- emitsOnly _ (ret _) => apply emitsOnly_ret
  | |- emitsOnly _ getState => apply emitsOnly_getState
  | |- emitsOnly _ nextDial => apply emitsOnly_nextDial
  | |- emitsOnly _ (fatal _) => apply emitsOnly_fatal; reflexivity
  | |- emitsOnly _ (set_emptyChecks _) => apply emitsOnly_set_emptyChecks
  | |- emitsOnly _ (set_zone_disableStarttls _) => apply emitsOnly_downgrade
  | |- emitsOnly _ outOfFuel => apply emitsOnly_outOfFuel
  | |- emitsOnly _ (emit _) => apply emitsOnly_emit; reflexivity
  | |- emitsOnly _ (if ?b then _ else _) => destruct b
  | |- emitsOnly _ (match ?x with _ => _ end) => destruct x
  | |- emitsOnly _ (let _ := _ in _) => cbv zeta
  end.

(** Events of the settling of a delivery: its queue command, the bounce
    notifications and the error signal. *)
Definition isSettling (e : Event) : bool :=
  match e with
  | Issue (RELEASE _ _ _) | Issue (DEFER _ _ _ _)
  | Issue (BOUNCE _ _ _ _ _ _ _ _ _) => true
  | Post _ _ | SetTimeout _ | EmitError _ => true
  | _ => false
  end.

Definition isClose (e : Event) : bool :=
  match e with Close => true | _ => false end.

Definition isSchedule (e : Event) : bool :=
  match e with SetImmediateSendNext => true | _ => false end.

Section Layout.

Variable X : Externals.
Variable W : World.
Variable config : Config.t.

Lemma settling_notifyBounce fuel :
  forall body retries, emitsOnly isSettling (notifyBounce W config fuel body retries).
Proof.
  induction fuel as [|fuel IH]; intros body retries; cbn [notifyBounce].
  - apply emitsOnly_outOfFuel.
  - repeat emits_step. apply IH.
Qed.

Lemma settling_handleResponseError fuel d err :
  emitsOnly isSettling (handleResponseError X W config fuel d err).
Proof.
  unfold handleResponseError, handleResponseErrorThen, deferDelivery,
    releaseDelivery, sendBounceMessage, sendCommand.
  repeat first [ emits_step | apply settling_notifyBounce ].
Qed.

(** The settling of a delivery taken by itself: its queue command and
    what follows from the reply, without the scheduling of the next
    [sendNext] that comes in between. *)
Definition settle (fuel : nat) (d : Delivery.t) (r : Error.t + Connection)
  : M unit :=
  match failure X W config d r with
  | Some err => handleResponseError X W config fuel (settled X config d r) err
  | None =>
      a <- releaseDelivery W (settled X config d r) ;;
      match a with
      | Some err => fatal err
      | None => ret tt
      end
  end.

Lemma settling_settle fuel d r : emitsOnly isSettling (settle fuel d r).
Proof.
  unfold settle, releaseDelivery, sendCommand.
  repeat first [ emits_step | apply settling_handleResponseError ].
Qed.

(** [sendNext] schedules its next run in the turn in which the queue
    command is issued, before the reply of the queue is handled. *)
Definition scheduled (m : option (unit * State * list Event))
  : option (unit * State * list Event) :=
  match m with
  | Some (u, s', c :: t) => Some (u, s', c :: SetImmediateSendNext :: t)
  | other => other
  end.

Lemma onConnection_settle fuel d r s :
  onConnection X W config fuel d r s
  = after (prelude X config d r) (scheduled (settle fuel d r s)).
Proof.
  unfold settle, scheduled. destruct r as [err|c].
  - unfold onConnection. cbn [failure settled prelude].
    rewrite handleResponseErrorThen_emit.
    destruct (handleResponseError X W config fuel _ err s) as [[[[] s'] [|e t]]|];
      reflexivity.
  - unfold onConnection. cbn [failure settled prelude].
    fold (sentEnvelope X config d c). run.
    destruct (send W (sentEnvelope X config d c)) as [err|].
    + rewrite handleResponseErrorThen_emit.
      destruct (handleResponseError X W config fuel _ err s)
        as [[[[] s'] [|e t]]|]; reflexivity.
    + unfold releaseDelivery. run.
      destruct (ack W _); reflexivity.
Qed.

(** Events that follow from the reply of the queue to the command that
    settles a delivery: the error signal, the posts to the webhook with
    their timers, and the internal bounce. *)
Definition isFollowUp (e : Event) : bool :=
  match e with
  | Issue (BOUNCE _ _ _ _ _ _ _ _ _) => true
  | Post _ _ | SetTimeout _ | EmitError _ => true
  | _ => false
  end.

Lemma followUp_of_reply (posts bounced tail : list Event) :
  Forall (fun e => isNotifier e = true) posts ->
  Forall (fun e => isBounce e = true) bounced ->
  Forall (fun e => isQuiet e = true) tail ->
  Forall (fun e => isSettling e = true) tail ->
  Forall (fun e => isFollowUp e = true) (posts ++ bounced ++ tail).
Proof.
  intros HP HB HQ HS. apply Forall_app. split.
  - revert HP. apply Forall_impl.
    intros e He. destruct e as [[]| | | | | | | | ]; cbv in *; congruence.
  - apply Forall_app. split.
    + revert HB. apply Forall_impl.
      intros e He. destruct e as [[]| | | | | | | | ]; cbv in *; congruence.
    + rewrite Forall_forall in *. intros e Hin.
      specialize (HQ e Hin). specialize (HS e Hin).
      destruct e as [[]| | | | | | | | ]; cbv in *; congruence.
Qed.

(** The run of the connection callback, cut after the scheduling of the
    next [sendNext]. *)
Lemma onConnection_cut fuel d r s :
  (7 <= fuel)%nat ->
  exists s' t,
    onConnection X W config fuel d r s
    = Some (tt, s',
            prelude X config d r
              ++ Issue (verdict X W config d r) :: SetImmediateSendNext :: t)
    /\ settle fuel d r s = Some (tt, s', Issue (verdict X W config d r) :: t)
    /\ Forall (fun e => isFollowUp e = true) t.
Proof.
  intros Hfuel.
  destruct (onConnection_shape X W config fuel d r s Hfuel)
    as (s0 & posts & tail & E & HP & HT & _).
  rewrite E. rewrite onConnection_settle in E.
  destruct (settle fuel d r s) as [[[[] s'] t0]|] eqn:Es; [|discriminate E].
  pose proof (settling_settle fuel d r _ _ _ _ Es) as Ht0.
  destruct t0 as [|c t]; cbn [scheduled after] in E.
  - injection E as _ E. apply app_inv_head in E. discriminate E.
  - injection E as <- E. apply app_inv_head in E. injection E as -> ->.
    exists s', (posts ++ bounceOf X W config d r ++ tail).
    split; [reflexivity|]. split; [reflexivity|].
    apply followUp_of_reply; [exact HP | apply bounceOf_bounces | exact HT |].
    apply Forall_inv_tail in Ht0.
    apply Forall_app in Ht0. destruct Ht0 as (_ & Ht0).
    apply Forall_app in Ht0. exact (proj2 Ht0).
Qed.

(** X1. On every path of a delivery (accepted, deferred, rejected, queue
    error) the trace of the connection callback is: the call of
    [connection.send] directly followed by the one [connection.close()]
    when a connection was established, then the one [RELEASE] or [DEFER]
    of the delivery, then, in the same turn, the one [setImmediate] that
    schedules the next [sendNext], and only after it what follows from the
    reply of the queue: the error signal, the posts to the webhook, the
    internal bounce.  So an established connection is closed exactly
    once, before any queue command, and the next [sendNext] is scheduled
    exactly once, whatever the queue answers. *)
Theorem delivery_layout fuel d r s :
  (7 <= fuel)%nat ->
  exists s' t,
    let tr := prelude X config d r
                ++ Issue (verdict X W config d r) :: SetImmediateSendNext :: t in
    onConnection X W config fuel d r s = Some (tt, s', tr)
    /\ isAck (Issue (verdict X W config d r)) = true
    /\ Forall (fun e => isFollowUp e = true) t
    /\ count isClose tr = match r with inl _ => 0%nat | inr _ => 1%nat end
    /\ count isSchedule tr = 1%nat
    /\ count isAck tr = 1%nat.
Proof.
  intros Hfuel.
  destruct (onConnection_cut fuel d r s Hfuel) as (s' & t & E & _ & Ht).
  exists s', t. cbv zeta. split; [exact E|].
  assert (Hv : isAck (Issue (verdict X W config d r)) = true).
  { unfold verdict. destruct (failure X W config d r) as [err|];
      [destruct (defers X _ err)|]; reflexivity. }
  split; [exact Hv|]. split; [exact Ht|].
  assert (Hc : count isClose t = O).
  { apply count_zero_Forall. revert Ht. apply Forall_impl.
    intros e He. destruct e as [[]| | | | | | | | ]; cbv in *; congruence. }
  assert (Hs : count isSchedule t = O).
  { apply count_zero_Forall. revert Ht. apply Forall_impl.
    intros e He. destruct e as [[]| | | | | | | | ]; cbv in *; congruence. }
  assert (Ha : count isAck t = O).
  { apply count_zero_Forall. revert Ht. apply Forall_impl.
    intros e He. destruct e as [[]| | | | | | | | ]; cbv in *; congruence. }
  change (Issue (verdict X W config d r) :: SetImmediateSendNext :: t)
    with ([Issue (verdict X W config d r)] ++ [SetImmediateSendNext] ++ t).
  rewrite !count_app, Hc, Hs, Ha.
  assert (Hv1 : count isAck [Issue (verdict X W config d r)] = 1%nat)
    by (unfold count; cbn [filter]; rewrite Hv; reflexivity).
  assert (Hv2 : count isClose [Issue (verdict X W config d r)] = 0%nat)
    by reflexivity.
  assert (Hv3 : count isSchedule [Issue (verdict X W config d r)] = 0%nat)
    by reflexivity.
  rewrite Hv1, Hv2, Hv3. destruct r; repeat split; reflexivity.
Qed.

(** X2. The drain flag is final within a run of [sendNext]: with
    [closing] set, [sendNext] issues nothing and changes nothing; no run
    clears the flag; and whenever a run emits ['error'] (a failed [GET],
    [RELEASE], [DEFER] or [BOUNCE]), the flag is set at its end. *)
Theorem drain_flag_final fuel s u s' tr :
  sendNext X W config fuel s = Some (u, s', tr) ->
  (closing s = true -> s' = s /\ tr = [])
  /\ (closing s' = false -> closing s = false)
  /\ (forall err, In (EmitError err) tr -> closing s' = true).
Proof.
  intros H. destruct (steady_sendNext X W config fuel _ _ _ _ H) as (_ & Hc & He).
  split; [|split].
  - intros Hcl. unfold sendNext in H. run_in H. rewrite Hcl in H.
    injection H as _ <- <-. split; reflexivity.
  - intros Hf. destruct (closing s) eqn:E; [|reflexivity].
    rewrite Hc in Hf by reflexivity. discriminate Hf.
  - intros err Hin. apply He. exists err. exact Hin.
Qed.

(** X3. A run of [sendNext] leaves the shared zone as it was, except that
    it may have set [disableStarttls]: it never clears that flag and never
    touches the name, host, port, TLS mode or credentials of the zone. *)
Theorem zone_only_loses_starttls fuel s u s' tr :
  sendNext X W config fuel s = Some (u, s', tr) ->
  (zone s' = zone s \/ zone s' = Zone.set_disableStarttls true (zone s))
  /\ (Zone.disableStarttls (zone s) = true ->
      Zone.disableStarttls (zone s') = true)
  /\ Zone.name (zone s') = Zone.name (zone s)
  /\ Zone.host (zone s') = Zone.host (zone s)
  /\ Zone.port (zone s') = Zone.port (zone s)
  /\ Zone.secure (zone s') = Zone.secure (zone s)
  /\ Zone.authMethod (zone s') = Zone.authMethod (zone s)
  /\ Zone.auth (zone s') = Zone.auth (zone s).
Proof.
  intros H. destruct (steady_sendNext X W config fuel _ _ _ _ H) as (Hz & _).
  split; [exact Hz|]. split; [apply zoneLe_flag; exact Hz|].
  destruct Hz as [->| ->]; repeat split; reflexivity.
Qed.

End Layout.

(** ** Where and how the dial loop connects *)

Section DialSafety.

Variable X : Externals.
Variable W : World.

(** The connection nonce [delivery.id + '.' + delivery.seq]. *)
Definition nonce (d : Delivery.t) : string :=
  Delivery.id d +++ "." +++ Delivery.seq d.

(** [o] goes to an address that [resolveIp] gave for one of [exs]. *)
Definition targetOk (exs : list Exchange.t) (o : Options.t) : Prop :=
  exists ex ips,
    In ex exs
    /\ resolveIp W (Exchange.exchange ex) = IpList ips
    /\ In (Options.host o) ips
    /\ Options.servername o = Exchange.exchange ex
    /\ Options.tls_servername o = Exchange.exchange ex.

(** [o] is made from the zone [z] for the delivery [d]. *)
Definition optionsOk (z : Zone.t) (d : Delivery.t) (o : Options.t) : Prop :=
  Options.port o = Zone.port z
  /\ Options.secure o = Zone.secure z
  /\ Options.authMethod o = Zone.authMethod z
  /\ Options.opportunisticTLS o = true
  /\ Options.tls_rejectUnauthorized o = false
  /\ Options.requireTLS o = negb (Options.ignoreTLS o)
  /\ (Zone.disableStarttls z = true -> Options.ignoreTLS o = true)
  /\ Options.name o
     = za_name (getAddress X (nonce d) (net_isIPv6 X (Options.host o)))
  /\ Options.localAddress o
     = za_address (getAddress X (nonce d) (net_isIPv6 X (Options.host o))).

Definition dialOk (z : Zone.t) (d : Delivery.t) (exs : list Exchange.t)
           (e : Event) : Prop :=
  match e with
  | Dial o => targetOk exs o /\ optionsOk z d o
  | Login _ | Close => True
  | _ => False
  end.

Definition isLogin (e : Event) : bool :=
  match e with Login _ => true | _ => false end.

(** The connection that is handed over is the last one dialled. *)
Definition handsOver (r : Error.t + Connection) (tr : list Event) : Prop :=
  match r with
  | inl _ => True
  | inr c =>
      exists pre post,
        tr = pre ++ Dial (options c) :: post
        /\ Forall (fun e => isLogin e = true) post
  end.

Lemma optionsOk_le z z' d o : zoneLe z z' -> optionsOk z' d o -> optionsOk z d o.
Proof.
  intros [->| ->] H; [exact H|].
  destruct H as (Hp & Hs & Ha & Ho & Hr & Hq & Hf & Hn & Hl).
  repeat split; try assumption.
  intros _. apply Hf. reflexivity.
Qed.

Lemma dialOk_le z z' d exs tr :
  zoneLe z z' -> Forall (dialOk z' d exs) tr -> Forall (dialOk z d exs) tr.
Proof.
  intros Hz. apply Forall_impl. intros [ |o| | | | | | | ]; cbn; try tauto.
  intros [Ht Ho]. split; [exact Ht | eapply optionsOk_le; eassumption].
Qed.

Lemma attempt_ok d exs ex ips i retry s :
  In ex exs ->
  resolveIp W (Exchange.exchange ex) = IpList ips ->
  0 <= attemptIndex i retry < Z.of_nat (List.length ips) ->
  dialOk (zone s) d exs (Dial (attemptOptions X d ex ips i retry s)).
Proof.
  intros Hex Hips Hi. split.
  - exists ex, ips. split; [exact Hex|]. split; [exact Hips|].
    split; [|split; reflexivity].
    cbn [attemptOptions dialOptions Options.host]. unfold attemptIp.
    apply nth_In. lia.
  - repeat split. cbn. intros ->. reflexivity.
Qed.

Lemma handsOver_cons o r tr : handsOver r tr -> handsOver r (Dial o :: tr).
Proof.
  destruct r as [err|c]; [trivial|].
  intros (pre & post & -> & HF). exists (Dial o :: pre), post.
  split; [reflexivity | exact HF].
Qed.

Lemma tryConnect_safe d exs fuel :
  (forall k s r s' tr,
      tryConnectMX X W fuel d exs k s = Some (r, s', tr) ->
      Forall (dialOk (zone s) d exs) tr /\ handsOver r tr)
  /\ (forall k ex ips i retry s r s' tr,
         In ex exs ->
         resolveIp W (Exchange.exchange ex) = IpList ips ->
         -1 <= i ->
         (retry = true -> 0 <= i < Z.of_nat (List.length ips)) ->
         tryConnectIP X W fuel d exs k ex ips i retry s = Some (r, s', tr) ->
         Forall (dialOk (zone s) d exs) tr /\ handsOver r tr).
Proof.
  induction fuel as [|fuel [IHmx IHip]].
  { split; intros; discriminate. }
  split.
  - intros k s r s' tr H. cbn [tryConnectMX] in H.
    destruct (List.length exs <=? k)%nat eqn:E.
    { injection H as <- _ <-. split; [constructor | exact I]. }
    apply Nat.leb_gt in E.
    pose proof (nth_In exs noExchange E) as Hin.
    destruct (resolveIp W (Exchange.exchange (nth k exs noExchange)))
      as [err|[|ip ips]] eqn:Hr.
    + eapply IHmx. exact H.
    + eapply IHmx. exact H.
    + refine (IHip (S k) _ (ip :: ips) (-1) false s r s' tr Hin Hr _ _ H);
        [lia | discriminate].
  - intros k ex ips i retry s r s' tr Hex Hips Hi Hretry H.
    rewrite tryConnectIP_step in H.
    destruct (negb retry && (Z.of_nat (List.length ips) - 1 <=? i)) eqn:E.
    { eapply IHmx. exact H. }
    assert (Hrange : 0 <= attemptIndex i retry < Z.of_nat (List.length ips)).
    { unfold attemptIndex. destruct retry; [apply Hretry; reflexivity|].
      cbn [negb andb] in E. apply Z.leb_gt in E. lia. }
    pose proof (attempt_ok d exs ex ips i retry s Hex Hips Hrange) as Hhead.
    cbv zeta in H.
    destruct (connect W (dials s) (attemptOptions X d ex ips i retry s))
      as [err|].
    + assert (Hnext :
          forall retry' s1,
            zoneLe (zone s) (zone s1) ->
            after [Dial (attemptOptions X d ex ips i retry s)]
                  (tryConnectIP X W fuel d exs k ex ips (attemptIndex i retry)
                                retry' s1)
            = Some (r, s', tr) ->
            Forall (dialOk (zone s) d exs) tr /\ handsOver r tr).
      { intros retry' s1 Hz H1.
        destruct (tryConnectIP X W fuel d exs k ex ips _ retry' s1)
          as [[[r1 s1'] t1]|] eqn:E1; [|discriminate H1].
        injection H1 as <- _ <-.
        assert (Hi' : -1 <= attemptIndex i retry) by lia.
        destruct (IHip k ex ips (attemptIndex i retry) retry' s1 r1 s1' t1
                       Hex Hips Hi' (fun _ => Hrange) E1) as [HF HO].
        split.
        - constructor; [exact Hhead | eapply dialOk_le; eassumption].
        - apply handsOver_cons. exact HO. }
      destruct (Error.code err =? "ETLS")%string.
      * eapply Hnext; [|exact H]. right. reflexivity.
      * eapply Hnext; [|exact H]. left. reflexivity.
    + destruct (Zone.auth (zone s)) as [cr|].
      * destruct (login W (dials s) _).
        -- injection H as <- _ <-. split; [|exact I].
           constructor; [exact Hhead | repeat constructor].
        -- injection H as <- _ <-. split.
           ++ constructor; [exact Hhead | repeat constructor].
           ++ exists [], [Login cr]. split; [reflexivity | repeat constructor].
      * injection H as <- _ <-. split.
        -- constructor; [exact Hhead | constructor].
        -- exists [], []. split; [reflexivity | constructor].
Qed.

End DialSafety.

(** The hosts dialled along a trace, in order. *)
Definition hosts (tr : list Event) : list string :=
  flat_map (fun e => match e with Dial o => [Options.host o] | _ => [] end) tr.

(** Every connection attempt of [W] fails before it is established, with
    an error other than ['ETLS']. *)
Definition refused (W : World) : Prop :=
  forall n o, exists err, connect W n o = Some err /\ Error.code err <> "ETLS".

Section DialResults.

Variable X : Externals.
Variable W : World.

Lemma getConnection_safe fuel d s r s' tr :
  getConnection X W fuel d s = Some (r, s', tr) ->
  match resolved W s d with
  | MxList exs => Forall (dialOk X W (zone s) d exs) tr /\ handsOver r tr
  | _ => tr = []
  end.
Proof.
  rewrite getConnection_unfold. destruct (resolved W s d) as [err| |exs].
  - intros H. injection H as _ _ <-. reflexivity.
  - intros H. injection H as _ _ <-. reflexivity.
  - apply (proj1 (tryConnect_safe X W d exs fuel)).
Qed.

(** X4. Every connection that [getConnection] opens goes to an address
    that [resolveIp] returned for one of the exchanges in use, with that
    exchange as server name (also for TLS); the exchanges are the zone's
    [host] alone when it is pinned, and the answer of [resolveMx]
    otherwise. *)
Theorem dial_targets fuel d s :
  starttlsOnly W ->
  (dialFuel W s d <= fuel)%nat ->
  exists r s' tr,
    getConnection X W fuel d s = Some (r, s', tr)
    /\ forall o,
        In (Dial o) tr ->
        (exists ex ips,
            resolveIp W (Exchange.exchange ex) = IpList ips
            /\ In (Options.host o) ips
            /\ Options.servername o = Exchange.exchange ex
            /\ Options.tls_servername o = Exchange.exchange ex
            /\ (Zone.host (zone s) <> "" ->
                Exchange.exchange ex = Zone.host (zone s))
            /\ (Zone.host (zone s) = "" ->
                exists exs,
                  resolveMx W (Delivery.domain d) = MxList exs /\ In ex exs)).
Proof.
  intros Htls Hfuel.
  destruct (getConnection_total X W fuel d s Htls Hfuel) as (r & s' & tr & E & _).
  exists r, s', tr. split; [exact E|].
  intros o Hin. apply getConnection_safe in E.
  destruct (resolved W s d) as [err| |exs] eqn:Hres;
    try (subst tr; destruct Hin).
  destruct E as [HF _]. rewrite Forall_forall in HF.
  destruct (HF _ Hin) as [(ex & ips & Hex & Hips & Hhost & Hsn & Htsn) _].
  exists ex, ips. repeat (split; [assumption|]).
  unfold resolved in Hres. split.
  - intros Hpinned. apply truthy_nonempty in Hpinned. rewrite Hpinned in Hres.
    injection Hres as <-. destruct Hex as [<-|[]]. reflexivity.
  - intros Hfree. unfold JS.truthy in Hres. rewrite Hfree in Hres.
    cbn in Hres. exists exs. split; assumption.
Qed.

(** X5. Every connection that [getConnection] opens takes its port, TLS
    mode and AUTH method from the zone, is opportunistic about TLS and
    never validates certificates, has [requireTLS] and [ignoreTLS] opposite
    to each other, ignores STARTTLS whenever the zone had [disableStarttls]
    set at the start, and uses the local name and address that
    [zone.getAddress] gives for the nonce [id.seq] and the address family
    of the host. *)
Theorem dial_options fuel d s :
  starttlsOnly W ->
  (dialFuel W s d <= fuel)%nat ->
  exists r s' tr,
    getConnection X W fuel d s = Some (r, s', tr)
    /\ forall o,
        In (Dial o) tr ->
        Options.port o = Zone.port (zone s)
        /\ Options.secure o = Zone.secure (zone s)
        /\ Options.authMethod o = Zone.authMethod (zone s)
        /\ Options.opportunisticTLS o = true
        /\ Options.tls_rejectUnauthorized o = false
        /\ Options.requireTLS o = negb (Options.ignoreTLS o)
        /\ (Zone.disableStarttls (zone s) = true -> Options.ignoreTLS o = true)
        /\ Options.name o
           = za_name (getAddress X (Delivery.id d +++ "." +++ Delivery.seq d)
                                 (net_isIPv6 X (Options.host o)))
        /\ Options.localAddress o
           = za_address (getAddress X (Delivery.id d +++ "." +++ Delivery.seq d)
                                    (net_isIPv6 X (Options.host o))).
Proof.
  intros Htls Hfuel.
  destruct (getConnection_total X W fuel d s Htls Hfuel) as (r & s' & tr & E & _).
  exists r, s', tr. split; [exact E|].
  intros o Hin. apply getConnection_safe in E.
  destruct (resolved W s d) as [err| |exs]; try (subst tr; destruct Hin).
  destruct E as [HF _]. rewrite Forall_forall in HF.
  destruct (HF _ Hin) as [_ Ho]. exact Ho.
Qed.

(** X6. When [getConnection] hands over a connection, it is the last one
    it opened: no connection is opened after it, and all it may still do
    is the login. *)
Theorem connection_is_last_dial fuel d s :
  starttlsOnly W ->
  (dialFuel W s d <= fuel)%nat ->
  exists r s' tr,
    getConnection X W fuel d s = Some (r, s', tr)
    /\ forall c,
        r = inr c ->
        exists pre post,
          tr = pre ++ Dial (options c) :: post
          /\ Forall (fun e => isLogin e = true) post.
Proof.
  intros Htls Hfuel.
  destruct (getConnection_total X W fuel d s Htls Hfuel)
    as (r & s' & tr & E & Hdial).
  exists r, s', tr. split; [exact E|].
  intros c ->. pose proof E as E'. apply getConnection_safe in E'.
  rewrite getConnection_unfold in E.
  destruct (resolved W s d) as [err| |exs]; try discriminate E.
  destruct E' as [_ HO]. exact HO.
Qed.

End DialResults.

Section FallThrough.

Variable X : Externals.
Variable W : World.

(** The addresses of the exchanges, in the order of the exchanges and,
    for each, in the order of its addresses; an exchange that does not
    resolve contributes none. *)
Definition addresses (exs : list Exchange.t) : list string :=
  flat_map (fun ex =>
              match resolveIp W (Exchange.exchange ex) with
              | IpList l => l
              | IpError _ => []
              end) exs.

(** The error of [tryConnectMX] when no exchange is left. *)
Definition noMxLeft (d : Delivery.t) : Error.t :=
  {| Error.message := "Can't connect to MX";
     Error.response :=
       Some ("450 Can't connect to any MX server for " +++ Delivery.domain d);
     Error.code := "" |}.

Definition exhausts (d : Delivery.t) (s : State) (reached : list string)
           (m : option ((Error.t + Connection) * State * list Event)) : Prop :=
  exists s' tr,
    m = Some (inl (noMxLeft d), s', tr)
    /\ hosts tr = reached
    /\ zone s' = zone s.

Lemma exhausts_after d s s1 o reached m :
  zone s1 = zone s ->
  exhausts d s1 reached m ->
  exhausts d s (Options.host o :: reached) (after [Dial o] m).
Proof.
  intros Hz (s' & tr & -> & Hh & Hz'). exists s', (Dial o :: tr).
  split; [reflexivity|]. split.
  - change (hosts (Dial o :: tr)) with (Options.host o :: hosts tr).
    rewrite Hh. reflexivity.
  - rewrite Hz'. exact Hz.
Qed.

Lemma tryConnect_exhausts d exs :
  refused W ->
  forall fuel,
    (forall k s,
        (mxBudget W (skipn k exs) <= fuel)%nat ->
        exhausts d s (addresses (skipn k exs)) (tryConnectMX X W fuel d exs k s))
    /\ (forall k ex ips i s,
           -1 <= i ->
           (Z.to_nat (Z.of_nat (List.length ips) - 1 - i) + 1
            + mxBudget W (skipn k exs) <= fuel)%nat ->
           exhausts d s (skipn (Z.to_nat (i + 1)) ips ++ addresses (skipn k exs))
                    (tryConnectIP X W fuel d exs k ex ips i false s)).
Proof.
  intros Href.
  assert (Hpos : forall l, (1 <= mxBudget W l)%nat)
    by (intros [|e l]; simpl; lia).
  induction fuel as [|fuel [IHmx IHip]].
  { split.
    - intros k s Hb. specialize (Hpos (skipn k exs)). lia.
    - intros k ex ips i s _ Hb. lia. }
  split.
  - intros k s Hb. cbn [tryConnectMX].
    destruct (List.length exs <=? k)%nat eqn:E.
    { apply Nat.leb_le in E. rewrite skipn_all2 by exact E.
      exists s, []. repeat split. }
    apply Nat.leb_gt in E.
    rewrite (skipn_nth noExchange exs k E), mxBudget_cons in Hb.
    rewrite (skipn_nth noExchange exs k E).
    cbn [addresses flat_map]. fold (addresses (skipn (S k) exs)).
    unfold ipCount in Hb.
    destruct (resolveIp W (Exchange.exchange (nth k exs noExchange)))
      as [err|[|ip ips]].
    + apply IHmx. lia.
    + apply IHmx. cbn [List.length] in Hb. lia.
    + apply (IHip (S k) (nth k exs noExchange) (ip :: ips) (-1) s); [lia|].
      cbn [List.length] in *. lia.
  - intros k ex ips i s Hi Hb. rewrite tryConnectIP_step. cbn [negb andb].
    destruct (Z.of_nat (List.length ips) - 1 <=? i) eqn:E.
    { apply Z.leb_le in E. rewrite skipn_all2 by lia.
      apply IHmx. lia. }
    apply Z.leb_gt in E. cbv zeta.
    destruct (Href (dials s) (attemptOptions X d ex ips i false s))
      as (err & -> & Hcode).
    apply String.eqb_neq in Hcode. rewrite Hcode.
    assert (Hlt : (Z.to_nat (i + 1) < List.length ips)%nat) by lia.
    rewrite (skipn_nth "" ips (Z.to_nat (i + 1)) Hlt).
    replace (S (Z.to_nat (i + 1))) with (Z.to_nat (i + 1 + 1)) by lia.
    apply (exhausts_after d s (bump s)
             (attemptOptions X d ex ips i false s)); [reflexivity|].
    apply IHip; [unfold attemptIndex; lia|].
    unfold attemptIndex. lia.
Qed.

(** X7. When every connection attempt is refused, [getConnection] tries
    each address of each exchange exactly once, exchange by exchange in
    the order of [resolveMx] and address by address in the order of
    [resolveIp], skipping exchanges that do not resolve, and then fails
    with the synthesised reply [450 Can't connect to any MX server for]
    the domain; the zone is left untouched. *)
Theorem fall_through_order fuel d s exs :
  refused W ->
  resolved W s d = MxList exs ->
  (mxBudget W exs <= fuel)%nat ->
  exists s' tr,
    getConnection X W fuel d s = Some (inl (noMxLeft d), s', tr)
    /\ hosts tr = addresses exs
    /\ zone s' = zone s.
Proof.
  intros Href Hres Hfuel. rewrite getConnection_unfold, Hres.
  apply (proj1 (tryConnect_exhausts d exs Href fuel) O s). exact Hfuel.
Qed.

End FallThrough.

(** ** The webhook notifier in any world *)

(** The trace of a notifier that makes [n] retries, the first of them
    numbered [from + 1]: a POST, then for each retry its timer and a POST. *)
Fixpoint notifierTrace (post : Event) (from n : nat) : list Event :=
  match n with
  | O => [post]
  | S n =>
      post :: SetTimeout (Z.of_nat (S from) ^ 2 * 1000)
           :: notifierTrace post (S from) n
  end.

(** The number of POSTs that fail in a row from the POST numbered [r] on,
    counting at most [budget] of them. *)
Fixpoint failuresFrom (W : World) (budget r : nat) : nat :=
  match budget with
  | O => O
  | S b => if webhook_fails W r then S (failuresFrom W b (S r)) else O
  end.

Lemma failuresFrom_le W budget : forall r, (failuresFrom W budget r <= budget)%nat.
Proof.
  induction budget as [|b IH]; intros r; cbn [failuresFrom]; [lia|].
  destruct (webhook_fails W r); [specialize (IH (S r)) |]; lia.
Qed.

Lemma failuresFrom_failed W budget :
  forall r k, (k < failuresFrom W budget r)%nat -> webhook_fails W (r + k) = true.
Proof.
  induction budget as [|b IH]; intros r k Hk; cbn [failuresFrom] in Hk; [lia|].
  destruct (webhook_fails W r) eqn:E; [|lia].
  destruct k as [|k]; [rewrite Nat.add_0_r; exact E|].
  replace (r + S k)%nat with (S r + k)%nat by lia. apply IH. lia.
Qed.

Lemma failuresFrom_stop W budget :
  forall r,
    (failuresFrom W budget r < budget)%nat ->
    webhook_fails W (r + failuresFrom W budget r) = false.
Proof.
  induction budget as [|b IH]; intros r Hk; cbn [failuresFrom] in *; [lia|].
  destruct (webhook_fails W r) eqn:E.
  - replace (r + S (failuresFrom W b (S r)))%nat
      with (S r + failuresFrom W b (S r))%nat by lia.
    apply IH. lia.
  - rewrite Nat.add_0_r. exact E.
Qed.

Section Notifier.

Variable W : World.
Variable config : Config.t.

Lemma notifyBounce_trace body s :
  forall budget fuel retries,
    (retries + budget = 6)%nat ->
    (budget + 1 <= fuel)%nat ->
    notifyBounce W config fuel body retries s
    = Some (tt, s,
            notifierTrace (Post (Config.bounces_url config) body) retries
                          (failuresFrom W budget retries)).
Proof.
  induction budget as [|b IH]; intros fuel retries Hr Hfuel;
    (destruct fuel as [|fuel]; [lia|]); cbn [notifyBounce failuresFrom]; run.
  - assert (retries = 6%nat) as -> by lia.
    destruct (webhook_fails W 6); reflexivity.
  - destruct (webhook_fails W retries); [|reflexivity].
    assert (Hle : (retries <=? 5)%nat = true) by (apply Nat.leb_le; lia).
    rewrite Hle. run. rewrite (IH fuel (S retries)) by lia. reflexivity.
Qed.

(** X8. In every world the webhook notifier posts, and after each failed
    POST sets a timer of [n * n] seconds for the retry numbered [n], until
    a POST succeeds or six retries are used up: [n + 1] POSTs and [n]
    timers when the first [n <= 6] POSTs fail, and nothing else.  It
    never touches the worker state. *)
Theorem notifier_stops_at_first_success fuel body s :
  (7 <= fuel)%nat ->
  let n := failuresFrom W 6 0 in
  notifyBounce W config fuel body 0 s
  = Some (tt, s, notifierTrace (Post (Config.bounces_url config) body) 0 n)
  /\ (n <= 6)%nat
  /\ (forall k, (k < n)%nat -> webhook_fails W k = true)
  /\ ((n < 6)%nat -> webhook_fails W n = false)
  /\ count isPost (notifierTrace (Post (Config.bounces_url config) body) 0 n)
     = S n.
Proof.
  intros Hfuel n. split; [|split; [|split; [|split]]].
  - apply (notifyBounce_trace body s 6 fuel 0); lia.
  - apply failuresFrom_le.
  - intros k Hk. apply (failuresFrom_failed W 6 0 k Hk).
  - intros Hn. apply (failuresFrom_stop W 6 0 Hn).
  - generalize 0%nat at 1. induction n as [|n IH]; intros from;
      cbn [notifierTrace]; [reflexivity|].
    change (count isPost (Post (Config.bounces_url config) body
                            :: SetTimeout (Z.of_nat (S from) ^ 2 * 1000)
                            :: notifierTrace (Post (Config.bounces_url config) body)
                                 (S from) n))
      with (S (count isPost (notifierTrace (Post (Config.bounces_url config) body)
                               (S from) n))).
    rewrite IH. reflexivity.
Qed.

End Notifier.

(** ** A queue that refuses the command of a delivery *)

Section QueueFailure.

Variable X : Externals.
Variable W : World.
Variable config : Config.t.

(** The state after [this.closing = true]. *)
Definition closed (s : State) : State :=
  {| zone := zone s; closing := true; emptyChecks := emptyChecks s;
     dials := dials s |}.

(** X9. When the queue answers the [RELEASE] or [DEFER] of a delivery
    with an error, the worker only sets [closing] and emits ['error']:
    after a permanent reject neither the webhook is posted to nor a
    [BOUNCE] issued, whatever the configuration; the next [sendNext] is
    still scheduled, in the turn of the command and so before the
    error. *)
Theorem refused_command_is_fatal fuel d r s err :
  ack W (verdict X W config d r) = Some err ->
  onConnection X W config fuel d r s
  = Some (tt, closed s,
          prelude X config d r
          ++ [Issue (verdict X W config d r); SetImmediateSendNext;
              EmitError err]).
Proof.
  intros Hack. rewrite onConnection_settle. unfold settle, verdict in *.
  destruct (failure X W config d r) as [e|].
  - unfold handleResponseError, handleResponseErrorThen.
    fold (defers X (settled X config d r) e).
    destruct (defers X (settled X config d r) e).
    + unfold deferDelivery. run. fold (deferCommand (settled X config d r)).
      rewrite Hack. reflexivity.
    + unfold releaseDelivery. run.
      fold (releaseCommand (settled X config d r)).
      rewrite Hack. reflexivity.
  - unfold releaseDelivery. run. fold (releaseCommand (settled X config d r)).
    rewrite Hack. reflexivity.
Qed.

End QueueFailure.

(** ** The order of the DKIM signatures and the place of the spam status *)

Section Signing.

Variable X : Externals.
Variable config : Config.t.

(** The [DKIM-Signature] lines for [keys] above the block [h], from top
    to bottom: the line of a key is signed over the block that holds the
    lines of the keys after it. *)
Fixpoint signatures (dkim : Delivery.Dkim) (keys : list Delivery.DkimKey)
         (h : Headers.t) : Headers.t :=
  match keys with
  | [] => []
  | key :: rest =>
      let below := signatures dkim rest h in
      match dkimSign_sign X (below ++ h) (Delivery.hashAlgo dkim)
                          (Delivery.bodyHash dkim) key with
      | Some l =>
          if JS.truthy l
          then {| Headers.key := "dkim-signature"; Headers.line := l |} :: below
          else below
      | None => below
      end
  end.

Lemma signatures_fold dkim keys :
  forall d,
    fold_left (signWith X dkim) (rev keys) d
    = Delivery.with_headers (signatures dkim keys (Delivery.headers d)
                               ++ Delivery.headers d) d.
Proof.
  induction keys as [|key rest IH]; intros d.
  - symmetry. apply with_headers_id.
  - cbn [rev]. rewrite fold_left_app. cbn [fold_left]. rewrite IH.
    unfold signWith. cbn [signatures Delivery.with_headers Delivery.headers].
    destruct (dkimSign_sign X _ _ _ key) as [l|]; [|reflexivity].
    destruct (JS.truthy l); reflexivity.
Qed.

Lemma signatures_length dkim keys h :
  (List.length (signatures dkim keys h) <= List.length keys)%nat.
Proof.
  induction keys as [|key rest IH]; cbn [signatures List.length]; [lia|].
  destruct (dkimSign_sign X _ _ _ key) as [l|]; [|lia].
  destruct (JS.truthy l); cbn [List.length]; lia.
Qed.

(** X10. [signMessage] leaves a delivery without DKIM data as it is.
    Otherwise it puts above the block one [DKIM-Signature] line for each
    key whose signature is not empty, in the order of the key list (the
    first key on top), each signed over the block that already holds the
    lines of the later keys; the rest of the block and of the delivery is
    unchanged. *)
Theorem signatures_in_key_order (d : Delivery.t) :
  match Delivery.dkim d with
  | None => signMessage X d = d
  | Some dkim =>
      let sigs := signatures dkim (Delivery.keys dkim) (Delivery.headers d) in
      signMessage X d = Delivery.with_headers (sigs ++ Delivery.headers d) d
      /\ (List.length sigs <= List.length (Delivery.keys dkim))%nat
      /\ Forall (fun l => Headers.key l = "dkim-signature") sigs
  end.
Proof.
  unfold signMessage. destruct (Delivery.dkim d) as [dkim|]; [|reflexivity].
  cbv zeta. split; [apply signatures_fold|]. split; [apply signatures_length|].
  induction (Delivery.keys dkim) as [|key rest IH]; cbn [signatures];
    [constructor|].
  destruct (dkimSign_sign X _ _ _ key) as [l|]; [|exact IH].
  destruct (JS.truthy l); [constructor; [reflexivity | exact IH] | exact IH].
Qed.

(** The line that [addSpamStatus] appends. *)
Definition spamLine (sp : Delivery.Spam) (def : Delivery.SpamDefault)
  : Headers.HeaderLine :=
  {| Headers.key := "x-zone-spam-status";
     Headers.line := foldLines X ("X-Zone-Spam-Status: " +++ spamStatus sp def) |}.

(** X11. On an established connection the block that is built for the
    wire is, from top to bottom: the DKIM signatures, the worker's
    [Received] line, the headers that came with the delivery in their
    order, and last the [X-Zone-Spam-Status] line, which is there exactly
    when the delivery carries [spam.default]. *)
Theorem wire_block_order (d : Delivery.t) (c : Connection) :
  let d' := addSpamStatus X d in
  let bottom :=
    match Delivery.spam d with
    | Some sp =>
        match Delivery.default sp with
        | Some def => [spamLine sp def]
        | None => []
        end
    | None => []
    end in
  exists sigs,
    Delivery.headers (wireHeaders X config d' c)
    = sigs ++ receivedLine X d' (Options.name (options c))
           :: Delivery.headers d ++ bottom
    /\ Forall (fun l => Headers.key l = "dkim-signature") sigs.
Proof.
  intros d' bottom.
  destruct (wireHeaders_shape X config d' c) as (sigs & E & HS & _).
  exists sigs. split; [|exact HS].
  rewrite E. cbn [Delivery.with_headers Delivery.headers]. do 2 f_equal.
  unfold d', bottom, addSpamStatus.
  destruct (Delivery.spam d) as [sp|]; [|symmetry; apply app_nil_r].
  destruct (Delivery.default sp) as [def|]; [|symmetry; apply app_nil_r].
  reflexivity.
Qed.

End Signing.

(** ** The back-off on an empty queue *)

(** [Math.min(Math.pow(emptyChecks, 2), 1000) * 10], in milliseconds. *)
Definition backoff (emptyChecks : nat) : Z :=
  Z.min (Z.of_nat emptyChecks ^ 2) 1000 * 10.

(** The trace of [n] polls of an empty queue in a row, the counter being
    at [emptyChecks] before the first. *)
Fixpoint backoffTrace (emptyChecks n : nat) : list Event :=
  match n with
  | O => []
  | S n =>
      Issue GET :: SetTimeout (backoff (S emptyChecks))
                :: backoffTrace (S emptyChecks) n
  end.

(** The queue has no job: [GET] answers nothing, or a delivery without id. *)
Definition emptyQueue (W : World) : Prop :=
  get_reply W = GetData None
  \/ exists d, get_reply W = GetData (Some d) /\ Delivery.id d = "".

Definition keepsCount {A} (m : M A) : Prop :=
  forall s a s' tr, m s = Some (a, s', tr) -> emptyChecks s' = emptyChecks s.

Lemma keepsCount_ret {A} (a : A) : keepsCount (ret a).
Proof. intros s a' s' tr H. injection H as _ <- _. reflexivity. Qed.

Lemma keepsCount_bind {A B} (m : M A) (f : A -> M B) :
  keepsCount m -> (forall a, keepsCount (f a)) -> keepsCount (bind m f).
Proof.
  intros Hm Hf s b s2 tr H. unfold bind in H.
  destruct (m s) as [[[a s1] t1]|] eqn:E1; [|discriminate H].
  destruct (f a s1) as [[[b' s2'] t2]|] eqn:E2; [|discriminate H].
  injection H as _ <- _.
  rewrite (Hf a _ _ _ _ E2). exact (Hm _ _ _ _ E1).
Qed.

Lemma keepsCount_emit (e : Event) : keepsCount (emit e).
Proof. intros s a s' tr H. injection H as _ <- _. reflexivity. Qed.

Lemma keepsCount_getState : keepsCount getState.
Proof. intros s a s' tr H. injection H as _ <- _. reflexivity. Qed.

Lemma keepsCount_nextDial : keepsCount nextDial.
Proof. intros s a s' tr H. cbv in H. injection H as _ <- _. reflexivity. Qed.

Lemma keepsCount_fatal (err : Error.t) : keepsCount (fatal err).
Proof. intros s a s' tr H. cbv in H. injection H as _ <- _. reflexivity. Qed.

Lemma keepsCount_downgrade b : keepsCount (set_zone_disableStarttls b).
Proof.
  intros s a s' tr H.
  cbv [set_zone_disableStarttls bind getState putState app] in H.
  injection H as _ <- _. reflexivity.
Qed.

Lemma keepsCount_outOfFuel {A} : keepsCount (@outOfFuel A).
Proof. intros s a s' tr H. discriminate H. Qed.

Ltac keeps_step :=
  lazymatch goal with
  | |- keepsCount (bind _ _) => apply keepsCount_bind; [|intros ?]
  | |- keepsCount (ret _) => apply keepsCount_ret
  | |- keepsCount getState => apply keepsCount_getState
  | |- keepsCount nextDial => apply keepsCount_nextDial
  | |- keepsCount (fatal _) => apply keepsCount_fatal
  | |- keepsCount (set_zone_disableStarttls _) => apply keepsCount_downgrade
  | |- keepsCount outOfFuel => apply keepsCount_outOfFuel
  | |- keepsCount (emit _) => apply keepsCount_emit
  | |- keepsCount (if ?b then _ else _) => destruct b
  | |- keepsCount (match ?x with _ => _ end) => destruct x
  | |- keepsCount (let _ := _ in _) => cbv zeta
  end.

Section Backoff.

Variable X : Externals.
Variable W : World.
Variable config : Config.t.

Lemma keepsCount_notifyBounce fuel :
  forall body retries, keepsCount (notifyBounce W config fuel body retries).
Proof.
  induction fuel as [|fuel IH]; intros body retries; cbn [notifyBounce].
  - apply keepsCount_outOfFuel.
  - repeat keeps_step. apply IH.
Qed.

Lemma keepsCount_handleResponseErrorThen rest fuel d err :
  keepsCount rest ->
  keepsCount (handleResponseErrorThen X W config rest fuel d err).
Proof.
  intros Hrest.
  unfold handleResponseErrorThen, deferDelivery, releaseDelivery,
    sendBounceMessage, sendCommand.
  repeat first [ exact Hrest | keeps_step | apply keepsCount_notifyBounce ].
Qed.

Lemma keepsCount_tryConnect d exs fuel :
  (forall k, keepsCount (tryConnectMX X W fuel d exs k))
  /\ (forall k ex ips i retry,
         keepsCount (tryConnectIP X W fuel d exs k ex ips i retry)).
Proof.
  induction fuel as [|fuel [IHmx IHip]].
  - split; intros; apply keepsCount_outOfFuel.
  - split.
    + intros k. cbn [tryConnectMX].
      repeat first [ apply IHmx | apply IHip | keeps_step ].
    + intros k ex ips i retry. cbn [tryConnectIP].
      repeat first [ apply IHmx | apply IHip | keeps_step ].
Qed.

Lemma keepsCount_deliver fuel d : keepsCount (deliver X W config fuel d).
Proof.
  unfold deliver, getConnection, onConnection, releaseDelivery, sendCommand.
  repeat first [ keeps_step
               | apply keepsCount_handleResponseErrorThen, keepsCount_emit
               | apply (proj1 (keepsCount_tryConnect _ _ _)) ].
Qed.

(** [n] calls of [sendNext], each made when the timer of the one before
    fires. *)
Fixpoint polls (fuel n : nat) : M unit :=
  match n with
  | O => ret tt
  | S n => sendNext X W config fuel ;; polls fuel n
  end.

(** The state after [n] more empty polls. *)
Definition idle (n : nat) (s : State) : State :=
  {| zone := zone s; closing := closing s;
     emptyChecks := (emptyChecks s + n)%nat; dials := dials s |}.

Lemma sendNext_empty fuel s :
  emptyQueue W ->
  closing s = false ->
  sendNext X W config fuel s
  = Some (tt, idle 1 s, [Issue GET; SetTimeout (backoff (S (emptyChecks s)))]).
Proof.
  intros Hq Hc. unfold sendNext. run. rewrite Hc.
  assert (Hidle : idle 1 s
                  = {| zone := zone s; closing := closing s;
                       emptyChecks := S (emptyChecks s); dials := dials s |}).
  { unfold idle. f_equal. lia. }
  rewrite Hidle.
  destruct Hq as [-> | (d & -> & Hid)].
  - run. reflexivity.
  - unfold JS.truthy. rewrite Hid. cbn [String.eqb negb]. run. reflexivity.
Qed.

Lemma backoff_bounds (m : nat) :
  (1 <= m)%nat ->
  10 <= backoff m <= 10000
  /\ backoff m <= backoff (S m)
  /\ ((32 <= m)%nat -> backoff m = 10000).
Proof.
  intros Hm. unfold backoff.
  assert (H1 : 1 <= Z.of_nat m ^ 2) by nia.
  assert (H2 : Z.of_nat m ^ 2 <= Z.of_nat (S m) ^ 2) by nia.
  split; [lia|]. split; [lia|].
  intros H32. assert (1000 <= Z.of_nat m ^ 2) by nia. lia.
Qed.

(** X12. While the queue is empty, each [sendNext] issues one [GET],
    adds one to [emptyChecks] and sets a timer of
    [min(emptyChecks^2, 1000) * 10] ms for the next poll: the waits grow
    from 10 ms, never shrink, and stay at 10 s from the 32nd empty poll
    on. *)
Theorem empty_queue_backoff fuel n s :
  emptyQueue W ->
  closing s = false ->
  polls fuel n s = Some (tt, idle n s, backoffTrace (emptyChecks s) n)
  /\ forall m, (1 <= m)%nat ->
       10 <= backoff m <= 10000
       /\ backoff m <= backoff (S m)
       /\ ((32 <= m)%nat -> backoff m = 10000).
Proof.
  intros Hq Hc. split; [|apply backoff_bounds].
  revert s Hc. induction n as [|n IH]; intros s Hc.
  - unfold idle. cbn [polls ret backoffTrace]. rewrite Nat.add_0_r.
    destruct s; reflexivity.
  - cbn [polls bind]. rewrite (sendNext_empty fuel s Hq Hc).
    rewrite (IH (idle 1 s)) by exact Hc.
    unfold idle. cbn [zone closing emptyChecks dials app backoffTrace].
    replace (emptyChecks s + 1 + n)%nat with (emptyChecks s + S n)%nat by lia.
    replace (emptyChecks s + 1)%nat with (S (emptyChecks s)) by lia.
    reflexivity.
Qed.

(** X13. A [GET] that returns a job resets the back-off: at the end of
    that [sendNext], whatever became of the delivery, [emptyChecks] is 0. *)
Theorem job_resets_backoff fuel s d u s' tr :
  closing s = false ->
  get_reply W = GetData (Some d) ->
  Delivery.id d <> "" ->
  sendNext X W config fuel s = Some (u, s', tr) ->
  emptyChecks s' = O.
Proof.
  intros Hc Hg Hid H. unfold sendNext in H. run_in H.
  rewrite Hc, Hg, (proj2 (truthy_nonempty _) Hid) in H. cbn [negb] in H.
  run_in H.
  destruct (deliver X W config fuel d _) as [[[u1 s1] t1]|] eqn:E;
    [|discriminate H].
  injection H as _ <- _. apply keepsCount_deliver in E. exact E.
Qed.

End Backoff.

(** ** The timer registry ([updateTimer], [getTimers]) *)

Module Timers.

Record TimerData := {
  totalsum : Z;
  totalcount : Z;
  sum : Z;
  count : Z;
  prevsum : Z;
  prevcount : Z;
  created : Z
}.

(** [this.timers]: a [Map] from names to timer data, in insertion order. *)
Definition t := list (string * TimerData).

Fixpoint get (name : string) (timers : t) : option TimerData :=
  match timers with
  | [] => None
  | (k, v) :: rest => if (k =? name)%string then Some v else get name rest
  end.

Definition has (name : string) (timers : t) : bool :=
  match get name timers with Some _ => true | None => false end.

(** [timers.set(name, v)]: in place for a known name, at the end for a
    new one. *)
Fixpoint set (name : string) (v : TimerData) (timers : t) : t :=
  match timers with
  | [] => [(name, v)]
  | (k, x) :: rest =>
      if (k =? name)%string then (k, v) :: rest else (k, x) :: set name v rest
  end.

Definition fresh (now : Z) : TimerData :=
  {| totalsum := 0; totalcount := 0; sum := 0; count := 0; prevsum := 0;
     prevcount := 0; created := now |}.

(** The four updates that [updateTimer] makes to the timer data. *)
Definition add (value : Z) (d : TimerData) : TimerData :=
  {| totalsum := totalsum d + value; totalcount := totalcount d + 1;
     sum := sum d + value; count := count d + 1; prevsum := prevsum d;
     prevcount := prevcount d; created := created d |}.

(** [updateTimer(name, value)]; [now] is the value of [Date.now()]. *)
Definition updateTimer (name : string) (value now : Z) (timers : t) : t :=
  let timers := if has name timers then timers else set name (fresh now) timers in
  match get name timers with
  | Some timerData => set name (add value timerData) timers
  | None => timers
  end.

(** The entry that [getTimers] stores for [value]. *)
Definition rotate (now : Z) (value : TimerData) : TimerData :=
  {| totalsum := totalsum value; totalcount := totalcount value; sum := 0;
     count := 0; prevsum := sum value; prevcount := count value;
     created := now |}.

Fixpoint rotateFrom (i : nat) (now : nat -> Z) (timers : t) : t :=
  match timers with
  | [] => []
  | (name, value) :: rest => (name, rotate (now i) value) :: rotateFrom (S i) now rest
  end.

(** [getTimers()], without its log line, whose rates are floating-point
    numbers; [now i] is the value of [Date.now()] at the entry [i]. *)
Definition getTimers (now : nat -> Z) (timers : t) : t := rotateFrom O now timers.

(** The integers that the log line of an entry is computed from:
    [diffsum] and [diffcount]. *)
Definition diffs (value : TimerData) : Z * Z :=
  (sum value - prevsum value, count value - prevcount value).

(** The calls made on a registry. *)
Inductive Op :=
| Update (name : string) (value now : Z)
| Flush (now : nat -> Z).

Definition step (timers : t) (op : Op) : t :=
  match op with
  | Update name value now => updateTimer name value now timers
  | Flush now => getTimers now timers
  end.

Definition run (ops : list Op) : t := fold_left step ops [].

(** The values recorded under [name] by [ops]. *)
Definition valuesOf (name : string) (ops : list Op) : list Z :=
  flat_map (fun op =>
              match op with
              | Update k value _ => if (k =? name)%string then [value] else []
              | Flush _ => []
              end) ops.

(** The calls before the last flush and after the one before it, and the
    calls after the last flush. *)
Definition windows (ops : list Op) : list Op * list Op :=
  fold_left (fun w op =>
               match op with
               | Update _ _ _ => (fst w, snd w ++ [op])
               | Flush _ => (snd w, [])
               end) ops ([], []).

Definition total (l : list Z) : Z := fold_right Z.add 0 l.

End Timers.

Section TimerRegistry.

Import Timers.

Lemma get_set_same name v timers : get name (set name v timers) = Some v.
Proof.
  induction timers as [|[k x] rest IH]; cbn [set get].
  - rewrite String.eqb_refl. reflexivity.
  - destruct (k =? name)%string eqn:E; cbn [get]; rewrite E; [reflexivity | exact IH].
Qed.

Lemma get_set_other name k v timers :
  (k =? name)%string = false -> get name (set k v timers) = get name timers.
Proof.
  intros Hk. induction timers as [|[k' x] rest IH]; cbn [set get].
  - rewrite Hk. reflexivity.
  - destruct (k' =? k)%string eqn:E; cbn [get].
    + apply String.eqb_eq in E. subst k'. rewrite Hk. reflexivity.
    + destruct (k' =? name)%string; [reflexivity | exact IH].
Qed.

Lemma get_updateTimer_same name value now timers :
  get name (updateTimer name value now timers)
  = Some (add value match get name timers with
                    | Some d => d
                    | None => fresh now
                    end).
Proof.
  unfold updateTimer, has. destruct (get name timers) as [d|] eqn:E.
  - rewrite E. apply get_set_same.
  - rewrite get_set_same. apply get_set_same.
Qed.

Lemma get_updateTimer_other name k value now timers :
  (k =? name)%string = false ->
  get name (updateTimer k value now timers) = get name timers.
Proof.
  intros Hk. unfold updateTimer, has. destruct (get k timers) as [d|] eqn:E.
  - rewrite E. apply get_set_other. exact Hk.
  - rewrite get_set_same, !get_set_other by exact Hk. reflexivity.
Qed.

Lemma get_rotateFrom name now timers :
  forall i,
    match get name timers with
    | Some d => exists j, get name (rotateFrom i now timers) = Some (rotate (now j) d)
    | None => get name (rotateFrom i now timers) = None
    end.
Proof.
  induction timers as [|[k x] rest IH]; intros i; cbn [get rotateFrom].
  - reflexivity.
  - destruct (k =? name)%string; [exists i; reflexivity | apply IH].
Qed.

Lemma total_app (l : list Z) (v : Z) : total (l ++ [v]) = total l + v.
Proof.
  unfold total. induction l as [|x l IH]; cbn [app fold_right]; [lia|].
  rewrite IH. lia.
Qed.

Lemma valuesOf_app name a b : valuesOf name (a ++ b) = valuesOf name a ++ valuesOf name b.
Proof. unfold valuesOf. apply flat_map_app. Qed.

Lemma windows_snoc ops op :
  windows (ops ++ [op])
  = match op with
    | Update _ _ _ => (fst (windows ops), snd (windows ops) ++ [op])
    | Flush _ => (snd (windows ops), [])
    end.
Proof. unfold windows. rewrite fold_left_app. reflexivity. Qed.

(** What the registry holds for [name] after [ops]. *)
Definition accounted (name : string) (ops : list Op) : Prop :=
  match get name (run ops) with
  | None =>
      valuesOf name ops = []
      /\ valuesOf name (fst (windows ops)) = []
      /\ valuesOf name (snd (windows ops)) = []
  | Some d =>
      valuesOf name ops <> []
      /\ totalcount d = Z.of_nat (List.length (valuesOf name ops))
      /\ totalsum d = total (valuesOf name ops)
      /\ Timers.count d = Z.of_nat (List.length (valuesOf name (snd (windows ops))))
      /\ sum d = total (valuesOf name (snd (windows ops)))
      /\ prevcount d = Z.of_nat (List.length (valuesOf name (fst (windows ops))))
      /\ prevsum d = total (valuesOf name (fst (windows ops)))
  end.

Lemma registry_accounted name ops : accounted name ops.
Proof.
  induction ops as [|op ops IH] using rev_ind.
  { cbv. repeat split. }
  unfold accounted in *. unfold run in *. rewrite fold_left_app. cbn [fold_left].
  rewrite windows_snoc, valuesOf_app.
  destruct op as [k value now|now]; cbn [step].
  - cbn [fst snd]. rewrite valuesOf_app.
    destruct (k =? name)%string eqn:Hk.
    + apply String.eqb_eq in Hk. subst k.
      rewrite get_updateTimer_same.
      assert (Hv : valuesOf name [Update name value now] = [value])
        by (cbn; rewrite String.eqb_refl; reflexivity).
      rewrite Hv, !length_app, !total_app. cbn [List.length].
      destruct (get name (fold_left step ops [])) as [d|].
      * destruct IH as (_ & H1 & H2 & H3 & H4 & H5 & H6).
        cbn [add totalcount totalsum Timers.count sum prevcount prevsum].
        split; [intros H; apply app_eq_nil in H; destruct H; discriminate|].
        repeat split; lia.
      * destruct IH as (H0 & H1 & H2). rewrite H0, H1, H2.
        cbn [add fresh totalcount totalsum Timers.count sum prevcount prevsum
             app List.length total fold_right].
        split; [discriminate|]. repeat split; lia.
    + rewrite (get_updateTimer_other name k value now _ Hk).
      assert (Hv : valuesOf name [Update k value now] = [])
        by (cbn; rewrite Hk; reflexivity).
      rewrite Hv, !app_nil_r. exact IH.
  - cbn [fst snd]. change (valuesOf name [Flush now]) with (@nil Z).
    rewrite app_nil_r. unfold getTimers.
    pose proof (get_rotateFrom name now (fold_left step ops []) O) as Hrot.
    destruct (get name (fold_left step ops [])) as [d|].
    + destruct Hrot as (j & ->).
      destruct IH as (H0 & H1 & H2 & H3 & H4 & _).
      cbn [rotate totalcount totalsum Timers.count sum prevcount prevsum].
      repeat split; assumption.
    + rewrite Hrot. destruct IH as (H0 & _ & H2). repeat split; assumption.
Qed.

(** X14. After any sequence of [updateTimer] and [getTimers] calls on a
    new registry, a name has an entry exactly when it was updated, and
    the entry's [totalcount] and [totalsum] are the number and the sum of
    all values recorded under the name: flushes never lose totals. *)
Theorem timer_totals (name : string) (ops : list Op) :
  match get name (run ops) with
  | None => valuesOf name ops = []
  | Some d =>
      valuesOf name ops <> []
      /\ totalcount d = Z.of_nat (List.length (valuesOf name ops))
      /\ totalsum d = total (valuesOf name ops)
  end.
Proof.
  pose proof (registry_accounted name ops) as H. unfold accounted in H.
  destruct (get name (run ops)) as [d|].
  - destruct H as (H0 & H1 & H2 & _). auto.
  - destruct H as (H0 & _). exact H0.
Qed.

(** X15. In the entry of a name, [count] and [sum] are the number and the
    sum of the values recorded since the last [getTimers], and
    [prevcount] and [prevsum] those recorded between the two flushes
    before; right after a flush the window is empty. *)
Theorem timer_windows (name : string) (ops : list Op) (d : TimerData) :
  get name (run ops) = Some d ->
  let before := valuesOf name (fst (windows ops)) in
  let since := valuesOf name (snd (windows ops)) in
  Timers.count d = Z.of_nat (List.length since)
  /\ sum d = total since
  /\ prevcount d = Z.of_nat (List.length before)
  /\ prevsum d = total before
  /\ diffs d = (total since - total before,
                Z.of_nat (List.length since) - Z.of_nat (List.length before))
  /\ (forall now d',
         get name (run (ops ++ [Flush now])) = Some d' ->
         Timers.count d' = 0 /\ sum d' = 0
         /\ prevcount d' = Timers.count d /\ prevsum d' = sum d
         /\ totalcount d' = totalcount d /\ totalsum d' = totalsum d).
Proof.
  intros Hget before since.
  pose proof (registry_accounted name ops) as H. unfold accounted in H.
  rewrite Hget in H. destruct H as (_ & _ & _ & H3 & H4 & H5 & H6).
  fold since in H3, H4. fold before in H5, H6.
  repeat (split; [assumption|]). split.
  - unfold diffs. rewrite H3, H4, H5, H6. reflexivity.
  - intros now d' Hget'. unfold run in *. rewrite fold_left_app in Hget'.
    cbn [fold_left step] in Hget'. unfold getTimers in Hget'.
    pose proof (get_rotateFrom name now (fold_left step ops []) O) as Hrot.
    rewrite Hget in Hrot. destruct Hrot as (j & Hj). rewrite Hj in Hget'.
    injection Hget' as <-. repeat split.
Qed.

End TimerRegistry.

(** ** The reply normaliser ([formatSMTPResponse]) *)

(** As everywhere in this development a string is a sequence of code
    units below 256; the model says nothing about strings that hold
    code units above 255.  On these, [\d] is [0-9], [\s] is
    tab, line feed, vertical tab, form feed, carriage return, space and
    the no-break space, and the line terminators are line feed and
    carriage return. *)
Module Reply.

Definition isDigit (c : ascii) : bool :=
  let n := nat_of_ascii c in ((48 <=? n) && (n <=? 57))%nat.

Definition isSpace (c : ascii) : bool :=
  let n := nat_of_ascii c in
  (((9 <=? n) && (n <=? 13)) || (n =? 32) || (n =? 160))%nat.

Definition isLineTerminator (c : ascii) : bool :=
  let n := nat_of_ascii c in ((n =? 10) || (n =? 13))%nat.

(** The class [[\s\-]]. *)
Definition isSeparator (c : ascii) : bool := isSpace c || Ascii.eqb c "-".

(** The class [[\d\.]]. *)
Definition isNumeric (c : ascii) : bool := isDigit c || Ascii.eqb c ".".

(** The length of the longest prefix of [s] made of characters in [p]:
    what a greedy [p*] takes. *)
Fixpoint greedy (p : ascii -> bool) (s : string) : nat :=
  match s with
  | String c r => if p c then S (greedy p r) else O
  | EmptyString => O
  end.

Fixpoint drop (n : nat) (s : string) : string :=
  match n, s with
  | S n, String _ r => drop n r
  | _, _ => s
  end.

(** The code pattern of [formatSMTPResponse]: three digits, then one or
    more characters of [[\s\-]], then optionally one or more characters
    of [[\d\.]] followed by any whitespace.  [matchCode s] is the length
    of its match at the start of [s], if there is one.  The classes that
    follow each other are disjoint, so the greedy choices are never taken
    back. *)
Definition matchCode (s : string) : option nat :=
  match s with
  | String a (String b (String c r)) =>
      if isDigit a && isDigit b && isDigit c then
        let separators := greedy isSeparator r in
        if (separators =? 0)%nat then None
        else
          let r1 := drop separators r in
          let numerics := greedy isNumeric r1 in
          if (numerics =? 0)%nat then Some (3 + separators)%nat
          else
            Some (3 + separators + numerics
                  + greedy isSpace (drop numerics r1))%nat
      else None
  | _ => None
  end.

(** The replacement, with the flags [m] and [g], of every match of the
    code pattern at a line start by one space, from left to right: [skip]
    characters of the current match are still to be dropped, and
    [lineStart] tells whether [^] holds here, that is at the start of the
    string or after a line terminator. *)
Fixpoint replaceCodes (skip : nat) (lineStart : bool) (s : string) : string :=
  match s with
  | EmptyString => EmptyString
  | String c r =>
      match skip with
      | S k => replaceCodes k (isLineTerminator c) r
      | O =>
          match (if lineStart then matchCode (String c r) else None) with
          | Some n => String " " (replaceCodes (n - 1) (isLineTerminator c) r)
          | None => String c (replaceCodes 0 (isLineTerminator c) r)
          end
      end
  end.

(** [s.replace(/\s+/g, ' ')]; [inSpace] tells whether the character
    before was whitespace. *)
Fixpoint collapse (inSpace : bool) (s : string) : string :=
  match s with
  | EmptyString => EmptyString
  | String c r =>
      if isSpace c then
        if inSpace then collapse true r else String " " (collapse true r)
      else String c (collapse false r)
  end.

Fixpoint trimStart (s : string) : string :=
  match s with
  | String c r => if isSpace c then trimStart r else s
  | EmptyString => EmptyString
  end.

Fixpoint trimEnd (s : string) : string :=
  match s with
  | String c r =>
      let r' := trimEnd r in
      if isSpace c && (r' =? "")%string then EmptyString else String c r'
  | EmptyString => EmptyString
  end.

(** [s.trim()]. *)
Definition trim (s : string) : string := trimEnd (trimStart s).

Definition formatSMTPResponse (str : string) : string :=
  let code := matchCode str in
  let head := match code with Some n => substring 0 n str | None => "" end in
  let rest := match code with Some n => drop n str | None => str end in
  trim (collapse false (head +++ replaceCodes 0 true rest)).

End Reply.

Section ReplyFacts.

Import Reply.

(** The string does not begin with whitespace. *)
Definition startsClean (s : string) : bool :=
  match s with
  | String c _ => negb (isSpace c)
  | EmptyString => true
  end.

(** The string does not end with whitespace. *)
Fixpoint endsClean (s : string) : bool :=
  match s with
  | EmptyString => true
  | String c EmptyString => negb (isSpace c)
  | String _ r => endsClean r
  end.

(** Every whitespace character of the string is a space, and what comes
    after it is no whitespace. *)
Fixpoint singleSpaces (s : string) : bool :=
  match s with
  | EmptyString => true
  | String c r =>
      (if isSpace c then Ascii.eqb c " " && startsClean r else true)
      && singleSpaces r
  end.

Fixpoint hasDigit (s : string) : bool :=
  match s with
  | EmptyString => false
  | String c r => isDigit c || hasDigit r
  end.

Lemma collapse_spaces (s : string) :
  forall b,
    singleSpaces (collapse b s) = true
    /\ (b = true -> startsClean (collapse b s) = true).
Proof.
  induction s as [|c r IH]; intros b; cbn [collapse].
  - split; reflexivity.
  - destruct (isSpace c) eqn:Hc.
    + destruct b.
      * apply IH.
      * destruct (IH true) as [H1 H2]. split; [|discriminate].
        cbn [singleSpaces]. rewrite H1, (H2 eq_refl). reflexivity.
    + destruct (IH false) as [H1 _]. split.
      * cbn [singleSpaces]. rewrite Hc, H1. reflexivity.
      * intros _. cbn [startsClean]. rewrite Hc. reflexivity.
Qed.

Lemma trimStart_spaces (s : string) :
  singleSpaces s = true ->
  singleSpaces (trimStart s) = true /\ startsClean (trimStart s) = true.
Proof.
  induction s as [|c r IH]; intros H; cbn [trimStart].
  - split; reflexivity.
  - destruct (isSpace c) eqn:Hc.
    + apply IH. cbn [singleSpaces] in H. apply andb_true_iff in H. apply H.
    + split; [exact H|]. cbn [startsClean]. rewrite Hc. reflexivity.
Qed.

Lemma trimEnd_start (s : string) :
  startsClean s = true -> startsClean (trimEnd s) = true.
Proof.
  destruct s as [|c r]; [reflexivity|]. cbn [startsClean trimEnd].
  intros H. apply negb_true_iff in H. rewrite H. cbn [andb startsClean].
  rewrite H. reflexivity.
Qed.

Lemma trimEnd_spaces (s : string) :
  singleSpaces s = true ->
  singleSpaces (trimEnd s) = true /\ endsClean (trimEnd s) = true.
Proof.
  induction s as [|c r IH]; intros H; cbn [trimEnd].
  - split; reflexivity.
  - cbn [singleSpaces] in H. apply andb_true_iff in H. destruct H as [Hc Hr].
    destruct (IH Hr) as [H1 H2].
    destruct (isSpace c && (trimEnd r =? "")%string) eqn:E.
    + split; reflexivity.
    + split.
      * cbn [singleSpaces]. rewrite H1, andb_true_r.
        destruct (isSpace c); [|reflexivity].
        apply andb_true_iff in Hc. destruct Hc as [Hsp Hst].
        rewrite Hsp. apply trimEnd_start. exact Hst.
      * cbn [endsClean]. destruct (trimEnd r) as [|c' r'] eqn:Er.
        -- cbn in E. rewrite andb_true_r in E. rewrite E. reflexivity.
        -- exact H2.
Qed.

(** X16. Whatever the reply, the result of [formatSMTPResponse] holds no
    whitespace other than single spaces between other characters: it
    neither begins nor ends with whitespace, and holds no tab, line break
    or run of spaces. *)
Theorem formatted_reply_is_tidy (str : string) :
  startsClean (formatSMTPResponse str) = true
  /\ endsClean (formatSMTPResponse str) = true
  /\ singleSpaces (formatSMTPResponse str) = true.
Proof.
  unfold formatSMTPResponse, trim. cbv zeta.
  set (body := collapse false _).
  assert (Hbody : singleSpaces body = true) by apply collapse_spaces.
  destruct (trimStart_spaces body Hbody) as [H1 H2].
  destruct (trimEnd_spaces _ H1) as [H3 H4].
  split; [apply trimEnd_start; exact H2|]. split; assumption.
Qed.

Lemma matchCode_noDigit (c : ascii) (r : string) :
  isDigit c = false -> matchCode (String c r) = None.
Proof.
  intros Hc. unfold matchCode. destruct r as [|b [|c' r]]; try reflexivity.
  rewrite Hc. reflexivity.
Qed.

Lemma replaceCodes_noDigit (s : string) :
  hasDigit s = false -> forall b, replaceCodes 0 b s = s.
Proof.
  induction s as [|c r IH]; intros H b; [reflexivity|].
  cbn [hasDigit] in H. apply orb_false_iff in H. destruct H as [Hc Hr].
  cbn [replaceCodes]. rewrite (matchCode_noDigit c r Hc).
  destruct b; rewrite (IH Hr); reflexivity.
Qed.

(** X17. A message without any digit, such as a local error message, is
    only normalised in its whitespace: runs of whitespace become one
    space and the ends are trimmed; no other character is changed. *)
Theorem digit_free_message (str : string) :
  hasDigit str = false ->
  formatSMTPResponse str = trim (collapse false str).
Proof.
  intros H. unfold formatSMTPResponse.
  assert (Hcode : matchCode str = None).
  { destruct str as [|c r]; [reflexivity|]. apply matchCode_noDigit.
    cbn [hasDigit] in H. apply orb_false_iff in H. apply H. }
  rewrite Hcode. cbv zeta. cbn [String.append].
  rewrite (replaceCodes_noDigit str H). reflexivity.
Qed.

Lemma digit_not_space (c : ascii) : isDigit c = true -> isSpace c = false.
Proof.
  unfold isDigit, isSpace. cbv zeta. intros H.
  apply andb_true_iff in H. destruct H as [H1 H2].
  apply Nat.leb_le in H1. apply Nat.leb_le in H2.
  repeat (apply orb_false_iff; split).
  - apply andb_false_iff. right. apply Nat.leb_gt. lia.
  - apply Nat.eqb_neq. lia.
  - apply Nat.eqb_neq. lia.
Qed.

(** X18. When the reply begins with a reply code (three digits followed
    by whitespace or a hyphen), the result begins with the same three
    digits. *)
Theorem reply_code_kept (str : string) (n : nat) :
  matchCode str = Some n ->
  exists a b c r out,
    str = String a (String b (String c r))
    /\ isDigit a = true /\ isDigit b = true /\ isDigit c = true
    /\ (4 <= n <= String.length str)%nat
    /\ formatSMTPResponse str = String a (String b (String c out)).
Proof.
  intros H. destruct str as [|a [|b [|c r]]]; try discriminate H.
  assert (Hlen : forall p s, (greedy p s <= String.length s)%nat).
  { intros p s. induction s as [|x s IH]; cbn [greedy String.length]; [lia|].
    destruct (p x); lia. }
  assert (Hdrop : forall k s, (String.length (drop k s) = String.length s - k)%nat).
  { induction k as [|k IH]; intros [|x s]; cbn [drop String.length]; try lia.
    apply IH. }
  assert (Hdig : isDigit a = true /\ isDigit b = true /\ isDigit c = true
                 /\ (4 <= n <= String.length (String a (String b (String c r))))%nat).
  { unfold matchCode in H.
    destruct (isDigit a), (isDigit b), (isDigit c); try discriminate H.
    cbn [andb] in H. repeat (split; [reflexivity|]).
    destruct (greedy isSeparator r =? 0)%nat eqn:E1; [discriminate H|].
    apply Nat.eqb_neq in E1.
    pose proof (Hlen isSeparator r) as L1.
    destruct (greedy isNumeric (drop (greedy isSeparator r) r) =? 0)%nat.
    - injection H as <-. cbn [String.length]. lia.
    - injection H as <-.
      pose proof (Hlen isNumeric (drop (greedy isSeparator r) r)) as L2.
      pose proof (Hlen isSpace
                    (drop (greedy isNumeric (drop (greedy isSeparator r) r))
                          (drop (greedy isSeparator r) r))) as L3.
      rewrite !Hdrop in *. cbn [String.length]. lia. }
  destruct Hdig as (Ha & Hb & Hc & Hn).
  destruct n as [|[|[|n]]]; try lia.
  exists a, b, c, r. eexists. split; [reflexivity|].
  repeat (split; [assumption|]).
  unfold formatSMTPResponse. rewrite H. cbv zeta.
  cbn [substring String.append collapse].
  rewrite (digit_not_space a Ha), (digit_not_space b Hb), (digit_not_space c Hc).
  unfold trim. cbn [trimStart]. rewrite (digit_not_space a Ha).
  cbn [trimEnd].
  rewrite (digit_not_space a Ha), (digit_not_space b Hb), (digit_not_space c Hc).
  reflexivity.
Qed.

End ReplyFacts.

Section ReplyLength.

Import Reply.

Lemma append_length (a b : string) :
  String.length (a +++ b) = (String.length a + String.length b)%nat.
Proof.
  induction a as [|c a IH]; cbn [String.append String.length];
    [reflexivity | rewrite IH; reflexivity].
Qed.

Lemma trimStart_length (s : string) :
  (String.length (trimStart s) <= String.length s)%nat.
Proof.
  induction s as [|c r IH]; cbn [trimStart]; [lia|].
  destruct (isSpace c); cbn [String.length] in *; lia.
Qed.

Lemma trimEnd_length (s : string) :
  (String.length (trimEnd s) <= String.length s)%nat.
Proof.
  induction s as [|c r IH]; cbn [trimEnd]; [lia|].
  destruct (isSpace c && (trimEnd r =? "")%string); cbn [String.length]; lia.
Qed.

Lemma collapse_length (s : string) :
  forall b, (String.length (collapse b s) <= String.length s)%nat.
Proof.
  induction s as [|c r IH]; intros b; cbn [collapse]; [lia|].
  destruct (isSpace c); [destruct b|]; cbn [String.length].
  - specialize (IH true). lia.
  - specialize (IH true). lia.
  - specialize (IH false). lia.
Qed.

Lemma replaceCodes_length (s : string) :
  forall k b, (String.length (replaceCodes k b s) <= String.length s)%nat.
Proof.
  induction s as [|c r IH]; intros k b; cbn [replaceCodes]; [lia|].
  destruct k as [|k].
  - destruct (if b then matchCode (String c r) else None) as [n|];
      cbn [String.length].
    + specialize (IH (n - 1)%nat (isLineTerminator c)). lia.
    + specialize (IH O (isLineTerminator c)). lia.
  - specialize (IH k (isLineTerminator c)). cbn [String.length]. lia.
Qed.

Lemma split_length (n : nat) :
  forall s,
    (String.length (substring 0 n s) + String.length (drop n s))%nat
    = String.length s.
Proof.
  induction n as [|n IH]; intros [|c r]; cbn [substring drop String.length];
    try reflexivity.
  rewrite <- (IH r). reflexivity.
Qed.

(** X19. [formatSMTPResponse] never makes a reply longer. *)
Theorem formatted_reply_not_longer (str : string) :
  (String.length (formatSMTPResponse str) <= String.length str)%nat.
Proof.
  unfold formatSMTPResponse, trim. cbv zeta.
  eapply Nat.le_trans; [apply trimEnd_length|].
  eapply Nat.le_trans; [apply trimStart_length|].
  eapply Nat.le_trans; [apply collapse_length|].
  rewrite append_length.
  destruct (matchCode str) as [n|].
  - rewrite <- (split_length n str).
    pose proof (replaceCodes_length (drop n str) 0 true). lia.
  - pose proof (replaceCodes_length str 0 true). cbn [String.length]. lia.
Qed.

End ReplyLength.

(** ** The further properties at work *)

Module Cases.

Import Sample.

Definition mx1 : Exchange.t :=
  {| Exchange.exchange := "mx1.y.test"; Exchange.priority := 10 |}.

Definition mx2 : Exchange.t :=
  {| Exchange.exchange := "mx2.y.test"; Exchange.priority := 20 |}.

Definition mx3 : Exchange.t :=
  {| Exchange.exchange := "mx3.y.test"; Exchange.priority := 30 |}.

(** A world in which no peer accepts a connection; the second of the
    three exchanges does not resolve. *)
Definition refusing : World :=
  {| get_reply := GetData (Some delivery);
     ack := fun _ => None;
     resolveMx := fun _ => MxList [mx1; mx2; mx3];
     resolveIp := fun name =>
       if (name =? "mx1.y.test")%string then IpList ["10.0.0.1"; "10.0.0.2"]
       else if (name =? "mx3.y.test")%string then IpList ["10.0.3.1"]
       else IpList [];
     connect := fun _ _ => Some (error "ECONNREFUSED" "");
     login := fun _ _ => None;
     send := fun _ => None;
     webhook_fails := fun _ => false |}.

Lemma refusing_refused : refused refusing.
Proof. intros n o. eexists. split; [reflexivity | discriminate]. Qed.

Definition queueDown : Error.t :=
  {| Error.message := "queue is down"; Error.response := None;
     Error.code := "" |}.

(** A world whose queue hands out a job and then fails every command. *)
Definition deafQueue : World :=
  {| get_reply := GetData (Some delivery);
     ack := fun _ => Some queueDown;
     resolveMx := fun _ => MxList [Runs.mx];
     resolveIp := fun _ => IpList ["10.0.0.1"];
     connect := fun _ _ => None;
     login := fun _ _ => None;
     send := fun _ => Some Runs.reject550;
     webhook_fails := fun _ => false |}.

(** A world whose queue is empty. *)
Definition noJob : World :=
  {| get_reply := GetData None;
     ack := fun _ => None;
     resolveMx := fun _ => MxNone;
     resolveIp := fun _ => IpList [];
     connect := fun _ _ => None;
     login := fun _ _ => None;
     send := fun _ => None;
     webhook_fails := fun _ => false |}.

(** A world whose [GET] fails. *)
Definition getFails : World :=
  {| get_reply := GetError queueDown;
     ack := fun _ => None;
     resolveMx := fun _ => MxNone;
     resolveIp := fun _ => IpList [];
     connect := fun _ _ => None;
     login := fun _ _ => None;
     send := fun _ => None;
     webhook_fails := fun _ => false |}.

(** A state after five empty polls. *)
Definition waiting : State :=
  {| zone := zone0; closing := false; emptyChecks := 5; dials := 0 |}.

Definition timerOps : list Timers.Op :=
  [Timers.Update "Send" 5 100; Timers.Update "Send" 7 110;
   Timers.Update "getConnection" 3 120; Timers.Flush (fun _ => 200);
   Timers.Update "Send" 1 210].

End Cases.

Lemma delivery_layout_witness :
  (7 <= 7)%nat
  /\ exists s' t,
      onConnection Sample.X Runs.rejecting Sample.config 7 Sample.delivery
                   (inr Runs.connection) Sample.state
      = Some (tt, s',
              prelude Sample.X Sample.config Sample.delivery (inr Runs.connection)
              ++ Issue (RELEASE "m1" "1" "lock-1") :: SetImmediateSendNext :: t)
      /\ Forall (fun e => isFollowUp e = true) t.
Proof.
  assert (H : (7 <= 7)%nat) by lia. split; [exact H|].
  destruct (delivery_layout Sample.X Runs.rejecting Sample.config 7
              Sample.delivery (inr Runs.connection) Sample.state H)
    as (s' & t & E & _ & Ht & _).
  exists s', t. split; [exact E | exact Ht].
Defined.

Lemma drain_flag_final_witness :
  sendNext Sample.X Cases.getFails Sample.config 1 Sample.state
  = Some (tt, closed Sample.state, [Issue GET; EmitError Cases.queueDown])
  /\ closing (closed Sample.state) = true.
Proof.
  assert (H : sendNext Sample.X Cases.getFails Sample.config 1 Sample.state
              = Some (tt, closed Sample.state,
                      [Issue GET; EmitError Cases.queueDown])) by reflexivity.
  split; [exact H|].
  destruct (drain_flag_final Sample.X Cases.getFails Sample.config 1
              Sample.state tt (closed Sample.state)
              [Issue GET; EmitError Cases.queueDown] H) as (_ & _ & He).
  apply (He Cases.queueDown). right. left. reflexivity.
Defined.

Lemma zone_only_loses_starttls_witness :
  exists s' tr,
    sendNext Sample.X Runs.brokenTls Sample.config 20 Sample.state
    = Some (tt, s', tr)
    /\ Zone.port (zone s') = Zone.port (zone Sample.state)
    /\ Zone.auth (zone s') = Zone.auth (zone Sample.state).
Proof.
  eexists _, _.
  match goal with
  | |- ?A /\ _ => assert (H : A) by (vm_compute; reflexivity)
  end.
  split; [exact H|].
  destruct (zone_only_loses_starttls Sample.X Runs.brokenTls Sample.config 20
              Sample.state tt _ _ H) as (_ & _ & _ & _ & Hp & _ & _ & Ha).
  split; [exact Hp | exact Ha].
Defined.

Lemma dial_targets_witness :
  (dialFuel Runs.brokenTls Sample.state Sample.delivery <= 20)%nat
  /\ exists r s' tr,
      getConnection Sample.X Runs.brokenTls 20 Sample.delivery Sample.state
      = Some (r, s', tr)
      /\ forall o, In (Dial o) tr -> Options.servername o = "mx.y.test".
Proof.
  assert (H : (dialFuel Runs.brokenTls Sample.state Sample.delivery <= 20)%nat)
    by (vm_compute; lia).
  split; [exact H|].
  destruct (dial_targets Sample.X Runs.brokenTls 20 Sample.delivery Sample.state
              Runs.brokenTls_starttlsOnly H) as (r & s' & tr & E & Ht).
  exists r, s', tr. split; [exact E|].
  intros o Hin.
  destruct (Ht o Hin) as (ex & ips & _ & _ & Hsn & _ & _ & Hmx).
  destruct (Hmx eq_refl) as (exs & Hexs & Hex).
  injection Hexs as <-. destruct Hex as [<-|[]]. exact Hsn.
Defined.

Lemma dial_options_witness :
  (dialFuel Runs.brokenTls Sample.state Sample.delivery <= 20)%nat
  /\ exists r s' tr,
      getConnection Sample.X Runs.brokenTls 20 Sample.delivery Sample.state
      = Some (r, s', tr)
      /\ forall o, In (Dial o) tr -> Options.port o = 25.
Proof.
  assert (H : (dialFuel Runs.brokenTls Sample.state Sample.delivery <= 20)%nat)
    by (vm_compute; lia).
  split; [exact H|].
  destruct (dial_options Sample.X Runs.brokenTls 20 Sample.delivery Sample.state
              Runs.brokenTls_starttlsOnly H) as (r & s' & tr & E & Ho).
  exists r, s', tr. split; [exact E|].
  intros o Hin. destruct (Ho o Hin) as (Hp & _). exact Hp.
Defined.

Lemma connection_is_last_dial_witness :
  (dialFuel Runs.brokenTls Sample.state Sample.delivery <= 20)%nat
  /\ exists r s' tr,
      getConnection Sample.X Runs.brokenTls 20 Sample.delivery Sample.state
      = Some (r, s', tr)
      /\ forall c, r = inr c -> In (Dial (options c)) tr.
Proof.
  assert (H : (dialFuel Runs.brokenTls Sample.state Sample.delivery <= 20)%nat)
    by (vm_compute; lia).
  split; [exact H|].
  destruct (connection_is_last_dial Sample.X Runs.brokenTls 20 Sample.delivery
              Sample.state Runs.brokenTls_starttlsOnly H)
    as (r & s' & tr & E & Hlast).
  exists r, s', tr. split; [exact E|].
  intros c Hc. destruct (Hlast c Hc) as (pre & post & -> & _).
  apply in_or_app. right. left. reflexivity.
Defined.

Lemma fall_through_order_witness :
  resolved Cases.refusing Sample.state Sample.delivery
  = MxList [Cases.mx1; Cases.mx2; Cases.mx3]
  /\ exists s' tr,
      getConnection Sample.X Cases.refusing 20 Sample.delivery Sample.state
      = Some (inl (noMxLeft Sample.delivery), s', tr)
      /\ hosts tr = ["10.0.0.1"; "10.0.0.2"; "10.0.3.1"].
Proof.
  assert (H : resolved Cases.refusing Sample.state Sample.delivery
              = MxList [Cases.mx1; Cases.mx2; Cases.mx3]) by reflexivity.
  split; [exact H|].
  destruct (fall_through_order Sample.X Cases.refusing 20 Sample.delivery
              Sample.state _ Cases.refusing_refused H)
    as (s' & tr & E & Hh & _).
  - vm_compute. lia.
  - exists s', tr. split; [exact E | exact Hh].
Defined.

Lemma notifier_stops_at_first_success_witness :
  (7 <= 9)%nat
  /\ count isPost
       (notifierTrace
          (Post "http://localhost:5000/bounce"
                (notification Sample.X Sample.delivery
                   (bounces_check Sample.X (Some "550 no")) "550 no"))
          0 (failuresFrom (Sample.world None (fun n => (n <? 2)%nat)) 6 0))
     = 3%nat.
Proof.
  assert (H : (7 <= 9)%nat) by lia. split; [exact H|].
  destruct (notifier_stops_at_first_success
              (Sample.world None (fun n => (n <? 2)%nat)) Sample.config 9
              (notification Sample.X Sample.delivery
                 (bounces_check Sample.X (Some "550 no")) "550 no")
              Sample.state H) as (_ & _ & _ & _ & Hposts).
  exact Hposts.
Defined.

Lemma refused_command_is_fatal_witness :
  ack Cases.deafQueue
      (verdict Sample.X Cases.deafQueue Sample.config Sample.delivery
               (inr Runs.connection))
  = Some Cases.queueDown
  /\ count isPost
       (prelude Sample.X Sample.config Sample.delivery (inr Runs.connection)
        ++ [Issue (verdict Sample.X Cases.deafQueue Sample.config Sample.delivery
                           (inr Runs.connection));
            SetImmediateSendNext; EmitError Cases.queueDown])
     = 0%nat
  /\ exists s',
      onConnection Sample.X Cases.deafQueue Sample.config 7 Sample.delivery
                   (inr Runs.connection) Sample.state
      = Some (tt, s',
              prelude Sample.X Sample.config Sample.delivery (inr Runs.connection)
              ++ [Issue (verdict Sample.X Cases.deafQueue Sample.config
                                 Sample.delivery (inr Runs.connection));
                  SetImmediateSendNext; EmitError Cases.queueDown]).
Proof.
  split; [reflexivity|]. split; [reflexivity|].
  exists (closed Sample.state).
  apply (refused_command_is_fatal Sample.X Cases.deafQueue Sample.config 7
           Sample.delivery (inr Runs.connection) Sample.state Cases.queueDown).
  reflexivity.
Defined.

Lemma empty_queue_backoff_witness :
  closing Cases.waiting = false
  /\ polls Sample.X Cases.noJob Sample.config 0 3 Cases.waiting
     = Some (tt, idle 3 Cases.waiting,
             [Issue GET; SetTimeout 360; Issue GET; SetTimeout 490;
              Issue GET; SetTimeout 640]).
Proof.
  split; [reflexivity|].
  destruct (empty_queue_backoff Sample.X Cases.noJob Sample.config 0 3
              Cases.waiting) as (Hrun & _).
  - left. reflexivity.
  - reflexivity.
  - exact Hrun.
Defined.

Lemma job_resets_backoff_witness :
  exists s' tr,
    sendNext Sample.X Runs.quiet Sample.config 20 Cases.waiting
    = Some (tt, s', tr)
    /\ emptyChecks s' = O.
Proof.
  eexists _, _.
  match goal with
  | |- ?A /\ _ => assert (H : A) by (vm_compute; reflexivity)
  end.
  split; [exact H|].
  refine (job_resets_backoff Sample.X Runs.quiet Sample.config 20 Cases.waiting
            Sample.delivery tt _ _ _ _ _ H);
    [reflexivity | reflexivity | discriminate].
Defined.

Lemma timer_windows_witness :
  exists d,
    Timers.get "Send" (Timers.run Cases.timerOps) = Some d
    /\ Timers.count d = 1 /\ Timers.sum d = 1
    /\ Timers.prevcount d = 2 /\ Timers.prevsum d = 12.
Proof.
  eexists.
  match goal with
  | |- ?A /\ _ => assert (H : A) by (vm_compute; reflexivity)
  end.
  split; [exact H|].
  destruct (timer_windows "Send" Cases.timerOps _ H) as (H1 & H2 & H3 & H4 & _).
  repeat split; assumption.
Defined.

Lemma digit_free_message_witness :
  Reply.formatSMTPResponse "Connection   timeout " = "Connection timeout".
Proof.
  rewrite (digit_free_message "Connection   timeout " eq_refl). reflexivity.
Defined.

Lemma reply_code_kept_witness :
  Reply.matchCode "250 2.0.0 OK queued" = Some 10%nat
  /\ exists out, Reply.formatSMTPResponse "250 2.0.0 OK queued"
                 = String "2" (String "5" (String "0" out)).
Proof.
  assert (H : Reply.matchCode "250 2.0.0 OK queued" = Some 10%nat) by reflexivity.
  split; [exact H|].
  destruct (reply_code_kept "250 2.0.0 OK queued" 10 H)
    as (a & b & c & r & out & Hs & _ & _ & _ & _ & E).
  injection Hs as <- <- <- _. exists out. exact E.
Defined.

(** ** The errors of [getConnection], and when the worker notifies *)

Section ConnectionErrors.

Variable X : Externals.
Variable W : World.

(** The error of [getConnection] when [resolveMx] gives no list. *)
Definition noMxFound (d : Delivery.t) : Error.t :=
  {| Error.message := "Can't find an MX server for " +++ Delivery.domain d;
     Error.response :=
       Some ("450 Can't find an MX server for " +++ Delivery.domain d);
     Error.code := "" |}.

(** The login on the last connection of [tr] failed with [err], and the
    connection was closed. *)
Definition loginFailed (err : Error.t) (tr : list Event) : Prop :=
  exists pre o credentials n,
    tr = pre ++ [Dial o; Login credentials; Close]
    /\ login W n o = Some err.

Lemma loginFailed_cons o err tr : loginFailed err tr -> loginFailed err (Dial o :: tr).
Proof.
  intros (pre & o' & cr & n & -> & Hl). exists (Dial o :: pre), o', cr, n.
  split; [reflexivity | exact Hl].
Qed.

Lemma tryConnect_errors d exs fuel :
  (forall k s err s' tr,
      tryConnectMX X W fuel d exs k s = Some (inl err, s', tr) ->
      err = noMxLeft d \/ loginFailed err tr)
  /\ (forall k ex ips i retry s err s' tr,
         tryConnectIP X W fuel d exs k ex ips i retry s = Some (inl err, s', tr) ->
         err = noMxLeft d \/ loginFailed err tr).
Proof.
  induction fuel as [|fuel [IHmx IHip]].
  { split; intros; discriminate. }
  split.
  - intros k s err s' tr H. cbn [tryConnectMX] in H.
    destruct (List.length exs <=? k)%nat.
    { injection H as <- _ _. left. reflexivity. }
    destruct (resolveIp W (Exchange.exchange (nth k exs noExchange)))
      as [e|[|ip ips]]; eauto.
  - intros k ex ips i retry s err s' tr H. rewrite tryConnectIP_step in H.
    destruct (negb retry && (Z.of_nat (List.length ips) - 1 <=? i)); [eauto|].
    cbv zeta in H.
    destruct (connect W (dials s) (attemptOptions X d ex ips i retry s)) as [e|].
    + assert (Hnext :
          forall retry' s1,
            after [Dial (attemptOptions X d ex ips i retry s)]
                  (tryConnectIP X W fuel d exs k ex ips (attemptIndex i retry)
                                retry' s1)
            = Some (inl err, s', tr) ->
            err = noMxLeft d \/ loginFailed err tr).
      { intros retry' s1 H1.
        destruct (tryConnectIP X W fuel d exs k ex ips _ retry' s1)
          as [[[r1 s1'] t1]|] eqn:E1; [|discriminate H1].
        injection H1 as -> _ <-.
        destruct (IHip _ _ _ _ _ _ _ _ _ E1) as [Hx|Hx]; [left; exact Hx|].
        right. apply loginFailed_cons. exact Hx. }
      destruct (Error.code e =? "ETLS")%string; eapply Hnext; exact H.
    + destruct (Zone.auth (zone s)) as [cr|]; [|discriminate H].
      destruct (login W (dials s) _) as [e|] eqn:Hl; [|discriminate H].
      injection H as <- _ <-. right.
      exists [], (attemptOptions X d ex ips i retry s), cr, (dials s).
      split; [reflexivity | exact Hl].
Qed.

(** X20. [getConnection] fails in four ways only: with the error of
    [resolveMx]; with the synthesised [450 Can't find an MX server] when
    [resolveMx] gives no list; with the synthesised
    [450 Can't connect to any MX server] when the exchanges are used up;
    or with the error of a failed login, right after closing that
    connection.  In the first two cases nothing was dialled.  The errors
    of refused connections themselves are never handed on. *)
Theorem connection_errors fuel d s err s' tr :
  getConnection X W fuel d s = Some (inl err, s', tr) ->
  (Zone.host (zone s) = "" /\ resolveMx W (Delivery.domain d) = MxError err
   /\ tr = [])
  \/ (Zone.host (zone s) = "" /\ resolveMx W (Delivery.domain d) = MxNone
      /\ err = noMxFound d /\ tr = [])
  \/ err = noMxLeft d
  \/ loginFailed err tr.
Proof.
  rewrite getConnection_unfold. unfold resolved, JS.truthy.
  destruct (Zone.host (zone s) =? "")%string eqn:Eh; cbn [negb].
  - apply String.eqb_eq in Eh.
    destruct (resolveMx W (Delivery.domain d)) as [e| |exs].
    + intros H. injection H as <- _ <-. left. auto.
    + intros H. injection H as <- _ <-. right. left. auto.
    + intros H. right. right.
      apply (proj1 (tryConnect_errors d exs fuel) _ _ _ _ _ H).
  - intros H. right. right.
    apply (proj1 (tryConnect_errors d _ fuel) _ _ _ _ _ H).
Qed.

End ConnectionErrors.

Section Notifications.

Variable X : Externals.
Variable W : World.
Variable config : Config.t.

Definition isNotification (e : Event) : bool := isPost e || isBounce e.

Lemma quiet_not_notification (tr : list Event) :
  Forall (fun e => isQuiet e = true) tr ->
  Forall (fun e => isNotification e = false) tr.
Proof.
  apply Forall_impl. intros e He. destruct e; cbv in *; congruence.
Qed.

Lemma settle_notifies fuel d r s u s' t :
  settle X W config fuel d r s = Some (u, s', t) ->
  forall e,
    In e t -> isNotification e = true ->
    exists err,
      failure X W config d r = Some err
      /\ defers X d err = false
      /\ ack W (releaseCommand d) = None.
Proof.
  unfold settle. intros H e Hin He.
  destruct (failure X W config d r) as [err|].
  - unfold handleResponseError, handleResponseErrorThen in H.
    fold (defers X (settled X config d r) err) in H.
    rewrite defers_settled in H.
    destruct (defers X d err) eqn:Hd.
    + exfalso. unfold deferDelivery in H. run_in H.
      destruct (ack W _); run_in H; injection H as _ _ <-.
      * destruct Hin as [<-|[<-|[]]]; discriminate He.
      * destruct Hin as [<-|[]]; discriminate He.
    + exists err. split; [reflexivity|]. split; [exact Hd|].
      destruct (ack W (releaseCommand d)) as [qerr|] eqn:Ha; [|reflexivity].
      exfalso. unfold releaseDelivery in H. run_in H.
      fold (releaseCommand (settled X config d r)) in H.
      rewrite releaseCommand_settled, Ha in H. run_in H.
      injection H as _ _ <-.
      destruct Hin as [<-|[<-|[]]]; discriminate He.
  - exfalso. unfold releaseDelivery in H. run_in H.
    destruct (ack W _); run_in H; injection H as _ _ <-.
    + destruct Hin as [<-|[<-|[]]]; discriminate He.
    + destruct Hin as [<-|[]]; discriminate He.
Qed.

(** X21. The worker notifies of a bounce (a POST to the webhook, a
    [BOUNCE] command) only after the queue has acknowledged the [RELEASE]
    of a delivery that failed with a reply taken as a permanent reject:
    never for an accepted or a deferred delivery, and never when the
    release itself failed. *)
Theorem notifications_need_released_reject fuel d r s :
  (7 <= fuel)%nat ->
  exists s' tr,
    onConnection X W config fuel d r s = Some (tt, s', tr)
    /\ forall e,
        In e tr -> isNotification e = true ->
        exists err,
          failure X W config d r = Some err
          /\ defers X d err = false
          /\ ack W (releaseCommand d) = None.
Proof.
  intros Hfuel.
  destruct (onConnection_cut X W config fuel d r s Hfuel)
    as (s' & t & E & Es & _).
  exists s'. eexists. split; [exact E|].
  intros e Hin He. apply in_app_or in Hin. destruct Hin as [Hin|Hin].
  - exfalso. destruct r as [x|c]; [destruct Hin|].
    destruct Hin as [<-|[<-|[]]]; discriminate He.
  - apply (settle_notifies fuel d r s tt s' _ Es e); [|exact He].
    destruct Hin as [<-|[<-|Hin]];
      [left; reflexivity | discriminate He | right; exact Hin].
Qed.

(** X22. The SRS block on its edges: an empty envelope sender is passed
    on as it is, also with SRS enabled; a sender without any [@] counts
    as a domain without local part, so that it is looked up whole,
    lowercased, in [srs.excludeDomains] and, when not excluded, rewritten
    with the empty local part. *)
Theorem srs_edge_cases (from : string) :
  occurs "@" from = false ->
  srsEnvelopeFrom X config "" = ""
  /\ senderDomain from = JS.toLowerCase from
  /\ localPart from = ""
  /\ (Config.srs_enabled config = true ->
      from <> "" ->
      ~ In (JS.toLowerCase from) (Config.srs_excludeDomains config) ->
      srsEnvelopeFrom X config from
      = srsRewriter_rewrite X "" (JS.toLowerCase from)
        +++ "@" +++ Config.srs_rewriteDomain config).
Proof.
  intros Hat.
  assert (Hidx : JS.lastIndexOf "@" from = -1)
    by (apply lastIndexOf_from_absent; exact Hat).
  assert (Hdom : senderDomain from = JS.toLowerCase from).
  { unfold senderDomain, JS.substr_from. rewrite Hidx. cbn [Z.add Z.to_nat].
    rewrite Nat.sub_0_r, substring_all. reflexivity. }
  assert (Hloc : localPart from = "")
    by (unfold localPart; rewrite Hidx; reflexivity).
  split; [|split; [exact Hdom|split; [exact Hloc|]]].
  - unfold srsEnvelopeFrom. rewrite andb_false_r. reflexivity.
  - intros Hsrs Hne Hout. unfold srsEnvelopeFrom.
    rewrite Hsrs, (proj2 (truthy_nonempty from) Hne), Hdom, Hloc. cbn [andb].
    destruct (existsb _ _) eqn:Ex; [|reflexivity].
    apply existsb_eqb_In in Ex. contradiction.
Qed.

End Notifications.

Lemma connection_errors_witness :
  exists s' tr,
    getConnection Sample.X Cases.refusing 20 Sample.delivery Sample.state
    = Some (inl (noMxLeft Sample.delivery), s', tr)
    /\ ((Zone.host (zone Sample.state) = ""
         /\ resolveMx Cases.refusing (Delivery.domain Sample.delivery)
            = MxError (noMxLeft Sample.delivery)
         /\ tr = [])
        \/ (Zone.host (zone Sample.state) = ""
            /\ resolveMx Cases.refusing (Delivery.domain Sample.delivery) = MxNone
            /\ noMxLeft Sample.delivery = noMxFound Sample.delivery /\ tr = [])
        \/ noMxLeft Sample.delivery = noMxLeft Sample.delivery
        \/ loginFailed Cases.refusing (noMxLeft Sample.delivery) tr).
Proof.
  eexists _, _.
  match goal with
  | |- ?A /\ _ => assert (H : A) by (vm_compute; reflexivity)
  end.
  split; [exact H|].
  exact (connection_errors Sample.X Cases.refusing 20 Sample.delivery
           Sample.state _ _ _ H).
Defined.

Lemma notifications_need_released_reject_witness :
  (7 <= 7)%nat
  /\ exists s' tr,
      onConnection Sample.X Runs.rejecting Sample.config 7 Sample.delivery
                   (inr Runs.connection) Sample.state
      = Some (tt, s', tr)
      /\ forall e,
          In e tr -> isNotification e = true ->
          ack Runs.rejecting (releaseCommand Sample.delivery) = None.
Proof.
  assert (H : (7 <= 7)%nat) by lia. split; [exact H|].
  destruct (notifications_need_released_reject Sample.X Runs.rejecting
              Sample.config 7 Sample.delivery (inr Runs.connection)
              Sample.state H) as (s' & tr & E & Hn).
  exists s', tr. split; [exact E|].
  intros e Hin He. destruct (Hn e Hin He) as (err & _ & _ & Ha). exact Ha.
Defined.

Lemma srs_edge_cases_witness :
  occurs "@" (String Runs.capitalE "COLE") = false
  /\ senderDomain (String Runs.capitalE "COLE") = String Runs.smallE "cole"
  /\ localPart (String Runs.capitalE "COLE") = ""
  /\ srsEnvelopeFrom Sample.X Sample.config (String Runs.capitalE "COLE")
     = "SRS0=HHH=TT=" +++ String Runs.smallE "cole" +++ "=@srs.example.test".
Proof.
  assert (H : occurs "@" (String Runs.capitalE "COLE") = false) by reflexivity.
  split; [exact H|].
  destruct (srs_edge_cases Sample.X Sample.config
              (String Runs.capitalE "COLE") H)
    as (_ & Hd & Hl & Hrewrite).
  split; [rewrite Hd; reflexivity|]. split; [exact Hl|].
  rewrite Hrewrite; [reflexivity | reflexivity | discriminate |].
  intros [E|[]]. discriminate E.
Defined.
